(** * AI-delegation: the delegation decision logic, embedded in Rocq

    A shallow embedding of the Go packages [security] (security.go),
    [market] (optimizer.go) and [delegation] (engine.go), with the record
    types of [types] they use, followed by the properties proved about them.

    Conventions of the embedding.
    - [float64] values are exact rationals ([Q]): rounding, infinities and
      NaN are outside the model.
    - [time.Time] is an integer number of nanoseconds ([Z]); [time.Duration]
      is an [int64] number of nanoseconds, and [Time.Sub] saturates as Go's
      does.  Every call of [time.Now], [time.Since] or [time.Until] in the
      source is a clock reading of its own: the pure methods of [security]
      take their readings as arguments, in the order the source makes them;
      the engine reads the clock of its world.
    - Go's string-typed enumerations ([TaskStatus], [TriggerType], [CBState],
      the caveat [Type]) stay strings, so that values outside the declared
      constants exist as they do in the source.
    - A Go [error] result is an [option] ([None] is [nil]); a
      [(value, error)] result that is either a value or an error is a
      [result].
    - A Go map is a [gmap]; indexing it at a key it does not hold gives the
      zero value of the element type.
    - The engine's collaborator, the natsclient server, is a record store
      with an access-relation registry and a publication log, as section 6
      of the specification describes it.
    - [log.Printf] calls are not modelled. *)

From Stdlib Require Import ZArith QArith Lia Lqa Ascii String List.
From Stdlib Require Import Sorting.Sorted Sorting.Permutation DecimalString.
From stdpp Require Import gmap strings list fin_maps.

Close Scope Q_scope.
Local Open Scope Z_scope.

(** ** Results and errors *)

Inductive result (E A : Type) : Type :=
| Ok (a : A)
| Err (e : E).
Arguments Ok {E A} a.
Arguments Err {E A} e.

(** ** Comparisons of [float64] values *)

Module float64.

(** [x < y], [x > y] and [x == y]. *)
Definition lt (x y : Q) : bool := negb (Qle_bool y x).
Definition gt (x y : Q) : bool := lt y x.
Definition eq (x y : Q) : bool := Qeq_bool x y.

End float64.

(** ** package time (the part the program uses) *)

Module time.

Definition Time := Z.
Definition Duration := Z.

Definition minDuration : Duration := - 2 ^ 63.
Definition maxDuration : Duration := 2 ^ 63 - 1.

Definition Nanosecond : Duration := 1.
Definition Second : Duration := 1000000000.
Definition Minute : Duration := 60 * Second.
Definition Hour : Duration := 60 * Minute.

(** The zero [time.Time]. *)
Definition zero : Time := 0.

(** [t.Sub(u)]: the difference, saturated to the range of [Duration]. *)
Definition Sub (t u : Time) : Duration :=
  if t - u <? minDuration then minDuration
  else if maxDuration <? t - u then maxDuration
  else t - u.

Definition Add (t : Time) (d : Duration) : Time := t + d.

(** [t.After(u)] *)
Definition After (t u : Time) : bool := u <? t.

(** [time.Since(t)] and [time.Until(t)], at the clock reading [now]. *)
Definition Since (now t : Time) : Duration := Sub now t.
Definition Until (now t : Time) : Duration := Sub t now.

(** [d.Hours()], as a rational. *)
Definition Hours (d : Duration) : Q := (inject_Z d / inject_Z Hour)%Q.

(** [%d] of [t.UnixNano()]. *)
Definition UnixNano_string (t : Time) : string :=
  NilZero.string_of_int (Z.to_int t).

End time.

(** ** package strings (the part the program uses) *)

Module strings.

(** [strings.HasPrefix(s, prefix)] *)
Definition HasPrefix (s prefix : string) : bool := String.prefix prefix s.

(** [strings.Contains(s, substr)]: [substr] occurs somewhere in [s]. *)
Fixpoint Contains (s substr : string) : bool :=
  if String.prefix substr s then true
  else match s with
       | EmptyString => false
       | String _ s' => Contains s' substr
       end.

End strings.

(** ** package sort of the Go standard library: [sort.Slice]

    The implementation behind [sort.Slice] since Go 1.19 (pattern-defeating
    quicksort, sort/zsortfunc.go), on a slice held as a list.  It is used
    below only to run [RankBids] on concrete bids; what is proved of
    [RankBids] for every input rests on the documented contract of
    [sort.Slice] alone. *)

Module sort.

Inductive sortedHint : Type :=
| unknownHint
| increasingHint
| decreasingHint.

(** [bits.Len(x)]: the number of bits needed to represent [x]. *)
Definition bits_Len (x : Z) : Z := if x <=? 0 then 0 else Z.log2 x + 1.

(** [xorshift.Next] on a [uint64]. *)
Definition xorshift_Next (r : Z) : Z :=
  let r := Z.lxor r (Z.shiftl r 13 mod 2 ^ 64) in
  let r := Z.lxor r (Z.shiftr r 7) in
  Z.lxor r (Z.shiftl r 17 mod 2 ^ 64).

Definition nextPowerOfTwo (length : Z) : Z := Z.shiftl 1 (bits_Len length).

(** [count n test x]: the index reached by [for test(x) { x++ }] within
    [n] turns. *)
Fixpoint count_up (n : nat) (test : Z -> bool) (x : Z) : Z :=
  match n with
  | O => x
  | S n' => if test x then count_up n' test (x + 1) else x
  end.

Fixpoint count_down (n : nat) (test : Z -> bool) (x : Z) : Z :=
  match n with
  | O => x
  | S n' => if test x then count_down n' test (x - 1) else x
  end.

Section lessSwap.

Context {A : Type}.

(** The [less] function of the caller, on the elements of the slice. *)
Variable less : A -> A -> bool.

Definition at_index (data : list A) (i : Z) : option A :=
  if i <? 0 then None else data !! Z.to_nat i.

(** [data.Less(i, j)] and [data.Swap(i, j)]. *)
Definition Less (data : list A) (i j : Z) : bool :=
  match at_index data i, at_index data j with
  | Some x, Some y => less x y
  | _, _ => false
  end.

Definition Swap (data : list A) (i j : Z) : list A :=
  match at_index data i, at_index data j with
  | Some x, Some y => <[Z.to_nat i := y]> (<[Z.to_nat j := x]> data)
  | _, _ => data
  end.

(** [for j := i; j > a && data.Less(j, j-1); j-- { data.Swap(j, j-1) }] *)
Fixpoint insertion_inner (n : nat) (data : list A) (a j : Z) : list A :=
  match n with
  | O => data
  | S n' =>
      if (a <? j) && Less data j (j - 1)
      then insertion_inner n' (Swap data j (j - 1)) a (j - 1)
      else data
  end.

Fixpoint insertion_outer (n : nat) (data : list A) (a b i : Z) : list A :=
  match n with
  | O => data
  | S n' =>
      if i <? b
      then insertion_outer n'
             (insertion_inner (Z.to_nat (i - a)) data a i) a b (i + 1)
      else data
  end.

Definition insertionSort_func (data : list A) (a b : Z) : list A :=
  insertion_outer (Z.to_nat (b - a)) data a b (a + 1).

Fixpoint siftDown_loop (n : nat) (data : list A) (root hi first : Z)
    : list A :=
  match n with
  | O => data
  | S n' =>
      let child := 2 * root + 1 in
      if hi <=? child then data
      else
        let child :=
          if (child + 1 <? hi) && Less data (first + child) (first + child + 1)
          then child + 1 else child in
        if negb (Less data (first + root) (first + child)) then data
        else siftDown_loop n' (Swap data (first + root) (first + child))
               child hi first
  end.

Definition siftDown_func (data : list A) (lo hi first : Z) : list A :=
  siftDown_loop (Z.to_nat hi) data lo hi first.

Fixpoint heap_build (n : nat) (data : list A) (i hi first : Z) : list A :=
  match n with
  | O => data
  | S n' =>
      if 0 <=? i
      then heap_build n' (siftDown_func data i hi first) (i - 1) hi first
      else data
  end.

Fixpoint heap_pop (n : nat) (data : list A) (i lo first : Z) : list A :=
  match n with
  | O => data
  | S n' =>
      if 0 <=? i
      then
        let data := Swap data first (first + i) in
        heap_pop n' (siftDown_func data lo i first) (i - 1) lo first
      else data
  end.

Definition heapSort_func (data : list A) (a b : Z) : list A :=
  let first := a in
  let lo := 0 in
  let hi := b - a in
  let data := heap_build (Z.to_nat hi + 1) data (Z.quot (hi - 1) 2) hi first in
  heap_pop (Z.to_nat hi + 1) data (hi - 1) lo first.

(** [order2_func]: the two indices in order, and the swap counter. *)
Definition order2_func (data : list A) (a b swaps : Z) : Z * Z * Z :=
  if Less data b a then (b, a, swaps + 1) else (a, b, swaps).

Definition median_func (data : list A) (a b c swaps : Z) : Z * Z :=
  let '(a, b, swaps) := order2_func data a b swaps in
  let '(b, c, swaps) := order2_func data b c swaps in
  let '(a, b, swaps) := order2_func data a b swaps in
  (b, swaps).

Definition medianAdjacent_func (data : list A) (a swaps : Z) : Z * Z :=
  median_func data (a - 1) a (a + 1) swaps.

Definition choosePivot_func (data : list A) (a b : Z) : Z * sortedHint :=
  let shortestNinther := 50 in
  let maxSwaps := 4 * 3 in
  let l := b - a in
  let swaps := 0 in
  let i := a + l / 4 * 1 in
  let j := a + l / 4 * 2 in
  let k := a + l / 4 * 3 in
  let '(j, swaps) :=
    if 8 <=? l then
      let '(i, j, k, swaps) :=
        if shortestNinther <=? l then
          let '(i, swaps) := medianAdjacent_func data i swaps in
          let '(j, swaps) := medianAdjacent_func data j swaps in
          let '(k, swaps) := medianAdjacent_func data k swaps in
          (i, j, k, swaps)
        else (i, j, k, swaps) in
      median_func data i j k swaps
    else (j, swaps) in
  if swaps =? 0 then (j, increasingHint)
  else if swaps =? maxSwaps then (j, decreasingHint)
  else (j, unknownHint).

Fixpoint reverse_loop (n : nat) (data : list A) (i j : Z) : list A :=
  match n with
  | O => data
  | S n' =>
      if i <? j then reverse_loop n' (Swap data i j) (i + 1) (j - 1)
      else data
  end.

Definition reverseRange_func (data : list A) (a b : Z) : list A :=
  reverse_loop (Z.to_nat (b - a)) data a (b - 1).

(** [for j := i - 1; j >= 1; j-- { if !Less(j, j-1) { break }; Swap(j, j-1) }] *)
Fixpoint shift_left (n : nat) (data : list A) (j : Z) : list A :=
  match n with
  | O => data
  | S n' =>
      if 1 <=? j then
        if negb (Less data j (j - 1)) then data
        else shift_left n' (Swap data j (j - 1)) (j - 1)
      else data
  end.

(** [for j := i + 1; j < b; j++ { if !Less(j, j-1) { break }; Swap(j, j-1) }] *)
Fixpoint shift_right (n : nat) (data : list A) (j b : Z) : list A :=
  match n with
  | O => data
  | S n' =>
      if j <? b then
        if negb (Less data j (j - 1)) then data
        else shift_right n' (Swap data j (j - 1)) (j + 1) b
      else data
  end.

Fixpoint partialInsertion_loop (steps : nat) (data : list A) (a b i : Z)
    : list A * bool :=
  match steps with
  | O => (data, false)
  | S steps' =>
      let i :=
        count_up (Z.to_nat (b - i))
          (fun i => (i <? b) && negb (Less data i (i - 1))) i in
      if i =? b then (data, true)
      else if b - a <? 50 then (data, false)
      else
        let data := Swap data i (i - 1) in
        let data :=
          if 2 <=? i - a then shift_left (Z.to_nat i) data (i - 1)
          else data in
        let data :=
          if 2 <=? b - i then shift_right (Z.to_nat (b - i)) data (i + 1) b
          else data in
        partialInsertion_loop steps' data a b i
  end.

Definition partialInsertionSort_func (data : list A) (a b : Z)
    : list A * bool :=
  partialInsertion_loop 5 data a b (a + 1).

(** The main loop of [partition_func]. *)
Fixpoint partition_loop (n : nat) (data : list A) (a i j : Z)
    : list A * Z :=
  match n with
  | O => (data, j)
  | S n' =>
      let i :=
        count_up (Z.to_nat (j - i + 1))
          (fun i => (i <=? j) && Less data i a) i in
      let j :=
        count_down (Z.to_nat (j - i + 1))
          (fun j => (i <=? j) && negb (Less data j a)) j in
      if j <? i then (data, j)
      else partition_loop n' (Swap data i j) a (i + 1) (j - 1)
  end.

Definition partition_func (data : list A) (a b pivot : Z)
    : list A * Z * bool :=
  let data := Swap data a pivot in
  let i := a + 1 in
  let j := b - 1 in
  let i :=
    count_up (Z.to_nat (j - i + 1)) (fun i => (i <=? j) && Less data i a) i in
  let j :=
    count_down (Z.to_nat (j - i + 1))
      (fun j => (i <=? j) && negb (Less data j a)) j in
  if j <? i then (Swap data j a, j, true)
  else
    let data := Swap data i j in
    let '(data, j) := partition_loop (Z.to_nat (b - a)) data a (i + 1) (j - 1) in
    (Swap data j a, j, false).

Fixpoint partitionEqual_loop (n : nat) (data : list A) (a i j : Z)
    : list A * Z :=
  match n with
  | O => (data, i)
  | S n' =>
      let i :=
        count_up (Z.to_nat (j - i + 1))
          (fun i => (i <=? j) && negb (Less data a i)) i in
      let j :=
        count_down (Z.to_nat (j - i + 1))
          (fun j => (i <=? j) && Less data a j) j in
      if j <? i then (data, i)
      else partitionEqual_loop n' (Swap data i j) a (i + 1) (j - 1)
  end.

Definition partitionEqual_func (data : list A) (a b pivot : Z)
    : list A * Z :=
  let data := Swap data a pivot in
  partitionEqual_loop (Z.to_nat (b - a) + 1) data a (a + 1) (b - 1).

Definition breakPatterns_func (data : list A) (a b : Z) : list A :=
  let length := b - a in
  if 8 <=? length then
    let modulus := nextPowerOfTwo length in
    let idx := a + (length / 4) * 2 - 1 in
    let swap_at (i : Z) (st : list A * Z) : list A * Z :=
      let random := xorshift_Next (snd st) in
      let other := Z.land random (modulus - 1) in
      let other := if length <=? other then other - length else other in
      (Swap (fst st) (idx - 1 + i) (a + other), random) in
    fst (swap_at 2 (swap_at 1 (swap_at 0 (data, length))))
  else data.

(** [pdqsort_func]: one level of [fuel] for each turn of its loop and each
    nested call; [None] when the fuel runs out. *)
Fixpoint pdqsort_func (fuel : nat) (data : list A) (a b limit : Z)
    (wasBalanced wasPartitioned : bool) : option (list A) :=
  match fuel with
  | O => None
  | S fuel' =>
      let maxInsertion := 12 in
      let length := b - a in
      if length <=? maxInsertion then Some (insertionSort_func data a b)
      else if limit =? 0 then Some (heapSort_func data a b)
      else
        let '(data, limit) :=
          if negb wasBalanced
          then (breakPatterns_func data a b, limit - 1)
          else (data, limit) in
        let '(pivot, hint) := choosePivot_func data a b in
        let '(data, pivot, hint) :=
          match hint with
          | decreasingHint =>
              (reverseRange_func data a b, (b - 1) - (pivot - a),
               increasingHint)
          | _ => (data, pivot, hint)
          end in
        let '(data, sorted) :=
          match hint with
          | increasingHint =>
              if wasBalanced && wasPartitioned
              then partialInsertionSort_func data a b
              else (data, false)
          | _ => (data, false)
          end in
        if sorted then Some data
        else if (0 <? a) && negb (Less data (a - 1) pivot) then
          let '(data, mid) := partitionEqual_func data a b pivot in
          pdqsort_func fuel' data mid b limit wasBalanced wasPartitioned
        else
          let '(data, mid, alreadyPartitioned) :=
            partition_func data a b pivot in
          let leftLen := mid - a in
          let rightLen := b - mid in
          let balanceThreshold := length / 8 in
          if leftLen <? rightLen then
            match pdqsort_func fuel' data a mid limit true true with
            | None => None
            | Some data =>
                pdqsort_func fuel' data (mid + 1) b limit
                  (balanceThreshold <=? leftLen) alreadyPartitioned
            end
          else
            match pdqsort_func fuel' data (mid + 1) b limit true true with
            | None => None
            | Some data =>
                pdqsort_func fuel' data a mid limit
                  (balanceThreshold <=? rightLen) alreadyPartitioned
            end
  end.

(** [sort.Slice(x, less)], with fuel for [pdqsort_func]. *)
Definition Slice_fuel (fuel : nat) (x : list A) : option (list A) :=
  let length := Z.of_nat (List.length x) in
  let limit := bits_Len length in
  pdqsort_func fuel x 0 length limit true true.

End lessSwap.

End sort.

(** ** package types (types.go): the records the decision logic reads *)

Module types.

Definition Criticality := string.
Definition CriticalityLow : Criticality := "low".
Definition CriticalityMedium : Criticality := "medium".
Definition CriticalityHigh : Criticality := "high".
Definition CriticalityCritical : Criticality := "critical".

Definition TaskStatus := string.
Definition TaskPending : TaskStatus := "pending".
Definition TaskDecomposed : TaskStatus := "decomposed".
Definition TaskBidding : TaskStatus := "bidding".
Definition TaskAssigned : TaskStatus := "assigned".
Definition TaskCheckpoint : TaskStatus := "checkpoint".
Definition TaskCompleted : TaskStatus := "completed".
Definition TaskFailed : TaskStatus := "failed".
Definition TaskCancelled : TaskStatus := "cancelled".
Definition TaskVerifying : TaskStatus := "verifying".
Definition TaskVerified : TaskStatus := "verified".
Definition TaskDisputed : TaskStatus := "disputed".
Definition TaskReAllocating : TaskStatus := "re_allocating".

Definition AutonomyLevel := string.
Definition AutonomyAtomic : AutonomyLevel := "atomic".
Definition AutonomyBounded : AutonomyLevel := "bounded".
Definition AutonomyOpenEnd : AutonomyLevel := "open_ended".

(** [TaskSpec], without the fields no modelled operation reads or writes
    (title, description, monitoring mode, permissions, verification
    policy, uncertainty, subjectivity, context sensitivity, estimated
    duration, required capabilities, deadline, start and completion
    times). *)
Record TaskSpec : Type := mkTaskSpec {
  TaskID : string;
  ParentTaskID : string;
  DelegatorID : string;
  DelegateeID : string;
  Status : TaskStatus;
  Criticality_ : Criticality;
  Complexity : Z;
  MaxBudget : Q;
  Reversible : bool;
  Verifiability : Q;
  SubTaskIDs : list string;
  IsLeaf : bool;
  AutonomyLevel_ : AutonomyLevel;
  CreatedAt : time.Time
}.

Definition set_ParentTaskID (v : string) (t : TaskSpec) : TaskSpec :=
  mkTaskSpec (TaskID t) v (DelegatorID t) (DelegateeID t) (Status t)
    (Criticality_ t) (Complexity t) (MaxBudget t) (Reversible t)
    (Verifiability t) (SubTaskIDs t) (IsLeaf t) (AutonomyLevel_ t)
    (CreatedAt t).

Definition set_DelegatorID (v : string) (t : TaskSpec) : TaskSpec :=
  mkTaskSpec (TaskID t) (ParentTaskID t) v (DelegateeID t) (Status t)
    (Criticality_ t) (Complexity t) (MaxBudget t) (Reversible t)
    (Verifiability t) (SubTaskIDs t) (IsLeaf t) (AutonomyLevel_ t)
    (CreatedAt t).

Definition set_DelegateeID (v : string) (t : TaskSpec) : TaskSpec :=
  mkTaskSpec (TaskID t) (ParentTaskID t) (DelegatorID t) v (Status t)
    (Criticality_ t) (Complexity t) (MaxBudget t) (Reversible t)
    (Verifiability t) (SubTaskIDs t) (IsLeaf t) (AutonomyLevel_ t)
    (CreatedAt t).

Definition set_Status (v : TaskStatus) (t : TaskSpec) : TaskSpec :=
  mkTaskSpec (TaskID t) (ParentTaskID t) (DelegatorID t) (DelegateeID t) v
    (Criticality_ t) (Complexity t) (MaxBudget t) (Reversible t)
    (Verifiability t) (SubTaskIDs t) (IsLeaf t) (AutonomyLevel_ t)
    (CreatedAt t).

Definition set_MaxBudget (v : Q) (t : TaskSpec) : TaskSpec :=
  mkTaskSpec (TaskID t) (ParentTaskID t) (DelegatorID t) (DelegateeID t)
    (Status t) (Criticality_ t) (Complexity t) v (Reversible t)
    (Verifiability t) (SubTaskIDs t) (IsLeaf t) (AutonomyLevel_ t)
    (CreatedAt t).

Definition set_SubTaskIDs (v : list string) (t : TaskSpec) : TaskSpec :=
  mkTaskSpec (TaskID t) (ParentTaskID t) (DelegatorID t) (DelegateeID t)
    (Status t) (Criticality_ t) (Complexity t) (MaxBudget t) (Reversible t)
    (Verifiability t) v (IsLeaf t) (AutonomyLevel_ t) (CreatedAt t).

Definition set_IsLeaf (v : bool) (t : TaskSpec) : TaskSpec :=
  mkTaskSpec (TaskID t) (ParentTaskID t) (DelegatorID t) (DelegateeID t)
    (Status t) (Criticality_ t) (Complexity t) (MaxBudget t) (Reversible t)
    (Verifiability t) (SubTaskIDs t) v (AutonomyLevel_ t) (CreatedAt t).

Definition set_CreatedAt (v : time.Time) (t : TaskSpec) : TaskSpec :=
  mkTaskSpec (TaskID t) (ParentTaskID t) (DelegatorID t) (DelegateeID t)
    (Status t) (Criticality_ t) (Complexity t) (MaxBudget t) (Reversible t)
    (Verifiability t) (SubTaskIDs t) (IsLeaf t) (AutonomyLevel_ t) v.

Record Bid : Type := mkBid {
  BidID : string;
  BidTaskID : string;          (* Bid.TaskID *)
  AgentID : string;
  EstimatedCost : Q;
  EstimatedTime : Z;           (* int64, seconds *)
  Confidence : Q;
  ReputationBond : Q;
  Capabilities : list string;
  SubmittedAt : time.Time
}.

Record ReputationRecord : Type := mkReputationRecord {
  RepAgentID : string;         (* ReputationRecord.AgentID *)
  RepTaskID : string;          (* ReputationRecord.TaskID *)
  Outcome : string;            (* "success", "failure", "partial" *)
  QualityScore : Q;
  TimelinessScore : Q;
  CostAdherence : Q;
  SafetyCompliance : Q;
  RepDelegatorID : string;     (* ReputationRecord.DelegatorID *)
  RecordedAt : time.Time
}.

Definition set_RecordedAt (v : time.Time) (r : ReputationRecord)
    : ReputationRecord :=
  mkReputationRecord (RepAgentID r) (RepTaskID r) (Outcome r)
    (QualityScore r) (TimelinessScore r) (CostAdherence r)
    (SafetyCompliance r) (RepDelegatorID r) v.

Definition TriggerType := string.
Definition TriggerExtTaskChange : TriggerType := "task_change".
Definition TriggerExtResourceShift : TriggerType := "resource_change".
Definition TriggerExtPriorityShift : TriggerType := "priority_change".
Definition TriggerExtSecurityAlert : TriggerType := "security_alert".
Definition TriggerIntPerfDrop : TriggerType := "performance_degradation".
Definition TriggerIntBudgetOverrun : TriggerType := "budget_overrun".
Definition TriggerIntVerifyFail : TriggerType := "verification_failure".
Definition TriggerIntUnresponsive : TriggerType := "agent_unresponsive".

Record AdaptiveTrigger : Type := mkAdaptiveTrigger {
  TriggerID : string;
  TrigTaskID : string;         (* AdaptiveTrigger.TaskID *)
  TrigType : TriggerType;      (* AdaptiveTrigger.Type *)
  TrigAgentID : string;        (* AdaptiveTrigger.AgentID *)
  Description : string;
  Urgent : bool;
  Timestamp : time.Time
}.

Definition set_Timestamp (v : time.Time) (t : AdaptiveTrigger)
    : AdaptiveTrigger :=
  mkAdaptiveTrigger (TriggerID t) (TrigTaskID t) (TrigType t)
    (TrigAgentID t) (Description t) (Urgent t) v.

(** [Permission] *)
Record Permission : Type := mkPermission {
  PermResource : string;            (* Permission.Resource *)
  Operations : list string;
  PermScope : string;               (* Permission.Scope *)
  PermExpiresAt : option time.Time; (* Permission.ExpiresAt *)
  GrantedBy : string
}.

(** The fields of [TaskSpec] that the record [TaskSpec] above leaves out
    and that [ScreenTask], [ShouldBypassDelegation] and
    [SelectWeightsForTask] read; these functions take the two records
    together as their task. *)
Record TaskDetails : Type := mkTaskDetails {
  Uncertainty : Q;
  EstimatedDuration : Z;            (* int64, seconds *)
  Subjectivity : Q;
  ContextSensitivity : Q;
  RequiredCapabilities : list string;
  Permissions : list Permission;
  Deadline : option time.Time
}.

End types.

(** ** package security (security.go) *)

Module security.

(** *** Delegation Capability Tokens *)

Record Caveat : Type := mkCaveat {
  Type_ : string;   (* "scope", "operation", "time", "budget" *)
  Key : string;
  Value : string
}.

Record DCT : Type := mkDCT {
  TokenID : string;
  GranterID : string;
  BearerID : string;
  Resource : string;
  Caveats : list Caveat;
  IssuedAt : time.Time;
  ExpiresAt : time.Time;
  Revoked : bool
}.

Inductive error : Type :=
| ErrAttenuateRevoked (tokenID : string)
| ErrAttenuateExpired (tokenID : string)
| ErrTokenRevoked
| ErrTokenExpired
| ErrOperationNotPermitted (operation allowed : string)
| ErrScopeOutside (scope boundary : string).

(** [MintDCT]; [now] is the reading of [time.Now()] on its first line. *)
Definition MintDCT (now : time.Time) (granterID bearerID resource : string)
    (ttl : time.Duration) (caveats : list Caveat) : DCT :=
  {| TokenID := "dct_" +:+ granterID +:+ "_" +:+ bearerID +:+ "_"
                  +:+ time.UnixNano_string now;
     GranterID := granterID;
     BearerID := bearerID;
     Resource := resource;
     Caveats := caveats;
     IssuedAt := now;
     ExpiresAt := time.Add now ttl;
     Revoked := false |}.

(** [(d *DCT) Attenuate].  The source reads the clock three times:
    [t_check] in the expiry test, [t_until] in [time.Until(d.ExpiresAt)]
    (an argument of the call of [MintDCT], evaluated before the call), and
    [t_mint] inside [MintDCT]. *)
Definition Attenuate (t_check t_until t_mint : time.Time) (d : DCT)
    (newBearerID : string) (additionalCaveats : list Caveat)
    : result error DCT :=
  if Revoked d then Err (ErrAttenuateRevoked (TokenID d))
  else if time.After t_check (ExpiresAt d)
  then Err (ErrAttenuateExpired (TokenID d))
  else
    let allCaveats := Caveats d ++ additionalCaveats in
    Ok (MintDCT t_mint (BearerID d) newBearerID (Resource d)
          (time.Until t_until (ExpiresAt d)) allCaveats).

(** The loop of [ValidateAccess] over the caveat chain. *)
Fixpoint checkCaveats (cs : list Caveat) (operation scope : string)
    : option error :=
  match cs with
  | [] => None
  | c :: cs' =>
      if String.eqb (Type_ c) "operation" then
        if negb (strings.Contains (Value c) operation)
        then Some (ErrOperationNotPermitted operation (Value c))
        else checkCaveats cs' operation scope
      else if String.eqb (Type_ c) "scope" then
        if negb (strings.HasPrefix scope (Value c))
        then Some (ErrScopeOutside scope (Value c))
        else checkCaveats cs' operation scope
      else checkCaveats cs' operation scope
  end.

(** [(d *DCT) ValidateAccess]; [now] is its one clock reading. *)
Definition ValidateAccess (now : time.Time) (d : DCT)
    (operation scope : string) : option error :=
  if Revoked d then Some ErrTokenRevoked
  else if time.After now (ExpiresAt d) then Some ErrTokenExpired
  else checkCaveats (Caveats d) operation scope.

(** *** Circuit breaker *)

Definition CBState := string.
Definition CBClosed : CBState := "closed".
Definition CBOpen : CBState := "open".
Definition CBHalfOpen : CBState := "half_open".

Record CircuitBreaker : Type := mkCircuitBreaker {
  AgentID : string;
  FailureCount : Z;
  FailureThreshold : Z;
  TrustFloor : Q;
  CooldownPeriod : time.Duration;
  State : CBState;
  LastTripped : time.Time
}.

(** Go's [int] is 64 bits wide on the platforms the program targets;
    [cb.FailureCount++] wraps around. *)
Definition wrap_int (z : Z) : Z := (z + 2 ^ 63) mod 2 ^ 64 - 2 ^ 63.

Definition NewCircuitBreaker (agentID : string) (failureThreshold : Z)
    (trustFloor : Q) : CircuitBreaker :=
  {| AgentID := agentID;
     FailureCount := 0;
     FailureThreshold := failureThreshold;
     TrustFloor := trustFloor;
     CooldownPeriod := 30 * time.Minute;
     State := CBClosed;
     LastTripped := time.zero |}.

Definition set_State (s : CBState) (cb : CircuitBreaker) : CircuitBreaker :=
  {| AgentID := AgentID cb; FailureCount := FailureCount cb;
     FailureThreshold := FailureThreshold cb; TrustFloor := TrustFloor cb;
     CooldownPeriod := CooldownPeriod cb; State := s;
     LastTripped := LastTripped cb |}.

Definition set_LastTripped (t : time.Time) (cb : CircuitBreaker)
    : CircuitBreaker :=
  {| AgentID := AgentID cb; FailureCount := FailureCount cb;
     FailureThreshold := FailureThreshold cb; TrustFloor := TrustFloor cb;
     CooldownPeriod := CooldownPeriod cb; State := State cb;
     LastTripped := t |}.

Definition set_FailureCount (n : Z) (cb : CircuitBreaker) : CircuitBreaker :=
  {| AgentID := AgentID cb; FailureCount := n;
     FailureThreshold := FailureThreshold cb; TrustFloor := TrustFloor cb;
     CooldownPeriod := CooldownPeriod cb; State := State cb;
     LastTripped := LastTripped cb |}.

(** [RecordFailure]: the returned flag and the breaker after the call;
    [now] is the reading of [time.Now()] made when the breaker trips. *)
Definition RecordFailure (now : time.Time) (cb : CircuitBreaker)
    : bool * CircuitBreaker :=
  let cb1 := set_FailureCount (wrap_int (FailureCount cb + 1)) cb in
  if FailureThreshold cb1 <=? FailureCount cb1
  then (true, set_LastTripped now (set_State CBOpen cb1))
  else (false, cb1).

Definition RecordSuccess (cb : CircuitBreaker) : CircuitBreaker :=
  set_State CBClosed (set_FailureCount 0 cb).

Definition CheckTrustDrop (now : time.Time) (currentTrust : Q)
    (cb : CircuitBreaker) : bool * CircuitBreaker :=
  if float64.lt currentTrust (TrustFloor cb)
  then (true, set_LastTripped now (set_State CBOpen cb))
  else (false, cb).

(** [IsAllowed]; [now] is the clock reading of [time.Since]. *)
Definition IsAllowed (now : time.Time) (cb : CircuitBreaker)
    : bool * CircuitBreaker :=
  if String.eqb (State cb) CBClosed then (true, cb)
  else if String.eqb (State cb) CBOpen then
    if CooldownPeriod cb <? time.Since now (LastTripped cb)
    then (true, set_State CBHalfOpen cb)
    else (false, cb)
  else if String.eqb (State cb) CBHalfOpen then (true, cb)
  else (false, cb).

(** *** Task screening *)

(** [time.Duration(task.Complexity)*5*time.Minute], in [int64]. *)
Definition tight_deadline (complexity : Z) : time.Duration :=
  wrap_int (wrap_int (complexity * 5) * time.Minute).

(** [ScreenTask]; [now] is the clock reading of [time.Until], made only
    when the task has a deadline and complexity above 7. *)
Definition ScreenTask (now : time.Time) (task : types.TaskSpec)
    (details : types.TaskDetails) : list string :=
  let warnings := [] in
  let warnings :=
    if 10 <? Z.of_nat (List.length (types.Permissions details))
    then warnings ++ ["excessive permissions requested"]
    else warnings in
  let warnings :=
    if negb (types.Reversible task)
       && String.eqb (types.AutonomyLevel_ task) types.AutonomyOpenEnd
    then warnings
         ++ ["irreversible task with open-ended autonomy — high risk"]
    else warnings in
  let warnings :=
    if float64.gt (types.ContextSensitivity details) 0.8
       && float64.lt (types.Verifiability task) 0.3
    then warnings
         ++ ["high context sensitivity with low verifiability — potential exfiltration vector"]
    else warnings in
  let warnings :=
    match types.Deadline details with
    | Some deadline =>
        if 7 <? types.Complexity task then
          let remaining := time.Until now deadline in
          if remaining <? tight_deadline (types.Complexity task)
          then warnings
               ++ ["deadline too tight for complexity — potential pressure tactic"]
          else warnings
        else warnings
    | None => warnings
    end in
  warnings.

End security.

(** ** package market (optimizer.go) *)

Module market.

Record OptimizationWeights : Type := mkWeights {
  Cost : Q;
  Speed : Q;
  Trust : Q;
  Confidence : Q;
  CapMatch : Q
}.

Definition DefaultWeights : OptimizationWeights :=
  mkWeights 0.20 0.15 0.30 0.15 0.20.

Definition HighStakesWeights : OptimizationWeights :=
  mkWeights 0.05 0.05 0.45 0.20 0.25.

Definition CostOptimizedWeights : OptimizationWeights :=
  mkWeights 0.40 0.25 0.15 0.10 0.10.

Record ScoredBid : Type := mkScoredBid {
  Bid : types.Bid;
  Score : Q;
  CostScore : Q;
  SpeedScore : Q;
  TrustScore : Q;
  ConfidenceScore : Q;
  CapMatchScore : Q
}.

Definition MaxFloat64 : Q := inject_Z (2 ^ 1024 - 2 ^ 971).
Definition MaxInt64 : Z := 2 ^ 63 - 1.

(** [int64] arithmetic wraps around. *)
Definition wrap_int64 (z : Z) : Z := (z + 2 ^ 63) mod 2 ^ 64 - 2 ^ 63.

(** The bounds found by the first loop of [RankBids]. *)
Record bounds : Type := mkBounds {
  minCost : Q;
  maxCost : Q;
  minTime : Z;
  maxTime : Z
}.

Definition bounds_step (acc : bounds) (b : types.Bid) : bounds :=
  let minCost1 :=
    if float64.lt (types.EstimatedCost b) (minCost acc)
    then types.EstimatedCost b else minCost acc in
  let maxCost1 :=
    if float64.gt (types.EstimatedCost b) (maxCost acc)
    then types.EstimatedCost b else maxCost acc in
  let minTime1 :=
    if types.EstimatedTime b <? minTime acc
    then types.EstimatedTime b else minTime acc in
  let maxTime1 :=
    if maxTime acc <? types.EstimatedTime b
    then types.EstimatedTime b else maxTime acc in
  mkBounds minCost1 maxCost1 minTime1 maxTime1.

Definition find_bounds (bids : list types.Bid) : bounds :=
  fold_left bounds_step bids (mkBounds MaxFloat64 0 MaxInt64 0).

(** [capabilityMatchScore]; the [offeredSet] map is a finite set. *)
Definition capabilityMatchScore (required offered : list string) : Q :=
  if (Z.of_nat (List.length required) =? 0)%Z then 1%Q
  else
    let offeredSet : gset string := list_to_set offered in
    let matched :=
      List.length (List.filter (fun r => bool_decide (r ∈ offeredSet))
                     required) in
    (inject_Z (Z.of_nat matched)
     / inject_Z (Z.of_nat (List.length required)))%Q.

(** The body of the second loop of [RankBids], for one bid.  Indexing a Go
    map at a key it does not hold gives the zero value of the element
    type: [0] for [agentTrust], the nil slice for [agentCaps]. *)
Definition score_bid (bs : bounds) (weights : OptimizationWeights)
    (agentTrust : gmap string Q) (requiredCaps : list string)
    (agentCaps : gmap string (list string)) (bid : types.Bid)
    : ScoredBid :=
  let costScore :=
    if float64.gt (maxCost bs) (minCost bs)
    then (1 - (types.EstimatedCost bid - minCost bs)
              / (maxCost bs - minCost bs))%Q
    else 1%Q in
  let speedScore :=
    if minTime bs <? maxTime bs
    then (1 - inject_Z (wrap_int64 (types.EstimatedTime bid - minTime bs))
              / inject_Z (wrap_int64 (maxTime bs - minTime bs)))%Q
    else 1%Q in
  let trust := default 0%Q (agentTrust !! types.AgentID bid) in
  let capScore :=
    capabilityMatchScore requiredCaps
      (default [] (agentCaps !! types.AgentID bid)) in
  let total :=
    (Cost weights * costScore
     + Speed weights * speedScore
     + Trust weights * trust
     + Confidence weights * types.Confidence bid
     + CapMatch weights * capScore)%Q in
  {| Bid := bid;
     Score := total;
     CostScore := costScore;
     SpeedScore := speedScore;
     TrustScore := trust;
     ConfidenceScore := types.Confidence bid;
     CapMatchScore := capScore |}.

(** The slice [scored] as it is just before the call of [sort.Slice]. *)
Definition score_bids (bids : list types.Bid) (weights : OptimizationWeights)
    (agentTrust : gmap string Q) (requiredCaps : list string)
    (agentCaps : gmap string (list string)) : list ScoredBid :=
  List.map (score_bid (find_bounds bids) weights agentTrust requiredCaps
              agentCaps) bids.

(** The [less] function handed to [sort.Slice]:
    [scored[i].Score > scored[j].Score]. *)
Definition less (x y : ScoredBid) : bool :=
  float64.gt (Score x) (Score y).

Section RankBids.

(** [sort.Slice] belongs to Go's standard library.  Its documentation
    promises a sorted rearrangement of the slice and states that the
    sort is not guaranteed to be stable; the function is a parameter
    here and its contract is [sort_Slice_contract] below. *)
Variable sort_Slice :
  (ScoredBid -> ScoredBid -> bool) -> list ScoredBid -> list ScoredBid.

Definition RankBids (bids : list types.Bid) (weights : OptimizationWeights)
    (agentTrust : gmap string Q) (requiredCaps : list string)
    (agentCaps : gmap string (list string)) : list ScoredBid :=
  if (Z.of_nat (List.length bids) =? 0)%Z then []
  else
    sort_Slice less
      (score_bids bids weights agentTrust requiredCaps agentCaps).

End RankBids.

(** What the documentation of [sort.Slice] promises of a call with a
    [less] that is a strict weak ordering: the result is a rearrangement
    of the slice in which no element is [less] than an earlier one. *)
Definition sort_Slice_contract
    (sort_Slice : (ScoredBid -> ScoredBid -> bool) -> list ScoredBid
                  -> list ScoredBid) : Prop :=
  forall l : list ScoredBid,
    Permutation (sort_Slice less l) l /\
    StronglySorted (fun x y => less y x = false) (sort_Slice less l).

(** [ShouldBypassDelegation] *)
Definition ShouldBypassDelegation (task : types.TaskSpec)
    (details : types.TaskDetails) : bool :=
  String.eqb (types.Criticality_ task) types.CriticalityLow
  && (types.Complexity task <=? 2)
  && float64.lt (types.Uncertainty details) 0.2
  && (types.EstimatedDuration details <? 60).

(** [SelectWeightsForTask] *)
Definition SelectWeightsForTask (task : types.TaskSpec)
    : OptimizationWeights :=
  if String.eqb (types.Criticality_ task) types.CriticalityCritical
     || String.eqb (types.Criticality_ task) types.CriticalityHigh
  then HighStakesWeights
  else if String.eqb (types.Criticality_ task) types.CriticalityLow
          && (types.Complexity task <=? 3)
  then CostOptimizedWeights
  else DefaultWeights.

End market.

(** ** package delegation (engine.go) *)

Module delegation.

Definition DomainAgents : string := "Agents".
Definition DomainTasks : string := "Tasks".
Definition DomainContracts : string := "Contracts".
Definition DomainBids : string := "Bids".
Definition DomainMonitoring : string := "Monitoring".
Definition DomainReputation : string := "Reputation".
Definition DomainTriggers : string := "Triggers".

(** What the engine stores and publishes.  [json.Marshal] followed by
    [json.Unmarshal] is taken to give the value back; unmarshalling a
    payload of another kind is an error. *)
Inductive Payload : Type :=
| PTask (t : types.TaskSpec)
| PReputation (r : types.ReputationRecord)
| PHistory (rs : list types.ReputationRecord)
| PTrigger (t : types.AdaptiveTrigger)
| PBytes (b : string).

Inductive error : Type :=
| ErrNoRDID (domain entity : string)
| ErrCannotEstablishRDID (domain entity : string)
| ErrStoreFailed (domain entity aspect : string)
| ErrRetrieveFailed (domain entity aspect : string)
| ErrUnmarshal
| ErrTaskEntityRegister
| ErrInitChannel (channel : string)
| ErrPublish (channel : string)
| ErrLowVerifiability (taskID : string) (verifiability : Q)
| ErrWrap (context : string) (e : error).

(** Modelled from the spec: the natsclient server behind [nc.Post],
    [nc.Get], [nc.EntityRegister], [nc.RelationRegister],
    [nc.RelationRetrieve], [nc.InitChannel] and [nc.SecureChannelPublish],
    whose code is not part of the source files.  Section 6 of the
    specification describes it: a record store with [put] and [get] by
    domain, entity and aspect, latest write wins; a registry of access
    relations; a broadcast channel; each call may fail, and a failed call
    changes nothing.  The world the engine runs in is that server and the
    clock.  A call succeeds or fails as the [*_ok] fields say. *)
Record World : Type := mkWorld {
  clock : nat -> time.Time;      (* the n-th reading of the clock *)
  reads : nat;                   (* clock readings made so far *)
  entity_register_ok : string -> bool;
  relation_register_ok : string -> bool;
  post_ok : string -> string -> string -> bool;
  init_channel_ok : string -> bool;
  publish_ok : string -> bool;
  entities : gset string;
  relations : gset string;
  records : gmap (string * string * string) Payload;
  published : list (string * Payload)
}.

Definition set_reads (v : nat) (w : World) : World :=
  mkWorld (clock w) v (entity_register_ok w) (relation_register_ok w)
    (post_ok w) (init_channel_ok w) (publish_ok w) (entities w)
    (relations w) (records w) (published w).

Definition set_entities (v : gset string) (w : World) : World :=
  mkWorld (clock w) (reads w) (entity_register_ok w)
    (relation_register_ok w) (post_ok w) (init_channel_ok w) (publish_ok w)
    v (relations w) (records w) (published w).

Definition set_relations (v : gset string) (w : World) : World :=
  mkWorld (clock w) (reads w) (entity_register_ok w)
    (relation_register_ok w) (post_ok w) (init_channel_ok w) (publish_ok w)
    (entities w) v (records w) (published w).

Definition set_records (v : gmap (string * string * string) Payload)
    (w : World) : World :=
  mkWorld (clock w) (reads w) (entity_register_ok w)
    (relation_register_ok w) (post_ok w) (init_channel_ok w) (publish_ok w)
    (entities w) (relations w) v (published w).

Definition set_published (v : list (string * Payload)) (w : World)
    : World :=
  mkWorld (clock w) (reads w) (entity_register_ok w)
    (relation_register_ok w) (post_ok w) (init_channel_ok w) (publish_ok w)
    (entities w) (relations w) (records w) v.

(** Computations that read and change the world. *)
Definition M (A : Type) : Type := World -> A * World.

Definition ret {A : Type} (a : A) : M A := fun w => (a, w).

Definition bind {A B : Type} (m : M A) (k : A -> M B) : M B :=
  fun w => let (a, w1) := m w in k a w1.

Notation "'do' x <- m ; k" := (bind m (fun x => k))
  (at level 10, x name, m at level 100, k at level 200).
Notation "'do' ' p <- m ; k" := (bind m (fun x => let 'p := x in k))
  (at level 10, p strict pattern, m at level 100, k at level 200).

(** [time.Now()] *)
Definition time_Now : M time.Time :=
  fun w => (clock w (reads w), set_reads (S (reads w)) w).

(** *** natsclient calls *)

(** [nc.RelationRetrieve]: whether the entity holds an RDID. *)
Definition nc_RelationRetrieve (entity : string) : M bool :=
  fun w => (bool_decide (entity ∈ relations w), w).

(** [nc.RelationRegister]: whether the status is [http.StatusOK]. *)
Definition nc_RelationRegister (entity : string) : M bool :=
  fun w =>
    if relation_register_ok w entity
    then (true, set_relations ({[entity]} ∪ relations w) w)
    else (false, w).

Definition nc_EntityRegister (entity : string) : M bool :=
  fun w =>
    if entity_register_ok w entity
    then (true, set_entities ({[entity]} ∪ entities w) w)
    else (false, w).

Definition nc_Post (domain entity aspect : string) (data : Payload)
    : M bool :=
  fun w =>
    if post_ok w domain entity aspect
    then (true, set_records (<[(domain, entity, aspect) := data]> (records w)) w)
    else (false, w).

(** [nc.Get] with timestamp "latest". *)
Definition nc_Get (domain entity aspect : string) : M (option Payload) :=
  fun w => (records w !! (domain, entity, aspect), w).

Definition nc_InitChannel (channel : string) : M bool :=
  fun w =>
    if init_channel_ok w channel
    then (true, set_relations ({[channel]} ∪ relations w) w)
    else (false, w).

Definition nc_SecureChannelPublish (channel : string) (data : Payload)
    : M bool :=
  fun w =>
    if publish_ok w channel
    then (true, set_published (published w ++ [(channel, data)]) w)
    else (false, w).

(** *** The engine *)

Record Engine : Type := mkEngine {
  Server : string;
  SelfID : string
}.

Section Engine.

Variable e : Engine.

(** [time.Time.Format(time.RFC3339Nano)], used to build storage keys. *)
Variable RFC3339Nano : time.Time -> string.

Definition storeData (domain entity aspect : string) (data : Payload)
    : M (option error) :=
  do found <- nc_RelationRetrieve entity;
  do have_rdid <-
    (if found then ret true else nc_RelationRegister entity);
  if negb have_rdid
  then ret (Some (ErrCannotEstablishRDID domain entity))
  else
    do posted <- nc_Post domain entity aspect data;
    if posted then ret None
    else ret (Some (ErrStoreFailed domain entity aspect)).

Definition retrieveData (domain entity aspect : string)
    : M (result error Payload) :=
  do found <- nc_RelationRetrieve entity;
  if negb found then ret (Err (ErrNoRDID domain entity))
  else
    do rsp <- nc_Get domain entity aspect;
    match rsp with
    | Some data => ret (Ok data)
    | None => ret (Err (ErrRetrieveFailed domain entity aspect))
    end.

Definition CreateTask (task : types.TaskSpec) : M (option error) :=
  do now <- time_Now;
  let task := types.set_CreatedAt now task in
  let task := types.set_Status types.TaskPending task in
  do registered <- nc_EntityRegister (types.TaskID task);
  if negb registered then ret (Some ErrTaskEntityRegister)
  else
    do _ <- nc_RelationRegister (types.TaskID task);
    storeData DomainTasks (types.TaskID task) "spec" (PTask task).

Definition GetTask (taskID : string) : M (result error types.TaskSpec) :=
  do r <- retrieveData DomainTasks taskID "spec";
  match r with
  | Err err => ret (Err err)
  | Ok (PTask task) => ret (Ok task)
  | Ok _ => ret (Err (ErrWrap "unmarshal task" ErrUnmarshal))
  end.

Definition UpdateTask (task : types.TaskSpec) : M (option error) :=
  storeData DomainTasks (types.TaskID task) "spec" (PTask task).

(** The loop of [DecomposeTask] over [subTasks].  The two assignments
    to [sub] also write the caller's slice; that slice is not part of
    the world modelled here. *)
Fixpoint decompose_loop (parentID : string) (parent : types.TaskSpec)
    (subTasks : list types.TaskSpec) (subIDs : list string)
    : M (result error (list string)) :=
  match subTasks with
  | [] => ret (Ok subIDs)
  | sub0 :: rest =>
      let sub := types.set_ParentTaskID parentID sub0 in
      let sub := types.set_DelegatorID (types.DelegatorID parent) sub in
      if float64.lt (types.Verifiability sub) 0.3
         && negb (types.IsLeaf sub)
      then ret (Err (ErrLowVerifiability (types.TaskID sub)
                       (types.Verifiability sub)))
      else
        do err <- CreateTask sub;
        match err with
        | Some err => ret (Err (ErrWrap "create sub-task" err))
        | None =>
            decompose_loop parentID parent rest
              (subIDs ++ [types.TaskID sub])
        end
  end.

Definition DecomposeTask (parentID : string)
    (subTasks : list types.TaskSpec) : M (result error types.TaskSpec) :=
  do r <- GetTask parentID;
  match r with
  | Err err => ret (Err (ErrWrap "get parent task" err))
  | Ok parent =>
      do ids <- decompose_loop parentID parent subTasks [];
      match ids with
      | Err err => ret (Err err)
      | Ok subIDs =>
          let parent := types.set_SubTaskIDs subIDs parent in
          let parent := types.set_Status types.TaskDecomposed parent in
          let parent := types.set_IsLeaf false parent in
          do err <- UpdateTask parent;
          match err with
          | Some err => ret (Err (ErrWrap "update parent task" err))
          | None => ret (Ok parent)
          end
      end
  end.

(** [PublishTaskForBidding]: the channel name, or the error. *)
Definition PublishTaskForBidding (task : types.TaskSpec)
    : M (result error string) :=
  let channelName := "bid_" +:+ types.TaskID task in
  do opened <- nc_InitChannel channelName;
  if negb opened
  then ret (Err (ErrWrap "init bidding channel" (ErrInitChannel channelName)))
  else
    let task := types.set_Status types.TaskBidding task in
    do err <- UpdateTask task;
    match err with
    | Some err => ret (Err err)
    | None =>
        do sent <- nc_SecureChannelPublish channelName (PTask task);
        if sent then ret (Ok channelName)
        else ret (Err (ErrWrap "publish to bidding channel"
                         (ErrPublish channelName)))
    end.

Definition RecordReputation (record : types.ReputationRecord)
    : M (option error) :=
  do now <- time_Now;
  let record := types.set_RecordedAt now record in
  let key := types.RepTaskID record +:+ "_"
             +:+ RFC3339Nano (types.RecordedAt record) in
  storeData DomainReputation (types.RepAgentID record) key
    (PReputation record).

Definition GetReputationHistory (agentID : string)
    : M (result error (list types.ReputationRecord)) :=
  do r <- retrieveData DomainReputation agentID "history";
  match r with
  | Err err => ret (Err err)
  | Ok (PHistory rs) => ret (Ok rs)
  | Ok _ => ret (Err ErrUnmarshal)
  end.

(** [reDelegate]; the first component is [*task] after the call. *)
Definition reDelegate (task : types.TaskSpec)
    : M (types.TaskSpec * option error) :=
  do _ <-
    (if negb (String.eqb (types.DelegateeID task) "")
     then
       RecordReputation
         {| types.RepAgentID := types.DelegateeID task;
            types.RepTaskID := types.TaskID task;
            types.Outcome := "failure";
            types.QualityScore := 0;
            types.TimelinessScore := 0;
            types.CostAdherence := 0;
            types.SafetyCompliance := 0;
            types.RepDelegatorID := SelfID e;
            types.RecordedAt := time.zero |}
     else ret None);
  let task := types.set_DelegateeID "" task in
  let task := types.set_Status types.TaskReAllocating task in
  do err <- UpdateTask task;
  match err with
  | Some err => ret (task, Some err)
  | None =>
      do r <- PublishTaskForBidding task;
      match r with
      | Err err => ret (task, Some err)
      | Ok _ => ret (task, None)
      end
  end.

(** [evaluateAndRespond]; the first component is [*task] after the
    call. *)
Definition evaluateAndRespond (task : types.TaskSpec)
    (trigger : types.AdaptiveTrigger)
    : M (types.TaskSpec * option error) :=
  if negb (types.Reversible task) && types.Urgent trigger then
    let task := types.set_Status types.TaskCancelled task in
    do err <- UpdateTask task;
    ret (task, err)
  else if types.Urgent trigger then reDelegate task
  else if String.eqb (types.TrigType trigger) types.TriggerIntBudgetOverrun
  then
    let task :=
      types.set_MaxBudget (types.MaxBudget task * 1.2)%Q task in
    do err <- UpdateTask task;
    ret (task, err)
  else if String.eqb (types.TrigType trigger) types.TriggerIntPerfDrop
          || String.eqb (types.TrigType trigger)
               types.TriggerIntUnresponsive
  then reDelegate task
  else if String.eqb (types.TrigType trigger) types.TriggerIntVerifyFail
  then
    let task := types.set_Status types.TaskReAllocating task in
    do err <- UpdateTask task;
    ret (task, err)
  else ret (task, None).

Definition RaiseTrigger (trigger : types.AdaptiveTrigger)
    : M (option error) :=
  do now <- time_Now;
  let trigger := types.set_Timestamp now trigger in
  do err <-
    storeData DomainTriggers (types.TrigTaskID trigger)
      (types.TriggerID trigger) (PTrigger trigger);
  match err with
  | Some err => ret (Some err)
  | None =>
      do r <- GetTask (types.TrigTaskID trigger);
      match r with
      | Err err => ret (Some err)
      | Ok task =>
          do '(_, err) <- evaluateAndRespond task trigger;
          ret err
      end
  end.

(** *** Reputation *)

(** One turn of the loop of [ComputeTrustScore]: the age of the record
    in days, its weight, and its component average. *)
Definition ageDays (now : time.Time) (rec : types.ReputationRecord)
    : Q :=
  (time.Hours (time.Sub now (types.RecordedAt rec)) / 24)%Q.

Definition weight (now : time.Time) (rec : types.ReputationRecord) : Q :=
  (1 / (1 + ageDays now rec / 30))%Q.

Definition score (rec : types.ReputationRecord) : Q :=
  ((types.QualityScore rec + types.TimelinessScore rec
    + types.CostAdherence rec + types.SafetyCompliance rec) / 4)%Q.

(** The pair [(weightedSum, totalWeight)] after the loop. *)
Definition trust_sums (now : time.Time)
    (records : list types.ReputationRecord) : Q * Q :=
  fold_left
    (fun acc rec =>
       (fst acc + score rec * weight now rec, snd acc + weight now rec)%Q)
    records (0%Q, 0%Q).

(** [ComputeTrustScore] from the point where the history has been read
    and is not empty; [now] is its clock reading. *)
Definition trust_of_history (now : time.Time)
    (records : list types.ReputationRecord) : Q :=
  let (weightedSum, totalWeight) := trust_sums now records in
  if float64.eq totalWeight 0 then 0.5%Q
  else (weightedSum / totalWeight)%Q.

Definition ComputeTrustScore (agentID : string) : M (Q * option error) :=
  do r <- GetReputationHistory agentID;
  match r with
  | Err err => ret (0.5%Q, Some err)
  | Ok records =>
      if (Z.of_nat (List.length records) =? 0)%Z then ret (0.5%Q, None)
      else
        do now <- time_Now;
        ret (trust_of_history now records, None)
  end.

(** [SubmitForVerification] *)
Definition SubmitForVerification (taskID : string) (artifact : string)
    : M (option error) :=
  do r <- GetTask taskID;
  match r with
  | Err err => ret (Some err)
  | Ok task =>
      let task := types.set_Status types.TaskVerifying task in
      do err <- UpdateTask task;
      match err with
      | Some err => ret (Some err)
      | None =>
          storeData DomainTasks taskID "result_artifact" (PBytes artifact)
      end
  end.

End Engine.

End delegation.

(** * Vocabulary of the properties *)

Module props.

Import security.

(** ** Capability tokens *)

Definition is_operation (c : Caveat) : bool :=
  String.eqb (Type_ c) "operation".

Definition is_scope (c : Caveat) : bool := String.eqb (Type_ c) "scope".

(** The caveats of the two kinds [ValidateAccess] has a case for. *)
Definition is_checked (c : Caveat) : bool := is_operation c || is_scope c.

(** Every "scope" caveat of the chain is a prefix of the requested scope. *)
Definition scopes_hold (scope : string) (cs : list Caveat) : Prop :=
  forall c, In c cs -> Type_ c = "scope" ->
            strings.HasPrefix scope (Value c) = true.

Definition with_Caveats (cs : list Caveat) (d : DCT) : DCT :=
  mkDCT (TokenID d) (GranterID d) (BearerID d) (Resource d) cs
    (IssuedAt d) (ExpiresAt d) (Revoked d).

(** A token is live at a clock reading: not revoked and not past expiry. *)
Definition live (now : time.Time) (d : DCT) : Prop :=
  Revoked d = false /\ time.After now (ExpiresAt d) = false.

(** [child] is the result of one successful attenuation of [parent]. *)
Definition attenuates (parent child : DCT) : Prop :=
  exists t_check t_until t_mint newBearerID additionalCaveats,
    Attenuate t_check t_until t_mint parent newBearerID additionalCaveats
    = Ok child.

(** Chains of attenuations. *)
Inductive descends : DCT -> DCT -> Prop :=
| descends_refl d : descends d d
| descends_step a b c : descends a b -> attenuates b c -> descends a c.

(** The first list is an initial segment of the second. *)
Definition extends (base full : list Caveat) : Prop :=
  exists added, full = base ++ added.

(** Tokens of the kind the lifecycle example mints. *)
Definition read_only_token : DCT :=
  MintDCT 0 "agent-orchestrator-01" "agent-coder-01" "analytics-db"
    (8 * time.Hour)
    [mkCaveat "operation" "ops" "read";
     mkCaveat "scope" "tables" "raw_events"].

Definition scope_only_token : DCT :=
  MintDCT 0 "agent-orchestrator-01" "agent-coder-01" "analytics-db"
    (8 * time.Hour)
    [mkCaveat "scope" "tables" "raw_events"].

Definition time_budget_token : DCT :=
  MintDCT 0 "agent-orchestrator-01" "agent-coder-01" "analytics-db"
    (8 * time.Hour)
    [mkCaveat "time" "window" "business_hours";
     mkCaveat "budget" "max" "100"].

Definition revoked_token : DCT :=
  mkDCT "dct_a_b_0" "a" "b" "analytics-db" [] 0 (8 * time.Hour) true.

(** ** Circuit breaker *)

(** The calls that can be made on a breaker other than [RecordSuccess],
    each with its clock reading. *)
Inductive cb_call : Type :=
| CallRecordFailure (now : time.Time)
| CallCheckTrustDrop (now : time.Time) (currentTrust : Q)
| CallIsAllowed (now : time.Time).

Definition do_call (cb : CircuitBreaker) (c : cb_call) : CircuitBreaker :=
  match c with
  | CallRecordFailure now => snd (RecordFailure now cb)
  | CallCheckTrustDrop now trust => snd (CheckTrustDrop now trust cb)
  | CallIsAllowed now => snd (IsAllowed now cb)
  end.

Definition do_calls (cb : CircuitBreaker) (cs : list cb_call)
    : CircuitBreaker :=
  fold_left do_call cs cb.

(** Three failures in a row, recorded at [t1], [t2] and [t3]. *)
Definition three_failures (t1 t2 t3 : time.Time) (cb : CircuitBreaker)
    : CircuitBreaker :=
  snd (RecordFailure t3 (snd (RecordFailure t2 (snd (RecordFailure t1 cb))))).

(** ** Bid ranking *)

Import market.

(** A list of scored bids in descending order of total score. *)
Definition descending (l : list ScoredBid) : Prop :=
  StronglySorted (fun x y => (Score y <= Score x)%Q) l.

(** Bids of equal total score come out in the order they went in: for
    every score, the bids of that score form the same sequence in the
    output as in the input. *)
Definition ties_keep_order (input output : list ScoredBid) : Prop :=
  forall s : Q,
    List.filter (fun x => Qeq_bool (Score x) s) output
    = List.filter (fun x => Qeq_bool (Score x) s) input.

(** A sorting function that meets the contract of [sort.Slice]: insertion
    sort that takes the elements from the back of the slice and puts each
    one behind the elements it is not [less] than. *)
Fixpoint insert_behind (less : ScoredBid -> ScoredBid -> bool)
    (x : ScoredBid) (l : list ScoredBid) : list ScoredBid :=
  match l with
  | [] => [x]
  | y :: l' =>
      if less x y then x :: y :: l' else y :: insert_behind less x l'
  end.

Definition back_insertion_sort (less : ScoredBid -> ScoredBid -> bool)
    (l : list ScoredBid) : list ScoredBid :=
  fold_right (insert_behind less) [] l.

(** Two bids that differ in nothing but their identity and agent. *)
Definition bid_first : types.Bid :=
  types.mkBid "bid-1" "task-data-pipeline" "agent-coder-01"
    18 14400 0.85 0 [] 0.

Definition bid_second : types.Bid :=
  types.mkBid "bid-2" "task-data-pipeline" "agent-analyst-01"
    18 14400 0.85 0 [] 0.

Definition equal_trust : gmap string Q :=
  <["agent-coder-01" := 0.8%Q]> (<["agent-analyst-01" := 0.8%Q]> ∅).

(** [sort.Slice] as Go implements it, with one level of fuel more than the
    slice is long (the slice is returned as it is should the fuel run out). *)
Definition pdq_sort_Slice (less : ScoredBid -> ScoredBid -> bool)
    (l : list ScoredBid) : list ScoredBid :=
  default l (sort.Slice_fuel less (S (List.length l)) l).

(** Thirteen bids that differ in their identity and agent only, but for the
    last, whose confidence is higher. *)
Definition tied_bid (id agent : string) (confidence : Q) : types.Bid :=
  types.mkBid id "task-data-pipeline" agent 18 14400 confidence 0 [] 0.

Definition thirteen_bids : list types.Bid :=
  [tied_bid "bid-01" "agent-01" 0.85; tied_bid "bid-02" "agent-02" 0.85;
   tied_bid "bid-03" "agent-03" 0.85; tied_bid "bid-04" "agent-04" 0.85;
   tied_bid "bid-05" "agent-05" 0.85; tied_bid "bid-06" "agent-06" 0.85;
   tied_bid "bid-07" "agent-07" 0.85; tied_bid "bid-08" "agent-08" 0.85;
   tied_bid "bid-09" "agent-09" 0.85; tied_bid "bid-10" "agent-10" 0.85;
   tied_bid "bid-11" "agent-11" 0.85; tied_bid "bid-12" "agent-12" 0.85;
   tied_bid "bid-13" "agent-13" 0.95].

(** A bid of an agent the trust map does not know. *)
Definition bid_unknown : types.Bid :=
  types.mkBid "bid-3" "task-data-pipeline" "agent-newcomer-01"
    20 10800 0.9 0 [] 0.

(** ** The engine *)

Import delegation.

(** A server on which every call succeeds, holding nothing, with the
    clock reading [n] nanoseconds at its [n]-th reading. *)
Definition empty_world : World :=
  mkWorld (fun n => Z.of_nat n) 0 (fun _ => true) (fun _ => true)
    (fun _ _ _ => true) (fun _ => true) (fun _ => true) ∅ ∅ ∅ [].

Definition engine : Engine := mkEngine "delegation-server" "agent-orchestrator-01".

Definition parent_task : types.TaskSpec :=
  types.mkTaskSpec "task-build-dashboard" "" "agent-orchestrator-01" ""
    "" "high" 8 50 true 0.7 [] false "bounded" 0.

Definition child_verifiable : types.TaskSpec :=
  types.mkTaskSpec "task-data-pipeline" "" "" "" "" "high" 6 20 true 0.8
    [] true "atomic" 0.

Definition child_unverifiable : types.TaskSpec :=
  types.mkTaskSpec "task-visualization" "" "" "" "" "medium" 5 15 true 0.1
    [] false "bounded" 0.

(** The world after [CreateTask(parent_task)]. *)
Definition world_with_parent : World :=
  snd (CreateTask parent_task empty_world).

Definition irreversible_task : types.TaskSpec :=
  types.mkTaskSpec "task-api-backend" "task-build-dashboard"
    "agent-orchestrator-01" "agent-coder-01" "in_progress" "medium" 5 15
    false 0.9 [] true "atomic" 0.

Definition urgent_trigger : types.AdaptiveTrigger :=
  types.mkAdaptiveTrigger "trigger-api-unresponsive" "task-api-backend"
    "agent_unresponsive" "agent-coder-01"
    "Agent failed to respond to 3 consecutive health checks" true 0.

(** ** Reputation *)

Definition in_unit (q : Q) : Prop := (0 <= q <= 1)%Q.

(** The four component scores of a record lie in [0,1]. *)
Definition scores_in_unit (rec : types.ReputationRecord) : Prop :=
  in_unit (types.QualityScore rec) /\
  in_unit (types.TimelinessScore rec) /\
  in_unit (types.CostAdherence rec) /\
  in_unit (types.SafetyCompliance rec).

Definition days (n : Z) : time.Duration := n * 24 * time.Hour.

(** The record is stamped less than 30 days after the clock reading. *)
Definition not_far_future (now : time.Time) (rec : types.ReputationRecord)
    : Prop :=
  types.RecordedAt rec < now + days 30.

Definition record_at (t : time.Time) (q : Q) : types.ReputationRecord :=
  types.mkReputationRecord "agent-coder-01" "task-data-pipeline" "partial"
    q q q q "agent-orchestrator-01" t.

(** A server that holds the given history for agent-coder-01, with the
    clock stopped at [now]. *)
Definition world_with_history (now : time.Time)
    (history : list types.ReputationRecord) : World :=
  mkWorld (fun _ => now) 0 (fun _ => true) (fun _ => true)
    (fun _ _ _ => true) (fun _ => true) (fun _ => true) ∅
    {["agent-coder-01"]}
    {[(DomainReputation, "agent-coder-01", "history") := PHistory history]}
    [].

(** ** Access control, continued *)

(** Every "operation" caveat of the chain mentions the requested operation. *)
Definition operations_hold (operation : string) (cs : list Caveat) : Prop :=
  forall c, In c cs -> Type_ c = "operation" ->
            strings.Contains (Value c) operation = true.

(** [sub] occurs in [s] as a run of consecutive bytes. *)
Definition occurs_in (sub s : string) : Prop :=
  exists pre post, s = pre +:+ sub +:+ post.

(** What [read_only_token] becomes when agent-coder-01 attenuates it for a
    sub-worker with one more scope caveat, the clock reading 1000 ns at the
    two readings of [Attenuate] and 1001 ns at the one of [MintDCT]. *)
Definition sub_worker_token : DCT :=
  MintDCT 1001 "agent-coder-01" "agent-sub-worker-01" "analytics-db"
    (8 * time.Hour - 1000)
    [mkCaveat "operation" "ops" "read";
     mkCaveat "scope" "tables" "raw_events";
     mkCaveat "scope" "tables" "raw_events/2026"].

(** The flags returned by successive calls of [RecordFailure], one for each
    clock reading of the list, and the breaker after them. *)
Fixpoint record_failures (ts : list time.Time) (cb : CircuitBreaker)
    : list bool * CircuitBreaker :=
  match ts with
  | [] => ([], cb)
  | t :: ts' =>
      let (tripped, cb1) := RecordFailure t cb in
      let (flags, cb2) := record_failures ts' cb1 in
      (tripped :: flags, cb2)
  end.

(** A token whose one caveat allows two operations. *)
Definition operations_token : DCT :=
  MintDCT 0 "agent-orchestrator-01" "agent-coder-01" "analytics-db"
    (8 * time.Hour)
    [mkCaveat "operation" "ops" "read,write"].

(** ** Bid ranking, continued *)

(** The sum of the five weights. *)
Definition weights_sum (w : OptimizationWeights) : Q :=
  (Cost w + Speed w + Trust w + Confidence w + CapMatch w)%Q.

(** No weight is negative. *)
Definition weights_nonneg (w : OptimizationWeights) : Prop :=
  (0 <= Cost w /\ 0 <= Speed w /\ 0 <= Trust w /\ 0 <= Confidence w
   /\ 0 <= CapMatch w)%Q.

(** [x] stands somewhere before [y] in [l]. *)
Definition occurs_before {A} (x y : A) (l : list A) : Prop :=
  exists l1 l2 l3, l = l1 ++ x :: l2 ++ y :: l3.

(** A bid that differs from [bid_first] in identity, agent and cost. *)
Definition bid_cheap : types.Bid :=
  types.mkBid "bid-4" "task-data-pipeline" "agent-analyst-01"
    12 14400 0.85 0 [] 0.

(** ** The engine, continued *)

(** The answers of the server to registrations, posts and publications. *)
Definition oracles (w : World) :=
  (entity_register_ok w, relation_register_ok w, post_ok w,
   init_channel_ok w, publish_ok w).

(** A server that accepts every call. *)
Definition all_ok (w : World) : Prop :=
  (forall x, entity_register_ok w x = true) /\
  (forall x, relation_register_ok w x = true) /\
  (forall d e a, post_ok w d e a = true) /\
  (forall c, init_channel_ok w c = true) /\
  (forall c, publish_ok w c = true).

(** Where the store keeps the spec of a task. *)
Definition task_key (taskID : string) : string * string * string :=
  (DomainTasks, taskID, "spec").

(** A child as [DecomposeTask] hands it to the store at clock reading [now]. *)
Definition child_prepared (parentID : string) (parent : types.TaskSpec)
    (now : time.Time) (sub : types.TaskSpec) : types.TaskSpec :=
  types.set_Status types.TaskPending
    (types.set_CreatedAt now
       (types.set_DelegatorID (types.DelegatorID parent)
          (types.set_ParentTaskID parentID sub))).

(** The child passes the verifiability check of [DecomposeTask]. *)
Definition verifiable_or_leaf (sub : types.TaskSpec) : Prop :=
  (0.3 <= types.Verifiability sub)%Q \/ types.IsLeaf sub = true.



(** The triggers [evaluateAndRespond] answers by re-delegating. *)
Definition redelegates (task : types.TaskSpec)
    (trigger : types.AdaptiveTrigger) : Prop :=
  (types.Urgent trigger = true /\ types.Reversible task = true) \/
  (types.Urgent trigger = false /\
   (types.TrigType trigger = types.TriggerIntPerfDrop \/
    types.TrigType trigger = types.TriggerIntUnresponsive)).

(** The record [reDelegate] writes for the delegatee it takes the task
    from, stamped [now]. *)
Definition failure_record (e : Engine) (task : types.TaskSpec)
    (now : time.Time) : types.ReputationRecord :=
  types.mkReputationRecord (types.DelegateeID task) (types.TaskID task)
    "failure" 0 0 0 0 (SelfID e) now.

(** Where [RecordReputation] stores a stamped record. *)
Definition reputation_key (RFC3339Nano : time.Time -> string)
    (rec : types.ReputationRecord) : string * string * string :=
  (DomainReputation, types.RepAgentID rec,
   types.RepTaskID rec +:+ "_" +:+ RFC3339Nano (types.RecordedAt rec)).

(** The message [PublishTaskForBidding] sends for [task]. *)
Definition bid_message (task : types.TaskSpec) : string * Payload :=
  ("bid_" +:+ types.TaskID task,
   PTask (types.set_Status types.TaskBidding task)).

(** Where [RaiseTrigger] stores a trigger. *)
Definition trigger_key (trigger : types.AdaptiveTrigger)
    : string * string * string :=
  (DomainTriggers, types.TrigTaskID trigger, types.TriggerID trigger).

(** [storeData] succeeds for [entity] and [aspect] in [domain]. *)
Definition storable (w : World) (domain entity aspect : string) : Prop :=
  (entity ∈ relations w \/ relation_register_ok w entity = true) /\
  post_ok w domain entity aspect = true.

(** Where [SubmitForVerification] stores the result artifact. *)
Definition artifact_key (taskID : string) : string * string * string :=
  (DomainTasks, taskID, "result_artifact").

(** Several calls of [RecordReputation], one after the other. *)
Fixpoint record_all (RFC3339Nano : time.Time -> string)
    (recs : list types.ReputationRecord) (w : World) : World :=
  match recs with
  | [] => w
  | rec :: rest =>
      record_all RFC3339Nano rest (snd (RecordReputation RFC3339Nano rec w))
  end.

(** A reversible task in the hands of agent-coder-01. *)
Definition reversible_task : types.TaskSpec :=
  types.mkTaskSpec "task-report-export" "task-build-dashboard"
    "agent-orchestrator-01" "agent-coder-01" "in_progress" "high" 6 20
    true 0.8 [] true "atomic" 0.


(** A trigger of a type [evaluateAndRespond] has no case for, not urgent. *)
Definition priority_trigger : types.AdaptiveTrigger :=
  types.mkAdaptiveTrigger "trigger-priority" "task-report-export"
    "priority_change" "" "Dashboard moved up the roadmap" false 0.

End props.

(** * Properties of package security *)

Section SecurityProperties.

Import security props.

Lemma checkCaveats_operation_denied cs operation scope c :
  In c cs -> Type_ c = "operation" ->
  strings.Contains (Value c) operation = false ->
  checkCaveats cs operation scope <> None.
Proof.
  induction cs as [|c0 cs IH]; simpl; [tauto|].
  intros [-> | Hin] Hty Hno.
  - rewrite Hty. simpl. rewrite Hno. discriminate.
  - destruct (String.eqb (Type_ c0) "operation").
    + destruct (strings.Contains (Value c0) operation); simpl;
        [auto | discriminate].
    + destruct (String.eqb (Type_ c0) "scope"); [|auto].
      destruct (strings.HasPrefix scope (Value c0)); simpl;
        [auto | discriminate].
Qed.

(** When every "operation" caveat admits the operation, the outcome is
    decided by the "scope" caveats alone. *)
Lemma checkCaveats_operations_pass cs operation scope :
  (forall c, In c cs -> Type_ c = "operation" ->
             strings.Contains (Value c) operation = true) ->
  checkCaveats cs operation scope = None <-> scopes_hold scope cs.
Proof.
  unfold scopes_hold.
  induction cs as [|c0 cs IH]; simpl; intros Hop.
  - split; [intros _ c [] | reflexivity].
  - assert (Hop' : forall c, In c cs -> Type_ c = "operation" ->
                             strings.Contains (Value c) operation = true)
      by (intros; apply Hop; auto).
    specialize (IH Hop').
    destruct (String.eqb_spec (Type_ c0) "operation") as [Hty|Hty].
    + rewrite (Hop c0 (or_introl eq_refl) Hty). simpl.
      rewrite IH. split.
      * intros H c [<-|Hin] Hs; [congruence | auto].
      * intros H c Hin; apply H; auto.
    + destruct (String.eqb_spec (Type_ c0) "scope") as [Hs|Hs].
      * destruct (strings.HasPrefix scope (Value c0)) eqn:Hp; simpl.
        -- rewrite IH. split.
           ++ intros H c [<-|Hin] Hc; auto.
           ++ intros H c Hin; apply H; auto.
        -- split; [discriminate|].
           intros H. rewrite (H c0 (or_introl eq_refl) Hs) in Hp.
           discriminate.
      * rewrite IH. split.
        -- intros H c [<-|Hin] Hc; [congruence | auto].
        -- intros H c Hin; apply H; auto.
Qed.

Lemma checkCaveats_filter_checked cs operation scope :
  checkCaveats (List.filter is_checked cs) operation scope
  = checkCaveats cs operation scope.
Proof.
  induction cs as [|c0 cs IH]; [reflexivity|].
  cbn [List.filter].
  destruct (is_checked c0) eqn:Hc; cbn [checkCaveats]; rewrite IH;
    [reflexivity|].
  unfold is_checked, is_operation, is_scope in Hc.
  apply orb_false_elim in Hc as [-> ->]. reflexivity.
Qed.

Lemma ValidateAccess_live now d operation scope :
  live now d ->
  ValidateAccess now d operation scope
  = checkCaveats (Caveats d) operation scope.
Proof.
  intros [Hr He]. unfold ValidateAccess. rewrite Hr, He. reflexivity.
Qed.

(** C8.  For a live token all of whose "operation" caveats (at least one)
    have the value "read", [ValidateAccess] returns an error for the
    operation "write" and, for the operation "read", returns [nil] exactly
    when the "scope" caveats admit the requested scope; for a live token
    with no "operation" caveat the outcome is the same for every operation:
    [nil] exactly when the "scope" caveats admit the requested scope. *)
Theorem ValidateAccess_operation_caveats now d scope :
  live now d ->
  ((exists c, In c (Caveats d) /\ Type_ c = "operation") ->
   (forall c, In c (Caveats d) -> Type_ c = "operation" ->
              Value c = "read") ->
   ValidateAccess now d "write" scope <> None /\
   (ValidateAccess now d "read" scope = None
    <-> scopes_hold scope (Caveats d)))
  /\
  ((forall c, In c (Caveats d) -> Type_ c <> "operation") ->
   forall operation,
     ValidateAccess now d operation scope = None
     <-> scopes_hold scope (Caveats d)).
Proof.
  intros Hlive. split.
  - intros (c & Hin & Hty) Hread.
    rewrite !(ValidateAccess_live _ _ _ _ Hlive). split.
    + apply (checkCaveats_operation_denied _ _ _ c Hin Hty).
      rewrite (Hread c Hin Hty). reflexivity.
    + apply checkCaveats_operations_pass.
      intros c' Hin' Hty'. rewrite (Hread c' Hin' Hty'). reflexivity.
  - intros Hnone operation.
    rewrite (ValidateAccess_live _ _ _ _ Hlive).
    apply checkCaveats_operations_pass.
    intros c Hin Hty. destruct (Hnone c Hin Hty).
Qed.

Lemma ValidateAccess_operation_caveats_witness :
  (ValidateAccess 1 read_only_token "write" "raw_events/2026" <> None /\
   (ValidateAccess 1 read_only_token "read" "raw_events/2026" = None
    <-> scopes_hold "raw_events/2026" (Caveats read_only_token)))
  /\
  (forall operation,
     ValidateAccess 1 scope_only_token operation "raw_events/2026" = None
     <-> scopes_hold "raw_events/2026" (Caveats scope_only_token)).
Proof.
  split.
  - apply (proj1 (ValidateAccess_operation_caveats 1 read_only_token
                    "raw_events/2026" (conj eq_refl eq_refl))).
    + exists (mkCaveat "operation" "ops" "read"). simpl. auto.
    + simpl. intros c [<-|[<-|[]]]; simpl; [reflexivity | discriminate].
  - apply (proj2 (ValidateAccess_operation_caveats 1 scope_only_token
                    "raw_events/2026" (conj eq_refl eq_refl))).
    simpl. intros c [<-|[]]; simpl; discriminate.
Defined.

(** C8, counterexample.  [read_only_token] is live at the reading 1 and its
    one "operation" caveat has the value "read"; its "scope" caveat,
    raw_events, is no prefix of the scope "other", and for that scope
    [ValidateAccess] returns an error for the operation "read". *)
Lemma ValidateAccess_read_denied_outside_scope :
  live 1 read_only_token /\
  (exists c, In c (Caveats read_only_token) /\ Type_ c = "operation") /\
  (forall c, In c (Caveats read_only_token) -> Type_ c = "operation" ->
             Value c = "read") /\
  ValidateAccess 1 read_only_token "read" "other" <> None /\
  ~ scopes_hold "other" (Caveats read_only_token).
Proof.
  split; [split; reflexivity|].
  split; [exists (mkCaveat "operation" "ops" "read"); simpl; auto|].
  split; [simpl; intros c [<-|[<-|[]]]; simpl; [reflexivity | discriminate]|].
  split; [vm_compute; discriminate|].
  intros H.
  specialize (H (mkCaveat "scope" "tables" "raw_events")
                (or_intror (or_introl eq_refl)) eq_refl).
  vm_compute in H. discriminate H.
Qed.

(** C10.  For a live token [ValidateAccess] gives the result it gives on
    the token stripped of every caveat whose kind is neither "operation"
    nor "scope"; so a token all of whose caveats are of other kinds
    ("time", "budget", ...) permits every operation and scope. *)
Theorem ValidateAccess_ignores_other_kinds now d operation scope :
  live now d ->
  ValidateAccess now d operation scope
  = ValidateAccess now
      (with_Caveats (List.filter is_checked (Caveats d)) d) operation scope
  /\
  ((forall c, In c (Caveats d) ->
              Type_ c <> "operation" /\ Type_ c <> "scope") ->
   ValidateAccess now d operation scope = None).
Proof.
  intros Hlive. split.
  - unfold ValidateAccess. simpl.
    rewrite checkCaveats_filter_checked. reflexivity.
  - intros Hkinds. rewrite (ValidateAccess_live _ _ _ _ Hlive).
    apply checkCaveats_operations_pass.
    + intros c Hin Hty. destruct (proj1 (Hkinds c Hin) Hty).
    + intros c Hin Hty. destruct (proj2 (Hkinds c Hin) Hty).
Qed.

Lemma ValidateAccess_ignores_other_kinds_witness :
  ValidateAccess 1 time_budget_token "write" "anything"
  = ValidateAccess 1
      (with_Caveats (List.filter is_checked (Caveats time_budget_token))
         time_budget_token) "write" "anything"
  /\ ValidateAccess 1 time_budget_token "write" "anything" = None.
Proof.
  destruct (ValidateAccess_ignores_other_kinds 1 time_budget_token
              "write" "anything" (conj eq_refl eq_refl)) as [H1 H2].
  split; [exact H1|]. apply H2.
  simpl. intros c [<-|[<-|[]]]; simpl; split; discriminate.
Defined.

(** C9.  [Attenuate] on a token that is revoked, or whose expiry lies
    before the clock reading of the expiry test, returns the state error
    of the first test that fires and no child token, whatever the new
    bearer and the additional caveats. *)
Theorem Attenuate_revoked_or_expired_fails
    t_check t_until t_mint d newBearerID additionalCaveats :
  Revoked d = true \/ ExpiresAt d < t_check ->
  Attenuate t_check t_until t_mint d newBearerID additionalCaveats
  = Err (if Revoked d then ErrAttenuateRevoked (TokenID d)
         else ErrAttenuateExpired (TokenID d)).
Proof.
  intros H. unfold Attenuate, time.After.
  destruct (Revoked d); [reflexivity|].
  destruct H as [H|H]; [discriminate|].
  apply Z.ltb_lt in H. rewrite H. reflexivity.
Qed.

Lemma Attenuate_revoked_or_expired_fails_witness :
  Attenuate 5 6 7 revoked_token "c" [mkCaveat "operation" "ops" "read"]
  = Err (ErrAttenuateRevoked "dct_a_b_0")
  /\
  Attenuate (8 * time.Hour + 1) (8 * time.Hour + 2) (8 * time.Hour + 3)
    read_only_token "c" []
  = Err (ErrAttenuateExpired (TokenID read_only_token)).
Proof.
  split.
  - apply (Attenuate_revoked_or_expired_fails 5 6 7 revoked_token "c"
             [mkCaveat "operation" "ops" "read"]).
    left. reflexivity.
  - apply (Attenuate_revoked_or_expired_fails (8 * time.Hour + 1)
             (8 * time.Hour + 2) (8 * time.Hour + 3) read_only_token "c" []).
    right. vm_compute. reflexivity.
Defined.

(** What a successful attenuation returns. *)
Lemma Attenuate_live t_check t_until t_mint d newBearerID additionalCaveats :
  live t_check d ->
  Attenuate t_check t_until t_mint d newBearerID additionalCaveats
  = Ok (MintDCT t_mint (BearerID d) newBearerID (Resource d)
          (time.Until t_until (ExpiresAt d))
          (Caveats d ++ additionalCaveats)).
Proof.
  intros [Hr He]. unfold Attenuate. rewrite Hr, He. reflexivity.
Qed.

Lemma Attenuate_Ok_inv t_check t_until t_mint d newBearerID additionalCaveats
    child :
  Attenuate t_check t_until t_mint d newBearerID additionalCaveats = Ok child ->
  live t_check d /\
  Caveats child = Caveats d ++ additionalCaveats /\
  BearerID child = newBearerID /\
  GranterID child = BearerID d /\
  Resource child = Resource d /\
  Revoked child = false /\
  ExpiresAt child = t_mint + time.Sub (ExpiresAt d) t_until.
Proof.
  unfold Attenuate, live.
  destruct (Revoked d); [discriminate|].
  destruct (time.After t_check (ExpiresAt d)); [discriminate|].
  intros [= <-]. simpl. auto 10.
Qed.

(** Monotonic restriction along one attenuation and along chains. *)
Lemma attenuates_extends parent child :
  attenuates parent child -> extends (Caveats parent) (Caveats child).
Proof.
  intros (t0 & t1 & t2 & nb & add & H).
  apply Attenuate_Ok_inv in H as (_ & Hc & _).
  exists add. exact Hc.
Qed.

Lemma descends_extends ancestor d :
  descends ancestor d -> extends (Caveats ancestor) (Caveats d).
Proof.
  induction 1 as [d | a b c _ [added IH] Hstep].
  - exists []. symmetry. apply app_nil_r.
  - destruct (attenuates_extends _ _ Hstep) as [added' H'].
    exists (added ++ added'). rewrite H', IH, app_assoc. reflexivity.
Qed.

Lemma descends_caveats_superset ancestor d c :
  descends ancestor d -> In c (Caveats ancestor) -> In c (Caveats d).
Proof.
  intros Hd Hin. destruct (descends_extends _ _ Hd) as [added ->].
  apply in_or_app. auto.
Qed.

(** The expiry of the child: the parent's expiry moved by the time that
    passes between the reading of [time.Until] and the reading inside
    [MintDCT] (when the remaining lifetime fits a [Duration]). *)
Lemma Attenuate_child_expiry t_check t_until t_mint d newBearerID
    additionalCaveats child :
  Attenuate t_check t_until t_mint d newBearerID additionalCaveats = Ok child ->
  time.minDuration <= ExpiresAt d - t_until <= time.maxDuration ->
  ExpiresAt child = ExpiresAt d + (t_mint - t_until).
Proof.
  intros H Hrange.
  apply Attenuate_Ok_inv in H as (_ & _ & _ & _ & _ & _ & ->).
  unfold time.Sub.
  destruct (Z.ltb_spec (ExpiresAt d - t_until) time.minDuration); [lia|].
  destruct (Z.ltb_spec time.maxDuration (ExpiresAt d - t_until)); lia.
Qed.

(** C6.  [Attenuate] at a live token, with the clock one nanosecond
    further inside [MintDCT] than at the reading of [time.Until]: the
    child carries the parent's caveats followed by the additions, the new
    bearer and the old bearer as granter, and expires one nanosecond
    after its parent. *)
Theorem Attenuate_child_outlives_parent :
  exists child,
    Attenuate 1000 1000 1001 read_only_token "agent-sub-worker-01"
      [mkCaveat "scope" "tables" "raw_events/2026"] = Ok child /\
    Caveats child
    = Caveats read_only_token
      ++ [mkCaveat "scope" "tables" "raw_events/2026"] /\
    BearerID child = "agent-sub-worker-01" /\
    GranterID child = BearerID read_only_token /\
    ExpiresAt read_only_token = 8 * time.Hour /\
    ExpiresAt child = 8 * time.Hour + 1.
Proof.
  eexists. split; [reflexivity|]. vm_compute. auto 10.
Qed.

(** ** Circuit breaker *)

Lemma wrap_int_small z :
  - 2 ^ 63 <= z < 2 ^ 63 -> wrap_int z = z.
Proof.
  intros H. unfold wrap_int.
  rewrite Z.mod_small; lia.
Qed.

Lemma Since_elapsed now tripped cooldown :
  0 <= cooldown < time.maxDuration ->
  tripped + cooldown < now ->
  (cooldown <? time.Since now tripped) = true.
Proof.
  intros Hc He. apply Z.ltb_lt. unfold time.Since, time.Sub.
  unfold time.maxDuration, time.minDuration in *.
  destruct (Z.ltb_spec (now - tripped) (- 2 ^ 63)); [lia|].
  destruct (Z.ltb_spec (2 ^ 63 - 1) (now - tripped)); lia.
Qed.

Lemma Since_not_elapsed now tripped cooldown :
  0 <= cooldown < time.maxDuration ->
  now <= tripped + cooldown ->
  (cooldown <? time.Since now tripped) = false.
Proof.
  intros Hc He. apply Z.ltb_ge. unfold time.Since, time.Sub.
  unfold time.maxDuration, time.minDuration in *.
  destruct (Z.ltb_spec (now - tripped) (- 2 ^ 63)); [lia|].
  destruct (Z.ltb_spec (2 ^ 63 - 1) (now - tripped)); lia.
Qed.

(** No call other than [RecordSuccess] closes a breaker. *)
Lemma do_call_not_closed cb c :
  State cb <> CBClosed -> State (do_call cb c) <> CBClosed.
Proof.
  intros Hne. destruct c as [now | now trust | now]; simpl.
  - unfold RecordFailure.
    destruct (_ <=? _); simpl; [discriminate | exact Hne].
  - unfold CheckTrustDrop.
    destruct (float64.lt _ _); simpl; [discriminate | exact Hne].
  - unfold IsAllowed.
    destruct (String.eqb (State cb) CBClosed); [exact Hne|].
    destruct (String.eqb (State cb) CBOpen).
    + destruct (_ <? _); simpl; [discriminate | exact Hne].
    + destruct (String.eqb (State cb) CBHalfOpen); exact Hne.
Qed.

Lemma do_calls_not_closed calls : forall cb,
  State cb <> CBClosed -> State (do_calls cb calls) <> CBClosed.
Proof.
  induction calls as [|c calls IH]; intros cb Hne; simpl; [exact Hne|].
  apply IH, do_call_not_closed, Hne.
Qed.

(** C4, as the code has it.  A closed breaker with threshold 3 and no
    failure counted stays closed through two failures and trips on the
    third; until the cooldown has elapsed since the trip [IsAllowed]
    returns false and changes nothing; the first call after it returns
    true and moves the breaker to half-open; in half-open every call of
    [IsAllowed] returns true and leaves the breaker half-open; and no
    sequence of calls other than [RecordSuccess] brings a tripped breaker
    back to closed, while [RecordSuccess] does. *)
Theorem circuit_breaker_threshold_three cb t1 t2 t3 :
  FailureThreshold cb = 3 -> FailureCount cb = 0 -> State cb = CBClosed ->
  0 <= CooldownPeriod cb < time.maxDuration ->
  let after2 := snd (RecordFailure t2 (snd (RecordFailure t1 cb))) in
  let tripped := three_failures t1 t2 t3 cb in
  let probing := set_State CBHalfOpen tripped in
  fst (RecordFailure t1 cb) = false /\
  fst (RecordFailure t2 (snd (RecordFailure t1 cb))) = false /\
  State after2 = CBClosed /\
  fst (RecordFailure t3 after2) = true /\
  State tripped = CBOpen /\
  LastTripped tripped = t3 /\
  (forall now, now <= t3 + CooldownPeriod cb ->
               IsAllowed now tripped = (false, tripped)) /\
  (forall now, t3 + CooldownPeriod cb < now ->
               IsAllowed now tripped = (true, probing)) /\
  (forall now, IsAllowed now probing = (true, probing)) /\
  (forall calls, State (do_calls tripped calls) <> CBClosed) /\
  (forall calls, State (RecordSuccess (do_calls tripped calls)) = CBClosed).
Proof.
  intros Hth Hcnt Hst Hcd.
  destruct cb as [agent cnt th floor cd st lt]. simpl in *. subst.
  unfold three_failures, RecordFailure. simpl.
  repeat split; try reflexivity.
  - intros now Hnow. unfold IsAllowed. simpl.
    rewrite Since_not_elapsed by assumption. reflexivity.
  - intros now Hnow. unfold IsAllowed. simpl.
    rewrite Since_elapsed by assumption. reflexivity.
  - intros calls. apply do_calls_not_closed. simpl. discriminate.
Qed.

Lemma circuit_breaker_threshold_three_witness :
  let cb := NewCircuitBreaker "agent-coder-01" 3 0.4 in
  let tripped := three_failures 10 20 30 cb in
  let probing := set_State CBHalfOpen tripped in
  fst (RecordFailure 30 (snd (RecordFailure 20 (snd (RecordFailure 10 cb)))))
  = true /\
  IsAllowed 31 tripped = (false, tripped) /\
  IsAllowed (31 + 30 * time.Minute) tripped = (true, probing) /\
  IsAllowed (32 + 30 * time.Minute) probing = (true, probing).
Proof.
  intros cb tripped probing.
  destruct (circuit_breaker_threshold_three cb 10 20 30)
    as (_ & _ & _ & H3 & _ & _ & Hblocked & Hprobe & Hhalf & _);
    [reflexivity | reflexivity | reflexivity
     | vm_compute; split; [discriminate | reflexivity] |].
  split; [exact H3|].
  split; [apply Hblocked; vm_compute; discriminate|].
  split; [apply Hprobe; vm_compute; reflexivity|].
  apply Hhalf.
Defined.

(** C4, counterexample.  With threshold 3 and the default cooldown of 30
    minutes, after the third failure [IsAllowed] returns false; once the
    cooldown has elapsed it returns true, and the next call returns true
    again: more than one call is allowed while the breaker is half-open. *)
Lemma IsAllowed_allows_a_second_probe :
  let tripped :=
    three_failures 0 0 0 (NewCircuitBreaker "agent-coder-01" 3 0.4) in
  let now := 31 * time.Minute in
  fst (IsAllowed 1 tripped) = false /\
  fst (IsAllowed now tripped) = true /\
  State (snd (IsAllowed now tripped)) = CBHalfOpen /\
  fst (IsAllowed (now + 1) (snd (IsAllowed now tripped))) = true.
Proof. vm_compute. auto. Qed.

End SecurityProperties.

(** * Properties of package market *)

Section MarketProperties.

Import market props.

Lemma less_true_iff x y : less x y = true <-> (Score y < Score x)%Q.
Proof.
  unfold less, float64.gt, float64.lt. rewrite negb_true_iff.
  split.
  - intros H. apply Qnot_le_lt. intros Hle.
    apply Qle_bool_iff in Hle. congruence.
  - intros H. destruct (Qle_bool (Score x) (Score y)) eqn:E; [|reflexivity].
    apply Qle_bool_iff in E. exfalso. apply (Qlt_not_le _ _ H E).
Qed.

Lemma less_false_iff x y : less x y = false <-> (Score x <= Score y)%Q.
Proof.
  unfold less, float64.gt, float64.lt. rewrite negb_false_iff. apply Qle_bool_iff.
Qed.

Lemma insert_behind_Permutation x l :
  Permutation (insert_behind less x l) (x :: l).
Proof.
  induction l as [|y l IH]; simpl; [reflexivity|].
  destruct (less x y); [reflexivity|].
  rewrite IH. apply perm_swap.
Qed.

Lemma insert_behind_sorted x l :
  StronglySorted (fun a b => less b a = false) l ->
  StronglySorted (fun a b => less b a = false) (insert_behind less x l).
Proof.
  induction 1 as [|y l Hs IH Hall]; simpl.
  - constructor; constructor.
  - destruct (less x y) eqn:Hxy.
    + constructor; [constructor; assumption|].
      apply less_true_iff in Hxy.
      constructor.
      * apply less_false_iff. apply Qlt_le_weak, Hxy.
      * rewrite List.Forall_forall in Hall |- *.
        intros z Hz. specialize (Hall z Hz).
        apply less_false_iff in Hall. apply less_false_iff.
        apply Qlt_le_weak. eapply Qle_lt_trans; eassumption.
    + constructor; [exact IH|].
      rewrite List.Forall_forall in Hall |- *.
      intros z Hz.
      apply (Permutation_in _ (insert_behind_Permutation x l)) in Hz.
      destruct Hz as [<-|Hz]; [exact Hxy | apply Hall, Hz].
Qed.

(** [back_insertion_sort] meets the contract of [sort.Slice]. *)
Lemma back_insertion_sort_contract :
  sort_Slice_contract back_insertion_sort.
Proof.
  intros l. unfold back_insertion_sort.
  induction l as [|x l [IHp IHs]]; simpl.
  - split; [reflexivity | constructor].
  - split.
    + rewrite insert_behind_Permutation. constructor. exact IHp.
    + apply insert_behind_sorted, IHs.
Qed.

Lemma score_bids_Bid bids weights agentTrust requiredCaps agentCaps :
  List.map Bid (score_bids bids weights agentTrust requiredCaps agentCaps)
  = bids.
Proof.
  unfold score_bids. rewrite List.map_map. simpl. apply List.map_id.
Qed.

Lemma RankBids_Permutation sort_Slice bids weights agentTrust requiredCaps
    agentCaps :
  sort_Slice_contract sort_Slice ->
  Permutation
    (RankBids sort_Slice bids weights agentTrust requiredCaps agentCaps)
    (score_bids bids weights agentTrust requiredCaps agentCaps).
Proof.
  intros Hc. unfold RankBids.
  destruct bids as [|b bids]; [reflexivity|].
  change (Z.of_nat (List.length (b :: bids)) =? 0) with false.
  apply Hc.
Qed.

(** C2, as the code has it.  With any sorting function that meets the
    contract of [sort.Slice], [RankBids] returns the scored bids, each
    input bid once, in descending order of total score.  (The order among
    bids of equal total is whatever [sort.Slice] leaves.) *)
Theorem RankBids_sorted_descending sort_Slice bids weights agentTrust
    requiredCaps agentCaps :
  sort_Slice_contract sort_Slice ->
  let ranked :=
    RankBids sort_Slice bids weights agentTrust requiredCaps agentCaps in
  Permutation ranked
    (score_bids bids weights agentTrust requiredCaps agentCaps) /\
  Permutation (List.map Bid ranked) bids /\
  descending ranked.
Proof.
  intros Hc ranked.
  assert (Hp := RankBids_Permutation sort_Slice bids weights agentTrust
                  requiredCaps agentCaps Hc).
  split; [exact Hp|]. split.
  - apply (Permutation_map Bid) in Hp.
    rewrite score_bids_Bid in Hp. exact Hp.
  - unfold descending, ranked, RankBids.
    destruct bids as [|b bids]; [constructor|].
    change (Z.of_nat (List.length (b :: bids)) =? 0) with false.
    cbv iota.
    destruct (Hc (score_bids (b :: bids) weights agentTrust requiredCaps
                    agentCaps)) as [_ Hs].
    induction Hs as [|x l Hs IH Hall]; constructor; [exact IH|].
    rewrite List.Forall_forall in Hall |- *.
    intros y Hy. apply less_false_iff, Hall, Hy.
Qed.

Lemma RankBids_sorted_descending_witness :
  let ranked :=
    RankBids back_insertion_sort [bid_first; bid_unknown] DefaultWeights
      equal_trust [] ∅ in
  Permutation ranked
    (score_bids [bid_first; bid_unknown] DefaultWeights equal_trust [] ∅) /\
  Permutation (List.map Bid ranked) [bid_first; bid_unknown] /\
  descending ranked.
Proof.
  apply (RankBids_sorted_descending back_insertion_sort
           [bid_first; bid_unknown] DefaultWeights equal_trust [] ∅).
  apply back_insertion_sort_contract.
Defined.

(** C2, counterexample.  [back_insertion_sort] meets the contract of
    [sort.Slice]; with it, two bids of equal total score submitted as
    bid-1, bid-2 are returned as bid-2, bid-1.  With [sort.Slice] as Go
    implements it, thirteen bids of which the first twelve have equal
    totals and the last a higher one are returned in descending order of
    total, the twelve tied bids not in the order of their submission
    (bid-07 first, bid-01 after bid-06, bid-02 last). *)
Lemma RankBids_ties_not_kept :
  (sort_Slice_contract back_insertion_sort /\
   let scored :=
     score_bids [bid_first; bid_second] DefaultWeights equal_trust [] ∅ in
   let ranked :=
     RankBids back_insertion_sort [bid_first; bid_second] DefaultWeights
       equal_trust [] ∅ in
   List.Forall (fun sb => (Score sb == 0.9175)%Q) scored /\
   List.map (fun sb => types.BidID (Bid sb)) ranked = ["bid-2"; "bid-1"] /\
   ~ ties_keep_order scored ranked)
  /\
  (let scored := score_bids thirteen_bids DefaultWeights ∅ [] ∅ in
   let ranked := RankBids pdq_sort_Slice thirteen_bids DefaultWeights ∅ [] ∅ in
   sort.Slice_fuel less 14 scored = Some ranked /\
   List.map (fun sb => types.BidID (Bid sb)) ranked
   = ["bid-13"; "bid-07"; "bid-03"; "bid-04"; "bid-05"; "bid-06"; "bid-01";
      "bid-08"; "bid-09"; "bid-10"; "bid-11"; "bid-12"; "bid-02"] /\
   List.Forall (fun sb => (Score sb == 0.6775)%Q) (List.tl ranked) /\
   ~ ties_keep_order scored ranked).
Proof.
  split.
  - split; [apply back_insertion_sort_contract|].
    split; [repeat constructor; vm_compute; reflexivity|].
    split; [vm_compute; reflexivity|].
    intros H. specialize (H 0.9175%Q). vm_compute in H. discriminate H.
  - split; [vm_compute; reflexivity|].
    split; [vm_compute; reflexivity|].
    split; [vm_compute; repeat constructor|].
    intros H. specialize (H 0.6775%Q). vm_compute in H. discriminate H.
Qed.

Lemma score_bids_In sb bids weights agentTrust requiredCaps agentCaps :
  In sb (score_bids bids weights agentTrust requiredCaps agentCaps) ->
  exists bid,
    In bid bids /\
    sb = score_bid (find_bounds bids) weights agentTrust requiredCaps
           agentCaps bid.
Proof.
  unfold score_bids. rewrite List.in_map_iff.
  intros (bid & <- & Hin). exists bid. auto.
Qed.

(** The trust [RankBids] uses, for every call: a bid whose agent has no
    entry in the trust map has trust score 0, and 0 is the trust that
    enters its weighted total; a bid whose agent has an entry has that
    entry as its trust score. *)
Theorem RankBids_trust_of_unknown_agent_is_zero sort_Slice bids weights
    agentTrust requiredCaps agentCaps sb :
  sort_Slice_contract sort_Slice ->
  In sb (RankBids sort_Slice bids weights agentTrust requiredCaps agentCaps) ->
  (agentTrust !! types.AgentID (Bid sb) = None ->
   TrustScore sb = 0%Q /\
   Score sb
   = (Cost weights * CostScore sb + Speed weights * SpeedScore sb
      + Trust weights * 0 + Confidence weights * ConfidenceScore sb
      + CapMatch weights * CapMatchScore sb)%Q)
  /\
  (forall v, agentTrust !! types.AgentID (Bid sb) = Some v ->
             TrustScore sb = v).
Proof.
  intros Hc Hin.
  apply (Permutation_in _ (RankBids_Permutation sort_Slice bids weights
           agentTrust requiredCaps agentCaps Hc)) in Hin.
  apply score_bids_In in Hin as (bid & _ & ->). simpl.
  split.
  - intros ->. simpl. split; reflexivity.
  - intros v ->. reflexivity.
Qed.

Lemma RankBids_trust_of_unknown_agent_is_zero_witness :
  let sb :=
    score_bid (find_bounds [bid_first; bid_unknown]) DefaultWeights
      equal_trust [] ∅ bid_unknown in
  TrustScore sb = 0%Q /\
  Score sb
  = (Cost DefaultWeights * CostScore sb + Speed DefaultWeights * SpeedScore sb
     + Trust DefaultWeights * 0
     + Confidence DefaultWeights * ConfidenceScore sb
     + CapMatch DefaultWeights * CapMatchScore sb)%Q.
Proof.
  intros sb.
  apply (proj1 (RankBids_trust_of_unknown_agent_is_zero back_insertion_sort
                  [bid_first; bid_unknown] DefaultWeights equal_trust [] ∅
                  sb back_insertion_sort_contract
                  ltac:(vm_compute; auto))).
  vm_compute. reflexivity.
Defined.

(** C3, the code against the claim.  One bid, from an agent the trust map
    does not hold: the trust score [RankBids] gives it is 0, not the 0.5 of
    the claim, and its total under the default weights is 0.685, where a
    trust of 0.5 would have made it 0.835. *)
Lemma RankBids_unknown_agent_not_neutral :
  equal_trust !! types.AgentID bid_unknown = None /\
  List.map TrustScore
    (RankBids back_insertion_sort [bid_unknown] DefaultWeights equal_trust
       [] ∅) = [0%Q] /\
  ~ (0 == 0.5)%Q /\
  List.Forall (fun sb => (Score sb == 0.685)%Q)
    (RankBids back_insertion_sort [bid_unknown] DefaultWeights equal_trust
       [] ∅) /\
  List.Forall (fun sb => (Score sb + Trust DefaultWeights * 0.5 == 0.835)%Q)
    (RankBids back_insertion_sort [bid_unknown] DefaultWeights equal_trust
       [] ∅).
Proof.
  split; [vm_compute; reflexivity|].
  split; [vm_compute; reflexivity|].
  split; [intros H; vm_compute in H; discriminate H|].
  split; vm_compute; repeat constructor.
Qed.

End MarketProperties.

(** * Properties of package delegation *)

Section DelegationProperties.

Import delegation props.

(** ** Decomposition *)

(** C1.  [DecomposeTask] on a stored parent and two children, the first
    verifiable and the second with verifiability 0.1 and not a leaf: the
    call fails on the second child, the parent record is as it was, and
    the first child, which the store did not hold before, has been
    persisted. *)
Theorem DecomposeTask_persists_children_before_failure :
  let r :=
    DecomposeTask "task-build-dashboard"
      [child_verifiable; child_unverifiable] world_with_parent in
  fst r = Err (ErrLowVerifiability "task-visualization" 0.1%Q) /\
  records world_with_parent !! (DomainTasks, "task-data-pipeline", "spec")
  = None /\
  records (snd r) !! (DomainTasks, "task-data-pipeline", "spec")
  = Some (PTask
            (types.mkTaskSpec "task-data-pipeline" "task-build-dashboard"
               "agent-orchestrator-01" "" "pending" "high" 6 20 true 0.8
               [] true "atomic" 1)) /\
  records (snd r) !! (DomainTasks, "task-build-dashboard", "spec")
  = records world_with_parent
      !! (DomainTasks, "task-build-dashboard", "spec").
Proof. vm_compute. auto. Qed.

(** ** Adaptive response *)

Lemma storeData_effect domain entity aspect data w :
  let r := storeData domain entity aspect data w in
  published (snd r) = published w /\
  reads (snd r) = reads w /\
  (forall k, k <> (domain, entity, aspect) ->
             records (snd r) !! k = records w !! k) /\
  (fst r = None ->
   records (snd r) !! (domain, entity, aspect) = Some data) /\
  (fst r <> None -> records (snd r) = records w).
Proof.
  unfold storeData, bind, ret, nc_RelationRetrieve, nc_RelationRegister,
    nc_Post.
  destruct (bool_decide (entity ∈ relations w)); simpl.
  - destruct (post_ok w domain entity aspect); simpl.
    + repeat split; try congruence.
      * intros k Hk. apply lookup_insert_ne. congruence.
      * intros _. apply lookup_insert_eq.
    + repeat split; congruence.
  - destruct (relation_register_ok w entity); simpl.
    + destruct (post_ok w domain entity aspect); simpl.
      * repeat split; try congruence.
        -- intros k Hk. apply lookup_insert_ne. congruence.
        -- intros _. apply lookup_insert_eq.
      * repeat split; congruence.
    + repeat split; congruence.
Qed.

(** C5.  For a task with [Reversible = false] and a trigger with
    [Urgent = true], whatever the trigger type, [evaluateAndRespond] is one
    [UpdateTask] of the task with status Cancelled and nothing else: the
    task keeps its delegatee, nothing is published, the clock is not read
    (recording a reputation outcome would read it), no record of the
    Reputation domain (or any record other than the task's own) changes,
    and the stored task is the cancelled one when the store accepts it. *)
Theorem evaluateAndRespond_irreversible_urgent_cancels
      e RFC3339Nano task trigger w :
    types.Reversible task = false -> types.Urgent trigger = true ->
    let cancelled := types.set_Status types.TaskCancelled task in
    let r := evaluateAndRespond e RFC3339Nano task trigger w in
    r = (cancelled, fst (UpdateTask cancelled w), snd (UpdateTask cancelled w)) /\
    types.Status (fst (fst r)) = types.TaskCancelled /\
    types.DelegateeID (fst (fst r)) = types.DelegateeID task /\
    published (snd r) = published w /\
    reads (snd r) = reads w /\
    (forall agent key,
       records (snd r) !! (DomainReputation, agent, key)
       = records w !! (DomainReputation, agent, key)) /\
    (forall k, k <> (DomainTasks, types.TaskID task, "spec") ->
               records (snd r) !! k = records w !! k) /\
    (snd (fst r) = None ->
     records (snd r) !! (DomainTasks, types.TaskID task, "spec")
     = Some (PTask cancelled)) /\
    (snd (fst r) <> None -> records (snd r) = records w).
Proof.
  intros Hrev Hurg cancelled r.
  assert (Hr : r = (cancelled, fst (UpdateTask cancelled w),
                    snd (UpdateTask cancelled w))).
  { unfold r, evaluateAndRespond. rewrite Hrev, Hurg. simpl.
    unfold bind, ret. fold cancelled.
    destruct (UpdateTask cancelled w). reflexivity. }
  split; [exact Hr|]. rewrite Hr. simpl.
  destruct (storeData_effect DomainTasks (types.TaskID cancelled) "spec"
              (PTask cancelled) w) as (Hpub & Hreads & Hother & Hok & Herr).
  fold (UpdateTask cancelled) in *.
  change (types.TaskID cancelled) with (types.TaskID task) in *.
  repeat split; auto.
Qed.

Lemma evaluateAndRespond_irreversible_urgent_cancels_witness :
  let cancelled := types.set_Status types.TaskCancelled irreversible_task in
  let r :=
    evaluateAndRespond engine time.UnixNano_string irreversible_task
      urgent_trigger world_with_parent in
  types.Status (fst (fst r)) = types.TaskCancelled /\
  types.DelegateeID (fst (fst r)) = "agent-coder-01" /\
  snd (fst r) = None /\
  published (snd r) = [] /\
  records (snd r) !! (DomainTasks, "task-api-backend", "spec")
  = Some (PTask cancelled).
Proof.
  intros cancelled r.
  destruct (evaluateAndRespond_irreversible_urgent_cancels engine
              time.UnixNano_string irreversible_task urgent_trigger
              world_with_parent eq_refl eq_refl)
    as (Hr & Hst & Hdel & Hpub & _ & _ & _ & Hok & _).
  fold cancelled in Hr, Hok. fold r in Hr, Hst, Hdel, Hpub, Hok.
  assert (Herr : snd (fst r) = None) by (rewrite Hr; vm_compute; reflexivity).
  split; [exact Hst|]. split; [exact Hdel|]. split; [exact Herr|].
  split; [exact Hpub|]. exact (Hok Herr).
Defined.

(** ** Trust score *)

Lemma Sub_lower t u b :
  time.minDuration <= b <= 0 -> b < t - u -> b < time.Sub t u.
Proof.
  intros Hb H. unfold time.Sub, time.maxDuration, time.minDuration in *.
  destruct (Z.ltb_spec (t - u) (- 2 ^ 63)); [lia|].
  destruct (Z.ltb_spec (2 ^ 63 - 1) (t - u)); lia.
Qed.

Lemma weight_denominator now rec :
  (1 + ageDays now rec / 30
   == (inject_Z (days 30) + inject_Z (time.Sub now (types.RecordedAt rec)))
      / inject_Z (days 30))%Q.
Proof.
  unfold ageDays, time.Hours.
  change (inject_Z (days 30)) with (2592000000000000 # 1)%Q.
  change (inject_Z time.Hour) with (3600000000000 # 1)%Q.
  field.
Qed.

Lemma weight_positive now rec :
  not_far_future now rec -> (0 < weight now rec)%Q.
Proof.
  unfold not_far_future. intros H.
  assert (Hd : - days 30 < time.Sub now (types.RecordedAt rec)).
  { apply Sub_lower; [vm_compute; split; discriminate | lia]. }
  unfold weight. 
  setoid_rewrite weight_denominator.
  unfold Qdiv at 1. rewrite Qmult_1_l.
  apply Qinv_lt_0_compat.
  apply Qlt_shift_div_l; [reflexivity|].
  rewrite Qmult_0_l. rewrite <- inject_Z_plus.
  change 0%Q with (inject_Z 0). rewrite <- Zlt_Qlt. lia.
Qed.

Lemma score_in_unit rec : scores_in_unit rec -> in_unit (score rec).
Proof.
  unfold scores_in_unit, in_unit, score.
  intros (Hq & Ht & Hc & Hs).
  split.
  - apply Qle_shift_div_l; [reflexivity|]. lra.
  - apply Qle_shift_div_r; [reflexivity|]. lra.
Qed.

Lemma trust_sums_bounds now records : forall acc,
  List.Forall scores_in_unit records ->
  List.Forall (fun rec => 0 <= weight now rec)%Q records ->
  (0 <= fst acc <= snd acc)%Q ->
  (0 <= fst (fold_left
               (fun acc rec =>
                  (fst acc + score rec * weight now rec,
                   snd acc + weight now rec)%Q) records acc)
   <= snd (fold_left
               (fun acc rec =>
                  (fst acc + score rec * weight now rec,
                   snd acc + weight now rec)%Q) records acc))%Q.
Proof.
  induction records as [|rec records IH]; intros acc Hs Hw Hacc; simpl.
  - exact Hacc.
  - inversion_clear Hs as [|? ? Hs1 Hs2]. inversion_clear Hw as [|? ? Hw1 Hw2].
    apply IH; [assumption | assumption |]. simpl.
    destruct (score_in_unit rec Hs1) as [H0 H1].
    assert (0 <= score rec * weight now rec)%Q by (apply Qmult_le_0_compat; assumption).
    assert (score rec * weight now rec <= weight now rec)%Q.
    { rewrite <- (Qmult_1_l (weight now rec)) at 2.
      apply Qmult_le_compat_r; assumption. }
    lra.
Qed.

Lemma trust_of_history_in_unit now records :
  List.Forall scores_in_unit records ->
  List.Forall (not_far_future now) records ->
  in_unit (trust_of_history now records).
Proof.
  intros Hs Hf.
  assert (Hw : List.Forall (fun rec => 0 <= weight now rec)%Q records).
  { eapply List.Forall_impl; [|exact Hf].
    intros rec H. apply Qlt_le_weak, weight_positive, H. }
  assert (Hb := trust_sums_bounds now records (0%Q, 0%Q) Hs Hw
                  (conj (Qle_refl 0) (Qle_refl 0))).
  unfold trust_of_history, trust_sums.
  destruct (fold_left _ records (0%Q, 0%Q)) as [ws tw]. simpl in Hb.
  unfold float64.eq. destruct (Qeq_bool tw 0) eqn:E.
  - unfold in_unit. split; [discriminate|]. intros H; discriminate H.
  - apply Qeq_bool_neq in E.
    assert (0 < tw)%Q.
    { destruct Hb as [H1 H2]. apply Qle_lt_or_eq in H1 as [H1|H1].
      - eapply Qlt_le_trans; eassumption.
      - assert (0 <= tw)%Q by lra. apply Qle_lt_or_eq in H as [H|H]; [exact H|].
        exfalso. apply E. symmetry. exact H. }
    split.
    + apply Qle_shift_div_l; [assumption|]. lra.
    + apply Qle_shift_div_r; [assumption|]. lra.
Qed.

Lemma GetReputationHistory_world agentID w :
  snd (GetReputationHistory agentID w) = w.
Proof.
  unfold GetReputationHistory, retrieveData, bind, nc_RelationRetrieve, nc_Get, ret.
  destruct (bool_decide _); simpl; [|reflexivity].
  destruct (records w !! _) as [[]|]; reflexivity.
Qed.

Lemma ComputeTrustScore_unfold agentID w :
  fst (ComputeTrustScore agentID w)
  = match fst (GetReputationHistory agentID w) with
    | Err err => (0.5%Q, Some err)
    | Ok records =>
        if (Z.of_nat (List.length records) =? 0)%Z then (0.5%Q, None)
        else (trust_of_history (clock w (reads w)) records, None)
    end.
Proof.
  unfold ComputeTrustScore, bind.
  pose proof (GetReputationHistory_world agentID w) as Hw.
  destruct (GetReputationHistory agentID w) as [[records|err] w1];
    simpl in *; subst w1; [|reflexivity].
  destruct (Z.of_nat (List.length records) =? 0); reflexivity.
Qed.

Lemma weight_older_is_smaller now r1 r2 :
  types.RecordedAt r2 < types.RecordedAt r1 <= now ->
  now - types.RecordedAt r2 <= time.maxDuration ->
  (weight now r2 < weight now r1)%Q.
Proof.
  intros [H21 H1] Hmax.
  assert (E1 : time.Sub now (types.RecordedAt r1) = now - types.RecordedAt r1).
  { unfold time.Sub, time.maxDuration, time.minDuration in *.
    destruct (Z.ltb_spec (now - types.RecordedAt r1) (- 2 ^ 63)); [lia|].
    destruct (Z.ltb_spec (2 ^ 63 - 1) (now - types.RecordedAt r1)); lia. }
  assert (E2 : time.Sub now (types.RecordedAt r2) = now - types.RecordedAt r2).
  { unfold time.Sub, time.maxDuration, time.minDuration in *.
    destruct (Z.ltb_spec (now - types.RecordedAt r2) (- 2 ^ 63)); [lia|].
    destruct (Z.ltb_spec (2 ^ 63 - 1) (now - types.RecordedAt r2)); lia. }
  unfold weight. setoid_rewrite weight_denominator.
  rewrite E1, E2. unfold Qdiv at 1 3. rewrite !Qmult_1_l.
  apply -> Qinv_lt_contravar.
  - apply Qmult_lt_compat_r; [reflexivity|].
    rewrite <- !inject_Z_plus, <- Zlt_Qlt. lia.
  - apply Qlt_shift_div_l; [reflexivity|]. rewrite Qmult_0_l.
    rewrite <- inject_Z_plus. change 0%Q with (inject_Z 0).
    rewrite <- Zlt_Qlt. unfold days, time.Hour, time.Minute, time.Second. lia.
  - apply Qlt_shift_div_l; [reflexivity|]. rewrite Qmult_0_l.
    rewrite <- inject_Z_plus. change 0%Q with (inject_Z 0).
    rewrite <- Zlt_Qlt. unfold days, time.Hour, time.Minute, time.Second. lia.
Qed.

Lemma weight_fresh_and_thirty_days now r0 r30 :
  types.RecordedAt r0 = now -> types.RecordedAt r30 = now - days 30 ->
  (ageDays now r0 == 0 /\ ageDays now r30 == 30 /\
   weight now r0 == 1 /\ weight now r30 == 1 / 2)%Q.
Proof.
  intros H0 H30. unfold weight, ageDays. rewrite H0, H30.
  replace (time.Sub now now) with 0
    by (unfold time.Sub; rewrite Z.sub_diag; reflexivity).
  replace (time.Sub now (now - days 30)) with (days 30)
    by (unfold time.Sub; replace (now - (now - days 30)) with (days 30) by lia;
        reflexivity).
  repeat split; vm_compute; reflexivity.
Qed.


(** C7, as the code has it.  When the history is read and every record has
    its component scores in [0,1] and is stamped less than 30 days after the
    clock reading, the trust score is in [0,1]; with zero records, or when
    the history cannot be read, it is exactly 0.5; the weight of a record is
    [1/(1+ageDays/30)], it is 1 at age 0 and 1/2 at age 30 days, and of two
    records stamped at or before the clock reading the older has the
    strictly smaller weight. *)
Theorem ComputeTrustScore_in_unit_interval agentID w :
  let trust := fst (fst (ComputeTrustScore agentID w)) in
  let now := clock w (reads w) in
  (forall records,
     fst (GetReputationHistory agentID w) = Ok records ->
     (records = [] -> trust = 0.5%Q) /\
     (List.Forall scores_in_unit records ->
      List.Forall (not_far_future now) records ->
      in_unit trust)) /\
  (forall err,
     fst (GetReputationHistory agentID w) = Err err -> trust = 0.5%Q) /\
  (forall t rec, weight t rec = (1 / (1 + ageDays t rec / 30))%Q) /\
  (forall t r0 r30,
     types.RecordedAt r0 = t -> types.RecordedAt r30 = t - days 30 ->
     (ageDays t r0 == 0 /\ ageDays t r30 == 30 /\
      weight t r0 == 1 /\ weight t r30 == 1 / 2 /\
      weight t r30 < weight t r0)%Q) /\
  (forall t r1 r2,
     types.RecordedAt r2 < types.RecordedAt r1 <= t ->
     t - types.RecordedAt r2 <= time.maxDuration ->
     (weight t r2 < weight t r1)%Q).
Proof.
  intros trust now. unfold trust. rewrite ComputeTrustScore_unfold.
  split; [|split; [|split; [|split]]].
  - intros records ->. split.
    + intros ->. reflexivity.
    + intros Hs Hf. destruct records as [|rec records].
      * simpl. split; discriminate.
      * change (Z.of_nat (List.length (rec :: records)) =? 0) with false.
        simpl. apply trust_of_history_in_unit; assumption.
  - intros err ->. reflexivity.
  - reflexivity.
  - intros t r0 r30 H0 H30.
    destruct (weight_fresh_and_thirty_days t r0 r30 H0 H30)
      as (Ha0 & Ha30 & Hw0 & Hw30).
    repeat split; try assumption.
    rewrite Hw0, Hw30. reflexivity.
  - intros t r1 r2. apply weight_older_is_smaller.
Qed.

Lemma ComputeTrustScore_in_unit_interval_witness :
  let history := [record_at 0 1; record_at (- days 30) 0.5] in
  let w := world_with_history 0 history in
  in_unit (fst (fst (ComputeTrustScore "agent-coder-01" w))) /\
  Qlt (weight 0 (record_at (- days 30) 0.5)) (weight 0 (record_at 0 1)).
Proof.
  intros history w.
  destruct (ComputeTrustScore_in_unit_interval "agent-coder-01" w)
    as (Hread & _ & _ & _ & Holder).
  split.
  - apply (Hread history); [vm_compute; reflexivity | |].
    + repeat constructor; vm_compute; discriminate.
    + repeat constructor; vm_compute; reflexivity.
  - apply Holder; [vm_compute; split; [reflexivity | discriminate]
                  | vm_compute; discriminate].
Defined.

(** C7, counterexample.  A history of two records with component scores in
    [0,1]: one stamped at the clock reading with all scores 1, one stamped
    45 days later with all scores 0.  The later record has weight -2, and
    the trust score is -1. *)
Lemma ComputeTrustScore_below_zero :
  let history := [record_at 0 1; record_at (days 45) 0] in
  let w := world_with_history 0 history in
  fst (GetReputationHistory "agent-coder-01" w) = Ok history /\
  List.Forall scores_in_unit history /\
  Qeq (weight 0 (record_at (days 45) 0)) (- (2))%Q /\
  Qeq (fst (fst (ComputeTrustScore "agent-coder-01" w))) (- (1))%Q /\
  ~ in_unit (fst (fst (ComputeTrustScore "agent-coder-01" w))).
Proof.
  intros history w.
  split; [vm_compute; reflexivity|].
  split; [repeat constructor; vm_compute; discriminate|].
  split; [vm_compute; reflexivity|].
  split; [vm_compute; reflexivity|].
  intros [H _]. vm_compute in H. apply H. reflexivity.
Qed.

End DelegationProperties.

(** * Package security: what a token permits, the breaker, screening *)

Section SecurityBehaviour.

Import security props.

Lemma checkCaveats_None_iff cs operation scope :
  checkCaveats cs operation scope = None
  <-> operations_hold operation cs /\ scopes_hold scope cs.
Proof.
  unfold operations_hold, scopes_hold.
  induction cs as [|c0 cs IH]; simpl.
  - split; [intros _; split; intros c [] | reflexivity].
  - destruct (String.eqb_spec (Type_ c0) "operation") as [Ho|Ho].
    + destruct (strings.Contains (Value c0) operation) eqn:Hc; simpl.
      * rewrite IH. split.
        -- intros [H1 H2]. split.
           ++ intros c [<-|Hin] Hty; auto.
           ++ intros c [<-|Hin] Hty; [congruence | auto].
        -- intros [H1 H2]. split; intros c Hin; [apply H1 | apply H2]; auto.
      * split; [discriminate|]. intros [H1 _].
        rewrite (H1 c0 (or_introl eq_refl) Ho) in Hc. discriminate.
    + destruct (String.eqb_spec (Type_ c0) "scope") as [Hs|Hs].
      * destruct (strings.HasPrefix scope (Value c0)) eqn:Hc; simpl.
        -- rewrite IH. split.
           ++ intros [H1 H2]. split.
              ** intros c [<-|Hin] Hty; [congruence | auto].
              ** intros c [<-|Hin] Hty; auto.
           ++ intros [H1 H2]. split; intros c Hin; [apply H1 | apply H2]; auto.
        -- split; [discriminate|]. intros [_ H2].
           rewrite (H2 c0 (or_introl eq_refl) Hs) in Hc. discriminate.
      * rewrite IH. split.
        -- intros [H1 H2]. split; intros c [<-|Hin] Hty; try congruence; auto.
        -- intros [H1 H2]. split; intros c Hin; [apply H1 | apply H2]; auto.
Qed.

(** X1.  ValidateAccess returns nil exactly when the token is not revoked,
    the clock reading is not after its expiry, every operation caveat's
    value contains the requested operation and every scope caveat's value is
    a prefix of the requested scope; in every other case it returns an
    error. *)
Theorem ValidateAccess_permits_iff now d operation scope :
  ValidateAccess now d operation scope = None
  <-> Revoked d = false /\ now <= ExpiresAt d /\
      operations_hold operation (Caveats d) /\ scopes_hold scope (Caveats d).
Proof.
  unfold ValidateAccess, time.After.
  destruct (Revoked d).
  - split; [discriminate | intros [H _]; discriminate].
  - destruct (Z.ltb_spec (ExpiresAt d) now).
    + split; [discriminate | intros (_ & H1 & _); lia].
    + rewrite checkCaveats_None_iff. tauto.
Qed.

Lemma checkCaveats_app cs1 cs2 operation scope :
  checkCaveats (cs1 ++ cs2) operation scope = None ->
  checkCaveats cs1 operation scope = None.
Proof.
  rewrite !checkCaveats_None_iff. unfold operations_hold, scopes_hold.
  intros [H1 H2]. split; intros c Hin; [apply H1 | apply H2];
    apply in_or_app; auto.
Qed.

Lemma ValidateAccess_None_caveats now d operation scope :
  ValidateAccess now d operation scope = None ->
  checkCaveats (Caveats d) operation scope = None.
Proof.
  unfold ValidateAccess. destruct (Revoked d); [discriminate|].
  destruct (time.After now (ExpiresAt d)); [discriminate | auto].
Qed.

(** X2.  Whatever a token obtained from an ancestor by any chain of
    successful Attenuate calls permits at some clock reading, the ancestor
    permits too at that reading as long as the ancestor is itself not
    revoked and not expired: attenuation can only take access away. *)
Theorem attenuation_never_widens_access ancestor d now operation scope :
  descends ancestor d ->
  live now ancestor ->
  ValidateAccess now d operation scope = None ->
  ValidateAccess now ancestor operation scope = None.
Proof.
  intros Hd Hlive Hperm.
  destruct (descends_extends _ _ Hd) as [added Hc].
  rewrite (ValidateAccess_live _ _ _ _ Hlive).
  apply ValidateAccess_None_caveats in Hperm.
  rewrite Hc in Hperm. eapply checkCaveats_app, Hperm.
Qed.

Lemma attenuation_never_widens_access_witness :
  descends read_only_token sub_worker_token /\
  ValidateAccess 2000 sub_worker_token "read" "raw_events/2026/q1" = None /\
  ValidateAccess 2000 read_only_token "read" "raw_events/2026/q1" = None.
Proof.
  assert (Hd : descends read_only_token sub_worker_token).
  { eapply descends_step; [apply descends_refl|].
    exists 1000, 1000, 1001, "agent-sub-worker-01",
      [mkCaveat "scope" "tables" "raw_events/2026"].
    reflexivity. }
  split; [exact Hd|]. split; [reflexivity|].
  apply (attenuation_never_widens_access read_only_token sub_worker_token
           2000 "read" "raw_events/2026/q1" Hd (conj eq_refl eq_refl)).
  reflexivity.
Defined.

Lemma prefix_iff p s :
  String.prefix p s = true <-> exists post, s = p +:+ post.
Proof.
  revert s. induction p as [|a p IH]; intros s.
  - split; [intros _; exists s; reflexivity | destruct s; reflexivity].
  - destruct s as [|b s]; simpl.
    + split; [discriminate | intros [post H]; discriminate].
    + destruct (Ascii.ascii_dec a b) as [->|Hne].
      * rewrite IH. split; intros [post H]; exists post.
        -- rewrite H. reflexivity.
        -- injection H. auto.
      * split; [discriminate|]. intros [post H]. injection H. congruence.
Qed.

Lemma Contains_iff s sub :
  strings.Contains s sub = true <-> occurs_in sub s.
Proof.
  unfold occurs_in. induction s as [|a s IH]; cbn [strings.Contains].
  - destruct (String.prefix sub "") eqn:Hp.
    + split; [intros _ | reflexivity].
      apply prefix_iff in Hp as [post H]. exists "", post. exact H.
    + split; [discriminate|]. intros (pre & post & H).
      destruct pre; simpl in H; [|discriminate].
      assert (String.prefix sub "" = true)
        by (apply prefix_iff; exists post; exact H).
      congruence.
  - destruct (String.prefix sub (String a s)) eqn:Hp.
    + split; [intros _ | reflexivity].
      apply prefix_iff in Hp as [post H]. exists "", post. exact H.
    + rewrite IH. split.
      * intros (pre & post & H). exists (String a pre), post.
        rewrite H. reflexivity.
      * intros (pre & post & H). destruct pre as [|b pre]; simpl in H.
        -- assert (String.prefix sub (String a s) = true)
             by (apply prefix_iff; exists post; exact H).
           congruence.
        -- injection H as _ H. exists pre, post. exact H.
Qed.

(** X3.  On a live token whose caveats are all operation caveats,
    ValidateAccess permits an operation exactly when the operation occurs as
    a run of consecutive bytes in the value of every caveat
    (strings.Contains): an allowed list such as read,write admits write, and
    also any other substring of it. *)
Theorem operation_caveats_admit_substrings now d operation scope :
  live now d ->
  (forall c, In c (Caveats d) -> Type_ c = "operation") ->
  ValidateAccess now d operation scope = None
  <-> forall c, In c (Caveats d) -> occurs_in operation (Value c).
Proof.
  intros Hlive Hall. rewrite (ValidateAccess_live _ _ _ _ Hlive).
  rewrite checkCaveats_None_iff. unfold operations_hold, scopes_hold.
  split.
  - intros [Ho _] c Hin. apply Contains_iff. auto.
  - intros H. split.
    + intros c Hin _. apply Contains_iff. auto.
    + intros c Hin Hs. rewrite (Hall c Hin) in Hs. discriminate.
Qed.

Lemma operation_caveats_admit_substrings_witness :
  ValidateAccess 1000 operations_token "write" "raw_events/2026" = None.
Proof.
  apply (operation_caveats_admit_substrings 1000 operations_token "write"
           "raw_events/2026").
  - split; reflexivity.
  - intros c [<-|[]]. reflexivity.
  - intros c [<-|[]]. exists "read,", "". reflexivity.
Defined.

Lemma record_failures_below_threshold ts : forall cb,
  - 2 ^ 63 <= FailureCount cb ->
  FailureThreshold cb <= 2 ^ 63 ->
  FailureCount cb + Z.of_nat (List.length ts) < FailureThreshold cb ->
  record_failures ts cb
  = (List.repeat false (List.length ts),
     set_FailureCount (FailureCount cb + Z.of_nat (List.length ts)) cb).
Proof.
  induction ts as [|t ts IH]; intros cb Hlo Hth Hlt.
  - simpl. rewrite Z.add_0_r. destruct cb; reflexivity.
  - cbn [record_failures List.length List.repeat]. unfold RecordFailure.
    cbn [List.length] in Hlt. rewrite Nat2Z.inj_succ in Hlt.
    rewrite wrap_int_small by lia.
    cbn [FailureThreshold FailureCount set_FailureCount].
    destruct (Z.leb_spec (FailureThreshold cb) (FailureCount cb + 1)); [lia|].
    rewrite IH; cbn [FailureThreshold FailureCount set_FailureCount]; try lia.
    f_equal. destruct cb; unfold set_FailureCount; simpl. f_equal. lia.
Qed.

Lemma RecordFailure_reaching_threshold now cb :
  - 2 ^ 63 <= FailureCount cb < 2 ^ 63 - 1 ->
  FailureThreshold cb <= FailureCount cb + 1 ->
  RecordFailure now cb
  = (true, set_LastTripped now
             (set_State CBOpen (set_FailureCount (FailureCount cb + 1) cb))).
Proof.
  intros Hr Hth. unfold RecordFailure. rewrite wrap_int_small by lia.
  cbn [FailureThreshold FailureCount set_FailureCount].
  destruct (Z.leb_spec (FailureThreshold cb) (FailureCount cb + 1)); [reflexivity | lia].
Qed.

(** X4.  After RecordSuccess, a breaker with failure threshold n (1 <= n <
    2^63) stays closed through n-1 consecutive RecordFailure calls, each
    returning false, and IsAllowed still returns true; the n-th
    RecordFailure returns true, opens the breaker and stamps LastTripped
    with its clock reading. *)
Theorem breaker_trips_on_the_threshold_th_failure cb0 ts t t' :
  1 <= FailureThreshold cb0 <= 2 ^ 63 - 1 ->
  Z.of_nat (List.length ts) = FailureThreshold cb0 - 1 ->
  let cb := RecordSuccess cb0 in
  let cb1 := snd (record_failures ts cb) in
  fst (record_failures ts cb) = List.repeat false (List.length ts) /\
  State cb1 = CBClosed /\
  IsAllowed t' cb1 = (true, cb1) /\
  fst (RecordFailure t cb1) = true /\
  State (snd (RecordFailure t cb1)) = CBOpen /\
  LastTripped (snd (RecordFailure t cb1)) = t.
Proof.
  intros Hth Hlen cb cb1. unfold cb1.
  rewrite (record_failures_below_threshold ts cb) by (unfold cb; simpl; lia).
  cbn [fst snd]. split; [reflexivity|]. split; [reflexivity|].
  split; [reflexivity|].
  rewrite RecordFailure_reaching_threshold by (unfold cb; simpl; lia).
  auto.
Qed.

Lemma breaker_trips_on_the_threshold_th_failure_witness :
  let cb := RecordSuccess (three_failures 1 2 3 (NewCircuitBreaker "agent-coder-01" 5 0.4)) in
  let cb1 := snd (record_failures [10; 20; 30; 40] cb) in
  fst (record_failures [10; 20; 30; 40] cb) = [false; false; false; false] /\
  State cb1 = CBClosed /\
  IsAllowed 45 cb1 = (true, cb1) /\
  fst (RecordFailure 50 cb1) = true /\
  State (snd (RecordFailure 50 cb1)) = CBOpen /\
  LastTripped (snd (RecordFailure 50 cb1)) = 50.
Proof.
  apply (breaker_trips_on_the_threshold_th_failure
           (three_failures 1 2 3 (NewCircuitBreaker "agent-coder-01" 5 0.4))
           [10; 20; 30; 40] 50 45).
  - vm_compute. split; discriminate.
  - reflexivity.
Defined.

(** X5.  Every RecordFailure that brings the failure count to the threshold
    or beyond, so also each further failure after the breaker has tripped on
    the count, returns true, sets the state to open and moves LastTripped to
    its own clock reading: IsAllowed then refuses until the cooldown has
    elapsed since this latest failure, and turns the breaker half-open after
    that. *)
Theorem failure_of_a_tripped_breaker_restarts_the_cooldown cb now t :
  - 2 ^ 63 <= FailureCount cb < 2 ^ 63 - 1 ->
  FailureThreshold cb <= FailureCount cb + 1 ->
  0 <= CooldownPeriod cb < time.maxDuration ->
  let cb1 := snd (RecordFailure now cb) in
  fst (RecordFailure now cb) = true /\
  State cb1 = CBOpen /\
  LastTripped cb1 = now /\
  (t <= now + CooldownPeriod cb -> IsAllowed t cb1 = (false, cb1)) /\
  (now + CooldownPeriod cb < t ->
   IsAllowed t cb1 = (true, set_State CBHalfOpen cb1)).
Proof.
  intros Hr Hth Hcd cb1. unfold cb1.
  rewrite RecordFailure_reaching_threshold by assumption.
  cbn [fst snd]. split; [reflexivity|]. split; [reflexivity|].
  split; [reflexivity|]. unfold IsAllowed. simpl. split; intros Ht.
  - rewrite Since_not_elapsed by assumption. reflexivity.
  - rewrite Since_elapsed by assumption. reflexivity.
Qed.

Lemma failure_of_a_tripped_breaker_restarts_the_cooldown_witness :
  LastTripped
    (snd (RecordFailure (10 * time.Minute)
            (three_failures 0 0 0 (NewCircuitBreaker "agent-coder-01" 3 0.5))))
  = 10 * time.Minute.
Proof.
  apply (failure_of_a_tripped_breaker_restarts_the_cooldown
           (three_failures 0 0 0 (NewCircuitBreaker "agent-coder-01" 3 0.5))
           (10 * time.Minute) 0).
  - vm_compute. split; [discriminate | reflexivity].
  - vm_compute. discriminate.
  - vm_compute. split; [discriminate | reflexivity].
Defined.

(** X6.  CheckTrustDrop with a trust below the floor opens the breaker
    without touching the failure count. After the cooldown IsAllowed turns
    it half-open; a RecordFailure during the probe that stays below the
    failure threshold returns false and leaves the breaker half-open, so
    IsAllowed keeps returning true: a failed probe does not re-open the
    breaker. *)
Theorem trust_drop_probe_failure_leaves_breaker_half_open
    cb t0 trust t1 t2 t3 :
  (trust < TrustFloor cb)%Q ->
  - 2 ^ 63 <= FailureCount cb ->
  FailureCount cb + 1 < FailureThreshold cb <= 2 ^ 63 ->
  0 <= CooldownPeriod cb < time.maxDuration ->
  t0 + CooldownPeriod cb < t1 ->
  let dropped := CheckTrustDrop t0 trust cb in
  let probe := IsAllowed t1 (snd dropped) in
  let failed := RecordFailure t2 (snd probe) in
  fst dropped = true /\
  State (snd dropped) = CBOpen /\
  FailureCount (snd dropped) = FailureCount cb /\
  fst probe = true /\
  State (snd probe) = CBHalfOpen /\
  fst failed = false /\
  State (snd failed) = CBHalfOpen /\
  IsAllowed t3 (snd failed) = (true, snd failed).
Proof.
  intros Htrust Hlo Hth Hcd Ht1 dropped probe failed.
  assert (Hd : dropped = (true, set_LastTripped t0 (set_State CBOpen cb))).
  { unfold dropped, CheckTrustDrop, float64.lt.
    destruct (Qle_bool (TrustFloor cb) trust) eqn:E; [|reflexivity].
    apply Qle_bool_iff in E. exfalso. apply (Qlt_not_le _ _ Htrust E). }
  assert (Hp : probe = (true, set_State CBHalfOpen (snd dropped))).
  { unfold probe. rewrite Hd. unfold IsAllowed. simpl.
    rewrite Since_elapsed by assumption. reflexivity. }
  assert (Hf : failed
               = (false, set_FailureCount (FailureCount cb + 1) (snd probe))).
  { unfold failed, RecordFailure. rewrite Hp, Hd. simpl.
    rewrite wrap_int_small by lia.
    destruct (Z.leb_spec (FailureThreshold cb) (FailureCount cb + 1));
      [lia | reflexivity]. }
  rewrite Hf, Hp, Hd. simpl. repeat split; reflexivity.
Qed.

Lemma trust_drop_probe_failure_leaves_breaker_half_open_witness :
  State
    (snd (RecordFailure (32 * time.Minute)
            (snd (IsAllowed (31 * time.Minute)
                    (snd (CheckTrustDrop 0 0.3
                            (NewCircuitBreaker "agent-coder-01" 3 0.5)))))))
  = CBHalfOpen.
Proof.
  apply (trust_drop_probe_failure_leaves_breaker_half_open
           (NewCircuitBreaker "agent-coder-01" 3 0.5) 0 0.3
           (31 * time.Minute) (32 * time.Minute) (33 * time.Minute)).
  - reflexivity.
  - vm_compute. discriminate.
  - vm_compute. split; [reflexivity | discriminate].
  - vm_compute. split; [discriminate | reflexivity].
  - reflexivity.
Defined.

Lemma float64_lt_iff x y : float64.lt x y = true <-> (x < y)%Q.
Proof.
  unfold float64.lt. rewrite negb_true_iff. split.
  - intros H. apply Qnot_le_lt. intros Hle.
    apply Qle_bool_iff in Hle. congruence.
  - intros H. destruct (Qle_bool y x) eqn:E; [|reflexivity].
    apply Qle_bool_iff in E. exfalso. apply (Qlt_not_le _ _ H E).
Qed.

Lemma float64_lt_false_iff x y : float64.lt x y = false <-> (y <= x)%Q.
Proof.
  unfold float64.lt. rewrite negb_false_iff. apply Qle_bool_iff.
Qed.

Lemma app_one_not_nil {A} (l : list A) x : l ++ [x] <> [].
Proof. destruct l; discriminate. Qed.

(** X7.  ScreenTask returns at most four warnings, and none exactly when the
    task requests at most 10 permissions, is reversible or not open-ended in
    autonomy, has context sensitivity at most 0.8 or verifiability at least
    0.3, and, when it has a deadline and complexity above 7, the time until
    the deadline is at least complexity times 5 minutes (in int64
    nanoseconds). *)
Theorem ScreenTask_no_warning_iff now task details :
  (List.length (ScreenTask now task details) <= 4)%nat /\
  (ScreenTask now task details = []
   <-> Z.of_nat (List.length (types.Permissions details)) <= 10 /\
       (types.Reversible task = true
        \/ types.AutonomyLevel_ task <> types.AutonomyOpenEnd) /\
       ((types.ContextSensitivity details <= 0.8)%Q
        \/ (0.3 <= types.Verifiability task)%Q) /\
       (forall deadline,
          types.Deadline details = Some deadline ->
          7 < types.Complexity task ->
          tight_deadline (types.Complexity task) <= time.Until now deadline)).
Proof.
  unfold ScreenTask.
  destruct (Z.ltb_spec 10 (Z.of_nat (List.length (types.Permissions details))))
    as [H1|H1];
  destruct (types.Reversible task) eqn:H2;
  destruct (String.eqb_spec (types.AutonomyLevel_ task) types.AutonomyOpenEnd)
    as [H3|H3];
  destruct (float64.gt (types.ContextSensitivity details) 0.8) eqn:H4;
  destruct (float64.lt (types.Verifiability task) 0.3) eqn:H5;
  (destruct (types.Deadline details) as [deadline|] eqn:H6;
   [destruct (Z.ltb_spec 7 (types.Complexity task)) as [H7|H7];
    [destruct (Z.ltb_spec (time.Until now deadline)
                 (tight_deadline (types.Complexity task))) as [H8|H8]|]|]);
  cbn [negb andb app List.length];
  (split; [lia|]);
  unfold float64.gt in H4;
  try apply float64_lt_iff in H4; try apply float64_lt_false_iff in H4;
  try apply float64_lt_iff in H5; try apply float64_lt_false_iff in H5;
  (split;
   [ try discriminate;
     intros _; repeat split; auto; try lia;
     try (intros d Hd; try discriminate; injection Hd as <-; intros; lia)
   | intros (P1 & P2 & P3 & P4); try reflexivity; exfalso;
     try lia;
     try (destruct P2 as [P2|P2]; [discriminate | contradiction]);
     try (destruct P3 as [P3|P3];
          [apply (Qlt_not_le _ _ H4 P3) | apply (Qlt_not_le _ _ H5 P3)]);
     try (specialize (P4 deadline eq_refl H7); lia) ]).
Qed.

End SecurityBehaviour.

(** * Package market: scores and weight profiles *)

Section MarketBehaviour.

Import market props.

Lemma filter_length_le {A} (f : A -> bool) l :
  (List.length (List.filter f l) <= List.length l)%nat.
Proof.
  induction l as [|x l IH]; simpl; [lia|]. destruct (f x); simpl; lia.
Qed.

Lemma filter_length_all {A} (f : A -> bool) l :
  List.length (List.filter f l) = List.length l
  <-> forall x, In x l -> f x = true.
Proof.
  induction l as [|x l IH]; simpl.
  - split; [intros _ x [] | reflexivity].
  - pose proof (filter_length_le f l). destruct (f x) eqn:E; simpl.
    + split.
      * intros H1 y [<-|Hy]; [exact E | apply IH; [lia | exact Hy]].
      * intros H1. f_equal. apply IH. auto.
    + split; [lia|]. intros H1. rewrite (H1 x (or_introl eq_refl)) in E.
      discriminate.
Qed.

Lemma filter_length_none {A} (f : A -> bool) l :
  List.length (List.filter f l) = 0%nat
  <-> forall x, In x l -> f x = false.
Proof.
  induction l as [|x l IH]; simpl.
  - split; [intros _ x [] | reflexivity].
  - destruct (f x) eqn:E; simpl.
    + split; [discriminate|]. intros H1.
      rewrite (H1 x (or_introl eq_refl)) in E. discriminate.
    + rewrite IH. split.
      * intros H1 y [<-|Hy]; auto.
      * intros H1 y Hy. auto.
Qed.

Lemma ratio_in_unit m n :
  0 <= m <= n -> 0 < n ->
  (0 <= inject_Z m / inject_Z n <= 1)%Q.
Proof.
  intros Hm Hn.
  assert (0 < inject_Z n)%Q by (change 0%Q with (inject_Z 0); rewrite <- Zlt_Qlt; lia).
  split.
  - apply Qle_shift_div_l; [assumption|]. rewrite Qmult_0_l.
    change 0%Q with (inject_Z 0). rewrite <- Zle_Qle. lia.
  - apply Qle_shift_div_r; [assumption|]. rewrite Qmult_1_l.
    rewrite <- Zle_Qle. lia.
Qed.

Lemma ratio_eq_1 m n :
  0 < n -> (inject_Z m / inject_Z n == 1)%Q <-> m = n.
Proof.
  intros Hn. unfold Qeq, Qdiv, Qmult, Qinv, inject_Z. simpl.
  destruct n as [|n|n]; try lia. simpl. split; intros H; lia.
Qed.

Lemma ratio_eq_0 m n :
  0 < n -> (inject_Z m / inject_Z n == 0)%Q <-> m = 0.
Proof.
  intros Hn. unfold Qeq, Qdiv, Qmult, Qinv, inject_Z. simpl.
  destruct n as [|n|n]; try lia. simpl. split; intros H; lia.
Qed.

(** X8.  capabilityMatchScore is always in [0,1]; it is 1 exactly when every
    required capability is offered (in particular when none is required),
    and 0 exactly when something is required and no required capability is
    offered. *)
Theorem capabilityMatchScore_bounds required offered :
  (0 <= capabilityMatchScore required offered <= 1)%Q /\
  ((capabilityMatchScore required offered == 1)%Q
   <-> forall r, In r required -> In r offered) /\
  ((capabilityMatchScore required offered == 0)%Q
   <-> required <> [] /\ forall r, In r required -> ~ In r offered).
Proof.
  unfold capabilityMatchScore.
  destruct required as [|r0 required].
  - simpl. split; [split; discriminate|]. split.
    + split; [intros _ r [] | reflexivity].
    + split; [discriminate | intros [H _]; congruence].
  - set (req := r0 :: required).
    assert (Hn : 0 < Z.of_nat (List.length req)) by (simpl; lia).
    destruct (Z.eqb_spec (Z.of_nat (List.length req)) 0) as [E|_]; [lia|].
    set (f := fun r : string =>
                bool_decide (r ∈ (list_to_set offered : gset string))).
    assert (Hf : forall r, f r = true <-> In r offered).
    { intros r. unfold f. rewrite bool_decide_eq_true, elem_of_list_to_set.
      apply list_elem_of_In. }
    pose proof (filter_length_le f req) as Hle.
    split; [apply ratio_in_unit; lia|]. split.
    + rewrite ratio_eq_1 by assumption. rewrite Nat2Z.inj_iff.
      rewrite filter_length_all. split; intros H r Hr; apply Hf; auto.
    + rewrite ratio_eq_0 by assumption.
      change 0 with (Z.of_nat 0). rewrite Nat2Z.inj_iff.
      rewrite filter_length_none. split.
      * intros H. split; [discriminate|]. intros r Hr Hin.
        apply Hf in Hin. rewrite (H r Hr) in Hin. discriminate.
      * intros [_ H] r Hr. destruct (f r) eqn:E; [|reflexivity].
        apply Hf in E. destruct (H r Hr E).
Qed.

(** X9.  SelectWeightsForTask returns one of the three weight profiles, each
    with non-negative weights that sum to 1: the high-stakes profile for
    critical and high criticality, the default profile for medium
    criticality, and the cost-optimised profile for every task that
    ShouldBypassDelegation accepts. *)
Theorem SelectWeightsForTask_profiles task details :
  let w := SelectWeightsForTask task in
  (w = HighStakesWeights \/ w = CostOptimizedWeights \/ w = DefaultWeights) /\
  weights_nonneg w /\ (weights_sum w == 1)%Q /\
  (types.Criticality_ task = types.CriticalityCritical
   \/ types.Criticality_ task = types.CriticalityHigh ->
   w = HighStakesWeights) /\
  (ShouldBypassDelegation task details = true ->
   w = CostOptimizedWeights) /\
  (types.Criticality_ task = types.CriticalityMedium -> w = DefaultWeights).
Proof.
  intros w. unfold w, SelectWeightsForTask, ShouldBypassDelegation.
  split; [|split; [|split; [|split; [|split]]]].
  - destruct (_ || _); [auto|]. destruct (_ && _); auto.
  - destruct (_ || _); [|destruct (_ && _)];
      unfold weights_nonneg; simpl; repeat split; discriminate.
  - destruct (_ || _); [|destruct (_ && _)]; vm_compute; reflexivity.
  - intros [H|H]; rewrite H; reflexivity.
  - destruct (String.eqb_spec (types.Criticality_ task) types.CriticalityLow)
      as [H|H]; [|discriminate].
    rewrite H. simpl.
    destruct (Z.leb_spec (types.Complexity task) 2); [|discriminate].
    intros _. destruct (Z.leb_spec (types.Complexity task) 3); [reflexivity|lia].
  - intros H. rewrite H. reflexivity.
Qed.

(** What the first loop of [RankBids] establishes. *)
Lemma bounds_fold bids : forall acc,
  let bs := fold_left bounds_step bids acc in
  (minCost bs <= minCost acc)%Q /\ (maxCost acc <= maxCost bs)%Q /\
  minTime bs <= minTime acc /\ maxTime acc <= maxTime bs /\
  (forall b, In b bids ->
     (minCost bs <= types.EstimatedCost b <= maxCost bs)%Q /\
     minTime bs <= types.EstimatedTime b <= maxTime bs) /\
  (forall lo, lo <= minTime acc ->
     (forall b, In b bids -> lo <= types.EstimatedTime b) -> lo <= minTime bs) /\
  (forall hi, maxTime acc <= hi ->
     (forall b, In b bids -> types.EstimatedTime b <= hi) -> maxTime bs <= hi) /\
  (forall lo, (lo <= minCost acc)%Q ->
     (forall b, In b bids -> (lo <= types.EstimatedCost b)%Q) ->
     (lo <= minCost bs)%Q) /\
  (forall hi, (maxCost acc <= hi)%Q ->
     (forall b, In b bids -> (types.EstimatedCost b <= hi)%Q) ->
     (maxCost bs <= hi)%Q).
Proof.
  induction bids as [|b bids IH]; intros acc; cbn [fold_left].
  - cbv zeta. split; [apply Qle_refl|]. split; [apply Qle_refl|].
    split; [lia|]. split; [lia|]. split; [intros b []|].
    repeat split; intros; assumption.
  - specialize (IH (bounds_step acc b)). cbv zeta in IH |- *.
    destruct IH as (I1 & I2 & I3 & I4 & I5 & I6 & I7 & I8 & I9).
    set (bs := fold_left bounds_step bids (bounds_step acc b)) in *.
    assert (S1 : (minCost (bounds_step acc b) <= minCost acc)%Q /\
                 (minCost (bounds_step acc b) <= types.EstimatedCost b)%Q).
    { unfold bounds_step. simpl.
      destruct (float64.lt (types.EstimatedCost b) (minCost acc)) eqn:E.
      - apply float64_lt_iff in E. split; [apply Qlt_le_weak, E | apply Qle_refl].
      - apply float64_lt_false_iff in E. split; [apply Qle_refl | exact E]. }
    assert (S2 : (maxCost acc <= maxCost (bounds_step acc b))%Q /\
                 (types.EstimatedCost b <= maxCost (bounds_step acc b))%Q).
    { unfold bounds_step, float64.gt. simpl.
      destruct (float64.lt (maxCost acc) (types.EstimatedCost b)) eqn:E.
      - apply float64_lt_iff in E. split; [apply Qlt_le_weak, E | apply Qle_refl].
      - apply float64_lt_false_iff in E. split; [apply Qle_refl | exact E]. }
    assert (S5 : forall lo, (lo <= minCost acc)%Q ->
                 (lo <= types.EstimatedCost b)%Q ->
                 (lo <= minCost (bounds_step acc b))%Q).
    { intros lo Ha Hb. unfold bounds_step. simpl.
      destruct (float64.lt (types.EstimatedCost b) (minCost acc)); assumption. }
    assert (S6 : forall hi, (maxCost acc <= hi)%Q ->
                 (types.EstimatedCost b <= hi)%Q ->
                 (maxCost (bounds_step acc b) <= hi)%Q).
    { intros hi Ha Hb. unfold bounds_step. simpl.
      destruct (float64.gt (types.EstimatedCost b) (maxCost acc)); assumption. }
    assert (S3 : minTime (bounds_step acc b) = Z.min (types.EstimatedTime b) (minTime acc)).
    { unfold bounds_step. simpl.
      destruct (Z.ltb_spec (types.EstimatedTime b) (minTime acc)); lia. }
    assert (S4 : maxTime (bounds_step acc b) = Z.max (types.EstimatedTime b) (maxTime acc)).
    { unfold bounds_step. simpl.
      destruct (Z.ltb_spec (maxTime acc) (types.EstimatedTime b)); lia. }
    destruct S1 as [S1a S1b]. destruct S2 as [S2a S2b].
    split; [eapply Qle_trans; eassumption|].
    split; [eapply Qle_trans; eassumption|].
    split; [lia|]. split; [lia|]. split; [|split; [|split; [|split]]].
    + intros b' [<-|Hin]; [|apply I5, Hin].
      split; [split|lia]; eapply Qle_trans; eassumption.
    + intros lo Hlo Hall. apply I6; [|intros; apply Hall; right; assumption].
      specialize (Hall b (or_introl eq_refl)). lia.
    + intros hi Hhi Hall. apply I7; [|intros; apply Hall; right; assumption].
      specialize (Hall b (or_introl eq_refl)). lia.
    + intros lo Hlo Hall. apply I8; [|intros; apply Hall; right; assumption].
      apply S5; [assumption | apply Hall; left; reflexivity].
    + intros hi Hhi Hall. apply I9; [|intros; apply Hall; right; assumption].
      apply S6; [assumption | apply Hall; left; reflexivity].
Qed.

Lemma wrap_int64_small z :
  - 2 ^ 63 <= z < 2 ^ 63 -> wrap_int64 z = z.
Proof.
  intros H. unfold wrap_int64. rewrite Z.mod_small; lia.
Qed.

Lemma frac_in_unit (x lo hi : Q) :
  (lo <= x <= hi)%Q -> (lo < hi)%Q ->
  (0 <= 1 - (x - lo) / (hi - lo) <= 1)%Q.
Proof.
  intros [H1 H2] Hlt.
  assert (Hd : (0 < hi - lo)%Q) by lra.
  assert (0 <= (x - lo) / (hi - lo))%Q
    by (apply Qle_shift_div_l; [assumption | lra]).
  assert ((x - lo) / (hi - lo) <= 1)%Q
    by (apply Qle_shift_div_r; [assumption | lra]).
  lra.
Qed.

Lemma capabilityMatchScore_in_unit required offered :
  (0 <= capabilityMatchScore required offered <= 1)%Q.
Proof.
  unfold capabilityMatchScore.
  destruct required as [|r0 required]; [simpl; split; discriminate|].
  set (req := r0 :: required).
  destruct (Z.eqb_spec (Z.of_nat (List.length req)) 0) as [E|_];
    [simpl in E; lia|].
  set (f := fun r : string => bool_decide (r ∈ (list_to_set offered : gset string))).
  assert (Hle : (List.length (List.filter f req) <= List.length req)%nat).
  { clear. induction req as [|x l IH]; simpl; [lia|]. destruct (f x); simpl; lia. }
  assert (Hn : 0 < Z.of_nat (List.length req)) by (simpl; lia).
  assert (0 < inject_Z (Z.of_nat (List.length req)))%Q
    by (change 0%Q with (inject_Z 0); rewrite <- Zlt_Qlt; lia).
  split.
  - apply Qle_shift_div_l; [assumption|]. rewrite Qmult_0_l.
    change 0%Q with (inject_Z 0). rewrite <- Zle_Qle. lia.
  - apply Qle_shift_div_r; [assumption|]. rewrite Qmult_1_l.
    rewrite <- Zle_Qle. lia.
Qed.

Lemma weighted_term (w s : Q) :
  (0 <= w)%Q -> (0 <= s <= 1)%Q -> (0 <= w * s <= w)%Q.
Proof.
  intros Hw [H0 H1]. split.
  - apply Qmult_le_0_compat; assumption.
  - rewrite <- (Qmult_1_r w) at 2. rewrite !(Qmult_comm w).
    apply Qmult_le_compat_r; assumption.
Qed.

(** The component scores of one bid of the list. *)
Lemma score_bid_components bids weights agentTrust requiredCaps agentCaps bid :
  In bid bids ->
  (forall b, In b bids -> 0 <= types.EstimatedTime b <= MaxInt64) ->
  (forall agent v, agentTrust !! agent = Some v -> (0 <= v <= 1)%Q) ->
  let sb := score_bid (find_bounds bids) weights agentTrust requiredCaps
              agentCaps bid in
  (0 <= CostScore sb <= 1)%Q /\ (0 <= SpeedScore sb <= 1)%Q /\
  (0 <= TrustScore sb <= 1)%Q /\ (0 <= CapMatchScore sb <= 1)%Q.
Proof.
  intros Hin Htime Htrust sb.
  destruct (bounds_fold bids (mkBounds MaxFloat64 0 MaxInt64 0))
    as (_ & _ & _ & _ & Hb & Hlo & Hhi & _).
  fold (find_bounds bids) in Hb, Hlo, Hhi. cbv zeta in Hb, Hlo, Hhi.
  destruct (Hb bid Hin) as [Hc Ht].
  assert (Hmin : 0 <= minTime (find_bounds bids)).
  { apply Hlo; [simpl; unfold MaxInt64; lia | intros b Hb'; apply Htime, Hb']. }
  assert (Hmax : maxTime (find_bounds bids) <= MaxInt64).
  { apply Hhi; [simpl; unfold MaxInt64; lia | intros b Hb'; apply Htime, Hb']. }
  unfold MaxInt64 in *.
  unfold sb, score_bid. cbn [CostScore SpeedScore TrustScore CapMatchScore].
  split; [|split; [|split]].
  - unfold float64.gt.
    destruct (float64.lt (minCost (find_bounds bids)) (maxCost (find_bounds bids))) eqn:E.
    + apply float64_lt_iff in E. apply frac_in_unit; assumption.
    + split; discriminate.
  - destruct (Z.ltb_spec (minTime (find_bounds bids)) (maxTime (find_bounds bids))).
    + rewrite !wrap_int64_small by lia.
      assert (Hq : (inject_Z (types.EstimatedTime bid - minTime (find_bounds bids))
                    / inject_Z (maxTime (find_bounds bids) - minTime (find_bounds bids))
                    == (inject_Z (types.EstimatedTime bid) - inject_Z (minTime (find_bounds bids)))
                       / (inject_Z (maxTime (find_bounds bids)) - inject_Z (minTime (find_bounds bids))))%Q).
      { unfold Z.sub. rewrite !inject_Z_plus, !inject_Z_opp. reflexivity. }
      rewrite Hq. apply frac_in_unit.
      * rewrite <- !Zle_Qle. lia.
      * rewrite <- Zlt_Qlt. lia.
    + split; discriminate.
  - destruct (agentTrust !! types.AgentID bid) as [v|] eqn:E; simpl.
    + eapply Htrust, E.
    + split; discriminate.
  - apply capabilityMatchScore_in_unit.
Qed.

(** X10.  When the weights are non-negative, every bid's estimated time is
    in [0, MaxInt64] and confidence in [0,1], and every trust value supplied
    is in [0,1], each scored bid returned by RankBids has its cost, speed,
    trust, confidence and capability scores in [0,1] and a total between 0
    and the sum of the weights. *)
Theorem RankBids_scores_normalised sort_Slice bids weights agentTrust
    requiredCaps agentCaps sb :
  sort_Slice_contract sort_Slice ->
  weights_nonneg weights ->
  (forall b, In b bids ->
     0 <= types.EstimatedTime b <= MaxInt64 /\
     (0 <= types.Confidence b <= 1)%Q) ->
  (forall agent v, agentTrust !! agent = Some v -> (0 <= v <= 1)%Q) ->
  In sb (RankBids sort_Slice bids weights agentTrust requiredCaps agentCaps) ->
  (0 <= CostScore sb <= 1)%Q /\ (0 <= SpeedScore sb <= 1)%Q /\
  (0 <= TrustScore sb <= 1)%Q /\ (0 <= ConfidenceScore sb <= 1)%Q /\
  (0 <= CapMatchScore sb <= 1)%Q /\
  (0 <= Score sb <= weights_sum weights)%Q.
Proof.
  intros Hc (W1 & W2 & W3 & W4 & W5) Hbids Htrust Hin.
  apply (Permutation_in _ (RankBids_Permutation sort_Slice bids weights
           agentTrust requiredCaps agentCaps Hc)) in Hin.
  apply score_bids_In in Hin as (bid & Hbid & ->).
  destruct (score_bid_components bids weights agentTrust requiredCaps
              agentCaps bid Hbid (fun b Hb => proj1 (Hbids b Hb)) Htrust)
    as (C1 & C2 & C3 & C5).
  pose proof (proj2 (Hbids bid Hbid)) as C4.
  set (sb := score_bid (find_bounds bids) weights agentTrust requiredCaps
               agentCaps bid) in *.
  split; [exact C1|]. split; [exact C2|]. split; [exact C3|].
  split; [exact C4|]. split; [exact C5|].
  pose proof (weighted_term _ _ W1 C1). pose proof (weighted_term _ _ W2 C2).
  pose proof (weighted_term _ _ W3 C3). pose proof (weighted_term _ _ W4 C4).
  pose proof (weighted_term _ _ W5 C5).
  change (Score sb) with
    (Cost weights * CostScore sb + Speed weights * SpeedScore sb
     + Trust weights * TrustScore sb + Confidence weights * types.Confidence bid
     + CapMatch weights * CapMatchScore sb)%Q.
  change (ConfidenceScore sb) with (types.Confidence bid) in *.
  unfold weights_sum. lra.
Qed.

Lemma RankBids_scores_normalised_witness :
  List.Forall
    (fun sb => (0 <= Score sb <= weights_sum DefaultWeights)%Q)
    (RankBids back_insertion_sort [bid_first; bid_unknown] DefaultWeights
       equal_trust [] ∅).
Proof.
  apply List.Forall_forall. intros sb Hin.
  apply (RankBids_scores_normalised back_insertion_sort
           [bid_first; bid_unknown] DefaultWeights equal_trust [] ∅ sb).
  - apply back_insertion_sort_contract.
  - vm_compute. repeat split; discriminate.
  - intros b [<-|[<-|[]]]; vm_compute; repeat split; discriminate.
  - intros agent v H. unfold equal_trust in H.
    apply lookup_insert_Some in H as [[_ <-]|[_ H]];
      [vm_compute; split; discriminate|].
    apply lookup_insert_Some in H as [[_ <-]|[_ H]];
      [vm_compute; split; discriminate|].
    rewrite lookup_empty in H. discriminate H.
  - exact Hin.
Defined.

Lemma descending_before l x y :
  descending l -> In x l -> In y l -> (Score y < Score x)%Q ->
  occurs_before x y l.
Proof.
  unfold descending, occurs_before.
  induction 1 as [|a l Hs IH Hall]; intros Hx Hy Hlt; [destruct Hx|].
  rewrite List.Forall_forall in Hall.
  destruct Hx as [<-|Hx].
  - destruct Hy as [<-|Hy]; [exfalso; apply (Qlt_irrefl _ Hlt)|].
    apply in_split in Hy as (l2 & l3 & ->). exists [], l2, l3. reflexivity.
  - destruct Hy as [<-|Hy].
    + exfalso. apply (Qlt_not_le _ _ Hlt). apply Hall, Hx.
    + destruct (IH Hx Hy Hlt) as (l1 & l2 & l3 & ->).
      exists (a :: l1), l2, l3. reflexivity.
Qed.

Lemma RankBids_descending sort_Slice bids weights agentTrust requiredCaps
    agentCaps :
  sort_Slice_contract sort_Slice ->
  descending
    (RankBids sort_Slice bids weights agentTrust requiredCaps agentCaps).
Proof.
  intros Hc. unfold descending, RankBids.
  destruct bids as [|b bids]; [constructor|].
  change (Z.of_nat (List.length (b :: bids)) =? 0) with false. cbv iota.
  destruct (Hc (score_bids (b :: bids) weights agentTrust requiredCaps
                  agentCaps)) as [_ Hs].
  induction Hs as [|x l Hs IH Hall]; constructor; [exact IH|].
  rewrite List.Forall_forall in Hall |- *.
  intros y Hy. apply less_false_iff, Hall, Hy.
Qed.

Lemma score_bids_In_intro bid bids weights agentTrust requiredCaps agentCaps :
  In bid bids ->
  In (score_bid (find_bounds bids) weights agentTrust requiredCaps agentCaps
        bid)
     (score_bids bids weights agentTrust requiredCaps agentCaps).
Proof. intros H. unfold score_bids. apply List.in_map, H. Qed.

(** In a descending list, what stands before scores at least as high. *)
Lemma descending_order l x y :
  descending l -> occurs_before x y l -> (Score y <= Score x)%Q.
Proof.
  unfold descending, occurs_before.
  intros Hs (l1 & l2 & l3 & ->).
  induction l1 as [|a l1 IH]; cbn [app] in Hs.
  - apply StronglySorted_inv in Hs as [_ Hall].
    rewrite List.Forall_forall in Hall. apply Hall.
    apply in_or_app. right. left. reflexivity.
  - apply StronglySorted_inv in Hs as [Hs _]. apply IH, Hs.
Qed.

(** X11.  Of two bids of one call to RankBids that agree on estimated time,
    confidence, trust entry and capability entry, the one whose estimated
    cost is not higher never gets the lower total when the cost weight is
    not negative: the dearer bid stands before the cheaper one in the
    ranking only when their totals are equal, and the cheaper one stands
    before the dearer whenever its total is strictly higher.  (The
    inequality is not strict: a float64 sum can absorb a small cost
    term.) *)
Theorem RankBids_never_prefers_the_dearer_bid sort_Slice bids weights
    agentTrust requiredCaps agentCaps b1 b2 :
  sort_Slice_contract sort_Slice ->
  In b1 bids -> In b2 bids ->
  (types.EstimatedCost b1 <= types.EstimatedCost b2)%Q ->
  types.EstimatedTime b1 = types.EstimatedTime b2 ->
  (types.Confidence b1 == types.Confidence b2)%Q ->
  agentTrust !! types.AgentID b1 = agentTrust !! types.AgentID b2 ->
  agentCaps !! types.AgentID b1 = agentCaps !! types.AgentID b2 ->
  (0 <= Cost weights)%Q ->
  let sb1 := score_bid (find_bounds bids) weights agentTrust requiredCaps
               agentCaps b1 in
  let sb2 := score_bid (find_bounds bids) weights agentTrust requiredCaps
               agentCaps b2 in
  let ranked :=
    RankBids sort_Slice bids weights agentTrust requiredCaps agentCaps in
  (Score sb2 <= Score sb1)%Q /\
  (occurs_before sb2 sb1 ranked -> (Score sb1 == Score sb2)%Q) /\
  ((Score sb2 < Score sb1)%Q -> occurs_before sb1 sb2 ranked).
Proof.
  intros Hc H1 H2 Hcost Htime Hconf Htrust Hcaps Hw sb1 sb2 ranked.
  assert (Hle : (Score sb2 <= Score sb1)%Q).
  { unfold sb1, sb2, score_bid. cbn [Score].
    rewrite Htrust, Hcaps, Htime, Hconf.
    destruct (float64.gt (maxCost (find_bounds bids))
                (minCost (find_bounds bids))) eqn:Hgt; [|apply Qle_refl].
    unfold float64.gt in Hgt. apply float64_lt_iff in Hgt.
    set (lo := minCost (find_bounds bids)) in *.
    set (d := (maxCost (find_bounds bids) - lo)%Q).
    assert (Hdpos : (0 < d)%Q) by (unfold d; lra).
    assert (Hfrac : ((types.EstimatedCost b1 - lo) / d
                     <= (types.EstimatedCost b2 - lo) / d)%Q).
    { unfold Qdiv. apply Qmult_le_compat_r;
        [lra | apply Qlt_le_weak, Qinv_lt_0_compat, Hdpos]. }
    assert (Hprod : (Cost weights * (1 - (types.EstimatedCost b2 - lo) / d)
                     <= Cost weights
                        * (1 - (types.EstimatedCost b1 - lo) / d))%Q).
    { rewrite !(Qmult_comm (Cost weights)).
      apply Qmult_le_compat_r; [lra | exact Hw]. }
    lra. }
  assert (Hd : descending ranked) by apply RankBids_descending, Hc.
  split; [exact Hle|]. split.
  - intros Hbefore. apply Qle_antisym; [|exact Hle].
    apply (descending_order ranked sb2 sb1 Hd Hbefore).
  - intros Hlt. apply descending_before; [exact Hd | | | exact Hlt].
    + apply (Permutation_in _ (Permutation_sym (RankBids_Permutation
               sort_Slice bids weights agentTrust requiredCaps agentCaps Hc))).
      apply score_bids_In_intro, H1.
    + apply (Permutation_in _ (Permutation_sym (RankBids_Permutation
               sort_Slice bids weights agentTrust requiredCaps agentCaps Hc))).
      apply score_bids_In_intro, H2.
Qed.

Lemma RankBids_never_prefers_the_dearer_bid_witness :
  Qle
    (Score (score_bid (find_bounds [bid_first; bid_cheap]) DefaultWeights
              equal_trust [] ∅ bid_first))
    (Score (score_bid (find_bounds [bid_first; bid_cheap]) DefaultWeights
              equal_trust [] ∅ bid_cheap)) /\
  occurs_before
    (score_bid (find_bounds [bid_first; bid_cheap]) DefaultWeights equal_trust
       [] ∅ bid_cheap)
    (score_bid (find_bounds [bid_first; bid_cheap]) DefaultWeights equal_trust
       [] ∅ bid_first)
    (RankBids back_insertion_sort [bid_first; bid_cheap] DefaultWeights
       equal_trust [] ∅).
Proof.
  destruct (RankBids_never_prefers_the_dearer_bid back_insertion_sort
              [bid_first; bid_cheap] DefaultWeights equal_trust [] ∅
              bid_cheap bid_first) as (Hle & _ & Hbefore).
  - apply back_insertion_sort_contract.
  - right. left. reflexivity.
  - left. reflexivity.
  - vm_compute. discriminate.
  - reflexivity.
  - reflexivity.
  - vm_compute. reflexivity.
  - reflexivity.
  - vm_compute. discriminate.
  - split; [exact Hle|]. apply Hbefore. vm_compute. reflexivity.
Defined.


End MarketBehaviour.

(** * Package delegation: the store, decomposition, adaptation, reputation *)

Section DelegationBehaviour.

Import delegation props.

Ltac unfold_nc :=
  unfold storeData, retrieveData, bind, ret, nc_RelationRetrieve,
    nc_RelationRegister, nc_EntityRegister, nc_Post, nc_Get, nc_InitChannel,
    nc_SecureChannelPublish, time_Now in *.

(** [storeData], when it succeeds. *)
Lemma storeData_success domain entity aspect data w :
  fst (storeData domain entity aspect data w) = None ->
  let w' := snd (storeData domain entity aspect data w) in
  records w' = <[(domain, entity, aspect) := data]> (records w) /\
  entity ∈ relations w' /\
  (forall x, x ∈ relations w -> x ∈ relations w') /\
  (forall x, x ∈ relations w' -> x = entity \/ x ∈ relations w) /\
  published w' = published w /\ reads w' = reads w /\ clock w' = clock w /\
  entities w' = entities w.
Proof.
  unfold_nc.
  destruct (bool_decide (entity ∈ relations w)) eqn:Hrel; simpl.
  - apply bool_decide_eq_true in Hrel.
    destruct (post_ok w domain entity aspect); simpl; [|discriminate].
    intros _. repeat split; auto.
  - destruct (relation_register_ok w entity); simpl; [|discriminate].
    destruct (post_ok w domain entity aspect); simpl; [|discriminate].
    intros _. repeat split; auto; try set_solver.
Qed.

Lemma retrieveData_world domain entity aspect w :
  snd (retrieveData domain entity aspect w) = w.
Proof.
  unfold_nc. destruct (bool_decide _); simpl; [|reflexivity].
  destruct (records w !! _); reflexivity.
Qed.

Lemma retrieveData_fst domain entity aspect w :
  fst (retrieveData domain entity aspect w)
  = if bool_decide (entity ∈ relations w)
    then match records w !! (domain, entity, aspect) with
         | Some data => Ok data
         | None => Err (ErrRetrieveFailed domain entity aspect)
         end
    else Err (ErrNoRDID domain entity).
Proof.
  unfold_nc. destruct (bool_decide _); simpl; [|reflexivity].
  destruct (records w !! _); reflexivity.
Qed.

(** X13.  After a storeData that returns nil, retrieveData for the same
    domain, entity and aspect returns the stored bytes and changes nothing;
    what retrieveData returns for any other entity is what it returned
    before the write. *)
Theorem storeData_then_retrieveData domain entity aspect data w :
  fst (storeData domain entity aspect data w) = None ->
  let w' := snd (storeData domain entity aspect data w) in
  retrieveData domain entity aspect w' = (Ok data, w') /\
  (forall domain' entity' aspect',
     entity' <> entity ->
     fst (retrieveData domain' entity' aspect' w')
     = fst (retrieveData domain' entity' aspect' w)).
Proof.
  intros Hok w'.
  destruct (storeData_success _ _ _ _ _ Hok)
    as (Hrec & Hin & Hmono & Hinv & _).
  fold w' in Hrec, Hin, Hmono, Hinv.
  split.
  - rewrite (surjective_pairing (retrieveData domain entity aspect w')).
    rewrite retrieveData_world, retrieveData_fst.
    rewrite bool_decide_eq_true_2 by exact Hin.
    rewrite Hrec, lookup_insert_eq. reflexivity.
  - intros d' e' a' Hne. rewrite !retrieveData_fst.
    rewrite Hrec, lookup_insert_ne by congruence.
    destruct (bool_decide (e' ∈ relations w)) eqn:E.
    + apply bool_decide_eq_true in E.
      rewrite bool_decide_eq_true_2 by (apply Hmono, E). reflexivity.
    + apply bool_decide_eq_false in E.
      rewrite bool_decide_eq_false_2; [reflexivity|].
      intros Hx. destruct (Hinv _ Hx); contradiction.
Qed.

Lemma storeData_then_retrieveData_witness :
  fst (retrieveData DomainTasks "task-data-pipeline" "result_artifact"
         (snd (storeData DomainTasks "task-data-pipeline" "result_artifact"
                 (PBytes "rows: 1200") empty_world)))
  = Ok (PBytes "rows: 1200").
Proof.
  destruct (storeData_then_retrieveData DomainTasks "task-data-pipeline"
              "result_artifact" (PBytes "rows: 1200") empty_world eq_refl)
    as [H _].
  rewrite H. reflexivity.
Defined.

Lemma GetTask_world taskID w : snd (GetTask taskID w) = w.
Proof.
  unfold GetTask, bind.
  pose proof (retrieveData_world DomainTasks taskID "spec" w) as H.
  destruct (retrieveData DomainTasks taskID "spec" w) as [[[]|] w1];
    simpl in *; subst; reflexivity.
Qed.

Lemma GetTask_fst taskID w :
  fst (GetTask taskID w)
  = match fst (retrieveData DomainTasks taskID "spec" w) with
    | Ok (PTask task) => Ok task
    | Ok _ => Err (ErrWrap "unmarshal task" ErrUnmarshal)
    | Err err => Err err
    end.
Proof.
  unfold GetTask, bind.
  destruct (retrieveData DomainTasks taskID "spec" w) as [[[]|] w1];
    reflexivity.
Qed.

(** [CreateTask] up to its call of [storeData]. *)
Lemma CreateTask_unfold task w :
  let stored :=
    types.set_Status types.TaskPending
      (types.set_CreatedAt (clock w (reads w)) task) in
  let w0 := set_reads (S (reads w)) w in
  CreateTask task w
  = if entity_register_ok w (types.TaskID task)
    then storeData DomainTasks (types.TaskID task) "spec" (PTask stored)
           (snd (nc_RelationRegister (types.TaskID task)
                   (set_entities ({[types.TaskID task]} ∪ entities w) w0)))
    else (Some ErrTaskEntityRegister, w0).
Proof.
  unfold CreateTask, bind, time_Now, nc_EntityRegister. simpl.
  destruct (entity_register_ok w (types.TaskID task)); [|reflexivity].
  cbn [negb]. cbv beta iota.
  destruct (nc_RelationRegister _ _). reflexivity.
Qed.

(** [CreateTask], when it succeeds. *)
Lemma CreateTask_success task w :
  fst (CreateTask task w) = None ->
  let stored :=
    types.set_Status types.TaskPending
      (types.set_CreatedAt (clock w (reads w)) task) in
  let w' := snd (CreateTask task w) in
  records w' = <[(DomainTasks, types.TaskID task, "spec") := PTask stored]>
                 (records w) /\
  types.TaskID task ∈ relations w' /\
  published w' = published w /\ reads w' = S (reads w) /\ clock w' = clock w.
Proof.
  rewrite CreateTask_unfold. cbv zeta.
  destruct (entity_register_ok w (types.TaskID task)); [|discriminate].
  intros Hok.
  destruct (storeData_success _ _ _ _ _ Hok)
    as (Hrec & Hin & _ & _ & Hpub & Hreads & Hclock & _).
  rewrite Hrec, Hpub, Hreads, Hclock. split; [|split; [exact Hin|]];
    unfold nc_RelationRegister; simpl;
    destruct (relation_register_ok w (types.TaskID task)); simpl; auto.
Qed.

(** X14.  After a CreateTask that returns nil, GetTask of the task's id
    returns the task as given but with status pending and CreatedAt set to
    the clock reading CreateTask made, whatever status and creation time the
    caller had put in. *)
Theorem CreateTask_then_GetTask task w :
  fst (CreateTask task w) = None ->
  GetTask (types.TaskID task) (snd (CreateTask task w))
  = (Ok (types.set_Status types.TaskPending
           (types.set_CreatedAt (clock w (reads w)) task)),
     snd (CreateTask task w)).
Proof.
  intros Hok.
  destruct (CreateTask_success task w Hok) as (Hrec & Hin & _).
  rewrite (surjective_pairing (GetTask _ _)).
  rewrite GetTask_world, GetTask_fst, retrieveData_fst.
  rewrite bool_decide_eq_true_2 by exact Hin.
  rewrite Hrec. simpl. rewrite lookup_insert_eq. reflexivity.
Qed.

Lemma CreateTask_then_GetTask_witness :
  fst (GetTask "task-build-dashboard" world_with_parent)
  = Ok (types.set_Status types.TaskPending
          (types.set_CreatedAt 0 parent_task)).
Proof.
  exact (f_equal fst (CreateTask_then_GetTask parent_task empty_world eq_refl)).
Defined.

(** X15.  After an UpdateTask that returns nil, GetTask of the task's id
    returns exactly the task that was written, and reading it changes
    nothing. *)
Theorem UpdateTask_then_GetTask task w :
  fst (UpdateTask task w) = None ->
  GetTask (types.TaskID task) (snd (UpdateTask task w))
  = (Ok task, snd (UpdateTask task w)).
Proof.
  intros Hok. unfold UpdateTask in *.
  destruct (storeData_success _ _ _ _ _ Hok) as (Hrec & Hin & _).
  rewrite (surjective_pairing (GetTask _ _)).
  rewrite GetTask_world, GetTask_fst, retrieveData_fst.
  rewrite bool_decide_eq_true_2 by exact Hin.
  rewrite Hrec, lookup_insert_eq. reflexivity.
Qed.

Lemma UpdateTask_then_GetTask_witness :
  fst (GetTask "task-api-backend"
         (snd (UpdateTask irreversible_task world_with_parent)))
  = Ok irreversible_task.
Proof.
  exact (f_equal fst
           (UpdateTask_then_GetTask irreversible_task world_with_parent eq_refl)).
Defined.

(** X16.  When the parent cannot be read (for example when its id holds no
    access relation, which GetTask reports as an error), DecomposeTask
    returns that error wrapped as get parent task and leaves the store, the
    publication log and the clock untouched: no child is created. *)
Theorem DecomposeTask_unknown_parent parentID subTasks w :
  (parentID ∉ relations w ->
   GetTask parentID w = (Err (ErrNoRDID DomainTasks parentID), w)) /\
  (forall err,
     fst (GetTask parentID w) = Err err ->
     DecomposeTask parentID subTasks w
     = (Err (ErrWrap "get parent task" err), w)).
Proof.
  split.
  - intros Hno. rewrite (surjective_pairing (GetTask _ _)).
    rewrite GetTask_world, GetTask_fst, retrieveData_fst.
    rewrite bool_decide_eq_false_2 by exact Hno. reflexivity.
  - intros err Herr. unfold DecomposeTask, bind.
    pose proof (GetTask_world parentID w) as Hw.
    destruct (GetTask parentID w) as [[parent|err'] w1]; simpl in *;
      [discriminate|].
    injection Herr as ->. subst w1. reflexivity.
Qed.

Lemma all_ok_oracles w w' : oracles w' = oracles w -> all_ok w -> all_ok w'.
Proof.
  unfold oracles, all_ok. intros [= -> -> -> -> ->]. auto.
Qed.

Lemma storeData_oracles domain entity aspect data w :
  oracles (snd (storeData domain entity aspect data w)) = oracles w.
Proof.
  unfold_nc. destruct (bool_decide _); simpl.
  - destruct (post_ok w domain entity aspect); reflexivity.
  - destruct (relation_register_ok w entity); simpl; [|reflexivity].
    destruct (post_ok w domain entity aspect); reflexivity.
Qed.

Lemma storeData_all_ok domain entity aspect data w :
  all_ok w -> fst (storeData domain entity aspect data w) = None.
Proof.
  intros (_ & Hr & Hp & _). unfold_nc.
  destruct (bool_decide _); simpl.
  - rewrite Hp. reflexivity.
  - rewrite Hr. simpl. rewrite Hp. reflexivity.
Qed.

Lemma CreateTask_oracles task w :
  oracles (snd (CreateTask task w)) = oracles w.
Proof.
  rewrite CreateTask_unfold. cbv zeta.
  destruct (entity_register_ok w (types.TaskID task)) eqn:E; [|reflexivity].
  rewrite storeData_oracles. unfold nc_RelationRegister. simpl.
  destruct (relation_register_ok w (types.TaskID task)); reflexivity.
Qed.

Lemma CreateTask_all_ok task w :
  all_ok w -> fst (CreateTask task w) = None.
Proof.
  intros Hok. rewrite CreateTask_unfold. cbv zeta.
  rewrite (proj1 Hok). apply storeData_all_ok.
  eapply all_ok_oracles; [|exact Hok].
  unfold nc_RelationRegister. simpl.
  destruct (relation_register_ok w (types.TaskID task)); reflexivity.
Qed.

Lemma CreateTask_relations task w x :
  x ∈ relations w -> x ∈ relations (snd (CreateTask task w)).
Proof.
  intros Hx. rewrite CreateTask_unfold. cbv zeta.
  destruct (entity_register_ok w (types.TaskID task)); [|exact Hx].
  match goal with |- context [storeData ?d ?e ?a ?p ?w0] =>
    assert (Hw0 : x ∈ relations w0) end.
  { unfold nc_RelationRegister. simpl.
    destruct (relation_register_ok w (types.TaskID task)); simpl; set_solver. }
  revert Hw0. generalize (nc_RelationRegister (types.TaskID task)
    (set_entities ({[types.TaskID task]} ∪ entities w) (set_reads (S (reads w)) w))).2.
  intros w0 Hw0. unfold_nc.
  destruct (bool_decide _); simpl.
  - destruct (post_ok w0 _ _ _); exact Hw0.
  - destruct (relation_register_ok w0 _); simpl; [|exact Hw0].
    destruct (post_ok w0 _ _ _); simpl; set_solver.
Qed.

Lemma check_passes parentID parent sub :
  verifiable_or_leaf sub ->
  float64.lt
    (types.Verifiability
       (types.set_DelegatorID (types.DelegatorID parent)
          (types.set_ParentTaskID parentID sub))) 0.3
  && negb (types.IsLeaf
             (types.set_DelegatorID (types.DelegatorID parent)
                (types.set_ParentTaskID parentID sub))) = false.
Proof.
  simpl. intros [Hv|Hl].
  - unfold float64.lt. rewrite (proj2 (Qle_bool_iff _ _) Hv). reflexivity.
  - rewrite Hl. apply andb_false_r.
Qed.

Lemma decompose_loop_cons parentID parent sub rest subIDs w :
  verifiable_or_leaf sub ->
  decompose_loop parentID parent (sub :: rest) subIDs w
  = match fst (CreateTask
                 (types.set_DelegatorID (types.DelegatorID parent)
                    (types.set_ParentTaskID parentID sub)) w) with
    | Some err =>
        (Err (ErrWrap "create sub-task" err),
         snd (CreateTask
                (types.set_DelegatorID (types.DelegatorID parent)
                   (types.set_ParentTaskID parentID sub)) w))
    | None =>
        decompose_loop parentID parent rest (subIDs ++ [types.TaskID sub])
          (snd (CreateTask
                  (types.set_DelegatorID (types.DelegatorID parent)
                     (types.set_ParentTaskID parentID sub)) w))
    end.
Proof.
  intros Hv. cbn [decompose_loop]. cbv zeta.
  rewrite (check_passes parentID parent sub Hv).
  unfold bind. destruct (CreateTask _ w) as [[err|] w1]; reflexivity.
Qed.

Lemma decompose_loop_all_ok parentID parent subTasks :
  forall subIDs w,
  all_ok w ->
  (forall sub, In sub subTasks -> verifiable_or_leaf sub) ->
  let r := decompose_loop parentID parent subTasks subIDs w in
  fst r = Ok (subIDs ++ List.map types.TaskID subTasks) /\
  oracles (snd r) = oracles w /\
  published (snd r) = published w /\
  clock (snd r) = clock w /\
  reads (snd r) = (reads w + List.length subTasks)%nat /\
  (forall x, x ∈ relations w -> x ∈ relations (snd r)) /\
  (forall k, (forall sub, In sub subTasks -> k <> task_key (types.TaskID sub)) ->
             records (snd r) !! k = records w !! k) /\
  (List.NoDup (List.map types.TaskID subTasks) ->
   forall i sub,
     subTasks !! i = Some sub ->
     records (snd r) !! task_key (types.TaskID sub)
     = Some (PTask (child_prepared parentID parent
                      (clock w (reads w + i)%nat) sub))).
Proof.
  induction subTasks as [|sub rest IH]; intros subIDs w Hok Hvalid r.
  - unfold r. simpl. rewrite app_nil_r, Nat.add_0_r.
    repeat split; auto. intros _ i sub Hi. discriminate.
  - unfold r. rewrite decompose_loop_cons by (apply Hvalid; left; reflexivity).
    set (c := types.set_DelegatorID (types.DelegatorID parent)
                (types.set_ParentTaskID parentID sub)).
    pose proof (CreateTask_all_ok c w Hok) as Hc. rewrite Hc.
    destruct (CreateTask_success c w Hc) as (Hrec & Hin & Hpub & Hreads & Hclock).
    cbv zeta in Hrec. change (types.TaskID c) with (types.TaskID sub) in *.
    set (w1 := snd (CreateTask c w)) in *.
    assert (Hok1 : all_ok w1)
      by (eapply all_ok_oracles; [apply CreateTask_oracles | exact Hok]).
    destruct (IH (subIDs ++ [types.TaskID sub]) w1 Hok1
                (fun s Hs => Hvalid s (or_intror Hs)))
      as (I1 & I2 & I3 & I4 & I5 & I6 & I7 & I8).
    split; [rewrite I1, <- app_assoc; reflexivity|].
    split; [rewrite I2; apply CreateTask_oracles|].
    split; [congruence|]. split; [congruence|].
    split; [rewrite I5, Hreads; simpl; lia|].
    split; [intros x Hx; apply I6, CreateTask_relations, Hx|].
    split.
    + intros k Hk. rewrite I7 by (intros s Hs; apply Hk; right; exact Hs).
      rewrite Hrec. apply lookup_insert_ne.
      intros E. apply (Hk sub (or_introl eq_refl)). symmetry. exact E.
    + intros Hnd i s Hi. simpl in Hnd. apply List.NoDup_cons_iff in Hnd as [Hnotin Hnd].
      destruct i as [|i]; simpl in Hi.
      * injection Hi as <-. rewrite I7.
        -- rewrite Hrec. unfold task_key. rewrite lookup_insert_eq.
           rewrite Nat.add_0_r. reflexivity.
        -- intros s Hs E. apply Hnotin. unfold task_key in E.
           injection E as E. rewrite E. apply List.in_map, Hs.
      * rewrite (I8 Hnd i s Hi). rewrite Hclock, Hreads.
        replace (S (reads w) + i)%nat with (reads w + S i)%nat by lia.
        reflexivity.
Qed.

(** X17.  On a server that accepts every call, with a readable parent and
    children that each have verifiability at least 0.3 or are leaves,
    DecomposeTask succeeds: it returns and stores the parent with status
    decomposed, IsLeaf false and the children's ids in order, publishes
    nothing, reads the clock once per child, and (when the children's ids
    are distinct and differ from the parent's) stores each child with the
    parent's id, the parent's delegator, status pending and its own creation
    time. *)
Theorem DecomposeTask_success parentID subTasks parent w :
  all_ok w ->
  fst (GetTask parentID w) = Ok parent ->
  (forall sub, In sub subTasks -> verifiable_or_leaf sub) ->
  let decomposed :=
    types.set_IsLeaf false
      (types.set_Status types.TaskDecomposed
         (types.set_SubTaskIDs (List.map types.TaskID subTasks) parent)) in
  let r := DecomposeTask parentID subTasks w in
  fst r = Ok decomposed /\
  records (snd r) !! task_key (types.TaskID parent) = Some (PTask decomposed) /\
  published (snd r) = published w /\
  reads (snd r) = (reads w + List.length subTasks)%nat /\
  (List.NoDup (List.map types.TaskID subTasks) ->
   ~ In (types.TaskID parent) (List.map types.TaskID subTasks) ->
   forall i sub,
     subTasks !! i = Some sub ->
     records (snd r) !! task_key (types.TaskID sub)
     = Some (PTask (child_prepared parentID parent
                      (clock w (reads w + i)%nat) sub))).
Proof.
  intros Hok Hget Hvalid decomposed r.
  destruct (decompose_loop_all_ok parentID parent subTasks [] w Hok Hvalid)
    as (L1 & L2 & L3 & L4 & L5 & L6 & L7 & L8).
  set (w1 := snd (decompose_loop parentID parent subTasks [] w)) in *.
  assert (Hok1 : all_ok w1) by (eapply all_ok_oracles; eassumption).
  pose proof (storeData_all_ok DomainTasks (types.TaskID decomposed) "spec"
                (PTask decomposed) w1 Hok1) as Hst.
  destruct (storeData_success _ _ _ _ _ Hst)
    as (Hrec & _ & _ & _ & Hpub & Hreads & _).
  set (w2 := snd (storeData DomainTasks (types.TaskID decomposed) "spec"
                    (PTask decomposed) w1)) in *.
  assert (Hr : r = (Ok decomposed, w2)).
  { unfold r, DecomposeTask, bind.
    pose proof (GetTask_world parentID w) as Hw.
    destruct (GetTask parentID w) as [[p|err] w0]; simpl in Hget, Hw;
      [|discriminate]. injection Hget as ->. subst w0.
    unfold w2, w1 in *.
    destruct (decompose_loop parentID parent subTasks [] w) as [ids w1'].
    cbn [fst snd] in *. subst ids. cbn [app]. fold decomposed.
    unfold UpdateTask.
    destruct (storeData DomainTasks (types.TaskID decomposed) "spec"
                (PTask decomposed) w1') as [e w2'].
    cbn [fst snd] in *. subst e. reflexivity. }
  rewrite Hr. cbn [fst snd].
  change (types.TaskID decomposed) with (types.TaskID parent) in Hrec.
  split; [reflexivity|].
  split; [rewrite Hrec; apply lookup_insert_eq|].
  split; [congruence|]. split; [congruence|].
  intros Hnd Hnotin i sub Hi. rewrite Hrec, lookup_insert_ne.
  - apply L8; assumption.
  - unfold task_key. intros E. injection E as E. apply Hnotin. rewrite E.
    apply List.in_map. eapply list_elem_of_In, list_elem_of_lookup_2, Hi.
Qed.

Lemma DecomposeTask_success_witness :
  let stored :=
    types.set_Status types.TaskPending (types.set_CreatedAt 0 parent_task) in
  let r :=
    DecomposeTask "task-build-dashboard" [child_verifiable; reversible_task]
      world_with_parent in
  fst r
  = Ok (types.set_IsLeaf false
          (types.set_Status types.TaskDecomposed
             (types.set_SubTaskIDs ["task-data-pipeline"; "task-report-export"]
                stored))) /\
  published (snd r) = [].
Proof.
  intros stored r.
  destruct (DecomposeTask_success "task-build-dashboard"
              [child_verifiable; reversible_task] stored world_with_parent)
    as (Hr & _ & Hpub & _).
  - repeat split; intros; reflexivity.
  - reflexivity.
  - intros sub [<-|[<-|[]]]; left; vm_compute; discriminate.
  - split; [exact Hr | exact Hpub].
Defined.

Lemma CreateTask_frame task w :
  published (snd (CreateTask task w)) = published w /\
  (forall k, k <> task_key (types.TaskID task) ->
             records (snd (CreateTask task w)) !! k = records w !! k).
Proof.
  rewrite CreateTask_unfold. cbv zeta.
  destruct (entity_register_ok w (types.TaskID task)); [|split; reflexivity].
  match goal with |- context [storeData ?d ?e ?a ?p ?w0] =>
    destruct (storeData_effect d e a p w0) as (Hpub & _ & Hother & _);
    assert (Hw0 : published w0 = published w /\ records w0 = records w)
  end.
  { unfold nc_RelationRegister. simpl.
    destruct (relation_register_ok w (types.TaskID task)); split; reflexivity. }
  destruct Hw0 as [P0 R0]. split.
  - rewrite Hpub. exact P0.
  - intros k Hk. rewrite Hother by exact Hk. rewrite R0. reflexivity.
Qed.

Lemma decompose_loop_frame parentID parent subTasks :
  forall subIDs w,
  let r := decompose_loop parentID parent subTasks subIDs w in
  published (snd r) = published w /\
  (forall k, (forall sub, In sub subTasks -> k <> task_key (types.TaskID sub)) ->
             records (snd r) !! k = records w !! k).
Proof.
  induction subTasks as [|sub rest IH]; intros subIDs w r.
  - split; [reflexivity | intros; reflexivity].
  - unfold r. cbn [decompose_loop]. cbv zeta.
    destruct (_ && _); [split; [reflexivity | intros; reflexivity]|].
    unfold bind.
    set (c := types.set_DelegatorID (types.DelegatorID parent)
                (types.set_ParentTaskID parentID sub)).
    destruct (CreateTask_frame c w) as [Hpub Hrec].
    change (types.TaskID c) with (types.TaskID sub) in Hrec.
    destruct (CreateTask c w) as [[err|] w1]; cbn [fst snd] in *.
    + split; [exact Hpub|]. intros k Hk. apply Hrec, Hk. left. reflexivity.
    + destruct (IH (subIDs ++ [types.TaskID sub]) w1) as [Ipub Irec].
      cbv zeta in Ipub, Irec.
      change (types.TaskID c) with (types.TaskID sub).
      split; [rewrite Ipub; exact Hpub|]. intros k Hk.
      rewrite Irec by (intros s Hs; apply Hk; right; exact Hs).
      apply Hrec, Hk. left. reflexivity.
Qed.

(** X18.  DecomposeTask never publishes, and writes no record other than the
    specs of the given children and of the parent; when it returns an error,
    records other than the children's specs are unchanged, the parent's
    included. *)
Theorem DecomposeTask_frame parentID subTasks w :
  let r := DecomposeTask parentID subTasks w in
  published (snd r) = published w /\
  (forall k,
     (forall sub, In sub subTasks -> k <> task_key (types.TaskID sub)) ->
     (forall parent, fst (GetTask parentID w) = Ok parent ->
                     k <> task_key (types.TaskID parent)) ->
     records (snd r) !! k = records w !! k) /\
  (forall err,
     fst r = Err err ->
     forall k,
       (forall sub, In sub subTasks -> k <> task_key (types.TaskID sub)) ->
       records (snd r) !! k = records w !! k).
Proof.
  intros r. unfold r, DecomposeTask, bind.
  pose proof (GetTask_world parentID w) as Hw.
  destruct (GetTask parentID w) as [[parent|err] w0]; cbn [fst snd] in *;
    subst w0; [|repeat split; reflexivity].
  destruct (decompose_loop_frame parentID parent subTasks [] w) as [Lpub Lrec].
  destruct (decompose_loop parentID parent subTasks [] w) as [[ids|err] w1];
    cbn [fst snd] in *; [|repeat split; auto].
  unfold UpdateTask.
  match goal with |- context [storeData ?d ?e ?a ?p ?w0] =>
    destruct (storeData_effect d e a p w0) as (Hpub & _ & Hother & _ & Hfail);
    destruct (storeData d e a p w0) as [[err|] w2]
  end; unfold ret; cbn [fst snd] in *.
  - split; [congruence|]. split.
    + intros k Hk _. rewrite Hfail by discriminate. apply Lrec, Hk.
    + intros _ _ k Hk. rewrite Hfail by discriminate. apply Lrec, Hk.
  - split; [congruence|]. split; [|discriminate].
    intros k Hk Hp. rewrite Hother; [apply Lrec, Hk|].
    apply (Hp parent eq_refl).
Qed.



(** X20.  For a non-urgent trigger: a type other than budget overrun,
    performance degradation, agent unresponsive and verification failure
    leaves the task and the store exactly as they were and returns nil; a
    verification failure sets the status to re-allocating and stores the
    task, keeping the delegatee, publishing nothing and reading no clock. *)
Theorem evaluateAndRespond_without_redelegation e f task trigger w :
  types.Urgent trigger = false ->
  (types.TrigType trigger <> types.TriggerIntBudgetOverrun ->
   types.TrigType trigger <> types.TriggerIntPerfDrop ->
   types.TrigType trigger <> types.TriggerIntUnresponsive ->
   types.TrigType trigger <> types.TriggerIntVerifyFail ->
   evaluateAndRespond e f task trigger w = (task, None, w)) /\
  (types.TrigType trigger = types.TriggerIntVerifyFail ->
   let reallocating := types.set_Status types.TaskReAllocating task in
   let r := evaluateAndRespond e f task trigger w in
   r = (reallocating, fst (UpdateTask reallocating w),
        snd (UpdateTask reallocating w)) /\
   types.DelegateeID (fst (fst r)) = types.DelegateeID task /\
   published (snd r) = published w /\
   reads (snd r) = reads w).
Proof.
  intros Hu. split.
  - intros H1 H2 H3 H4. unfold evaluateAndRespond.
    rewrite Hu, andb_false_r.
    apply String.eqb_neq in H1, H2, H3, H4. rewrite H1, H2, H3, H4.
    reflexivity.
  - intros Ht reallocating r.
    assert (Hr : r = (reallocating, fst (UpdateTask reallocating w),
                      snd (UpdateTask reallocating w))).
    { unfold r, evaluateAndRespond. rewrite Hu, Ht, andb_false_r. simpl.
      unfold bind, ret. fold reallocating.
      destruct (UpdateTask reallocating w). reflexivity. }
    split; [exact Hr|]. rewrite Hr. cbn [fst snd].
    destruct (storeData_effect DomainTasks (types.TaskID reallocating) "spec"
                (PTask reallocating) w) as (Hpub & Hreads & _).
    fold (UpdateTask reallocating) in Hpub, Hreads. auto.
Qed.

Lemma evaluateAndRespond_without_redelegation_witness :
  evaluateAndRespond engine time.UnixNano_string reversible_task
    priority_trigger empty_world
  = (reversible_task, None, empty_world).
Proof.
  apply (evaluateAndRespond_without_redelegation engine time.UnixNano_string
           reversible_task priority_trigger empty_world eq_refl);
    discriminate.
Defined.

Lemma evaluateAndRespond_redelegates e f task trigger w :
  redelegates task trigger ->
  evaluateAndRespond e f task trigger w = reDelegate e f task w.
Proof.
  unfold evaluateAndRespond.
  intros [[Hu Hr]|[Hu [Ht|Ht]]]; rewrite Hu, ?Hr, ?Ht, ?andb_false_r;
    reflexivity.
Qed.

Lemma RecordReputation_effect f rec w :
  let stamped := types.set_RecordedAt (clock w (reads w)) rec in
  let r := RecordReputation f rec w in
  reads (snd r) = S (reads w) /\
  published (snd r) = published w /\
  oracles (snd r) = oracles w /\
  (forall k, k <> reputation_key f stamped ->
             records (snd r) !! k = records w !! k) /\
  (fst r = None ->
   records (snd r) !! reputation_key f stamped = Some (PReputation stamped)) /\
  (all_ok w -> fst r = None).
Proof.
  intros stamped r. unfold r, RecordReputation, bind, time_Now.
  fold stamped.
  set (w0 := set_reads (S (reads w)) w).
  match goal with |- context [storeData ?d ?en ?a ?p w0] =>
    destruct (storeData_effect d en a p w0) as (Hpub & Hreads & Hother & Hkey & _);
    pose proof (storeData_oracles d en a p w0) as Hor;
    pose proof (storeData_all_ok d en a p w0) as Hok
  end.
  repeat split; auto.
Qed.

Lemma PublishTaskForBidding_all_ok task w :
  all_ok w ->
  let bidding := types.set_Status types.TaskBidding task in
  let channel := "bid_" +:+ types.TaskID task in
  let r := PublishTaskForBidding task w in
  fst r = Ok channel /\
  records (snd r) = <[task_key (types.TaskID task) := PTask bidding]> (records w) /\
  published (snd r) = published w ++ [(channel, PTask bidding)] /\
  reads (snd r) = reads w /\
  oracles (snd r) = oracles w.
Proof.
  intros Hok bidding channel r.
  assert (Hi : init_channel_ok w channel = true) by apply Hok.
  unfold r, PublishTaskForBidding, bind, nc_InitChannel.
  fold channel bidding. rewrite Hi. cbn [negb]. cbv beta iota.
  set (w0 := set_relations ({[channel]} ∪ relations w) w).
  assert (Hok0 : all_ok w0) by (apply (all_ok_oracles w); [reflexivity|exact Hok]).
  unfold UpdateTask.
  pose proof (storeData_all_ok DomainTasks (types.TaskID bidding) "spec"
                (PTask bidding) w0 Hok0) as Hnone.
  pose proof (storeData_success DomainTasks (types.TaskID bidding) "spec"
                (PTask bidding) w0 Hnone) as (Hrec & _ & _ & _ & Hpub & Hreads & _).
  pose proof (storeData_oracles DomainTasks (types.TaskID bidding) "spec"
                (PTask bidding) w0) as Hor.
  destruct (storeData DomainTasks (types.TaskID bidding) "spec"
              (PTask bidding) w0) as [o w1].
  cbn [fst snd] in *. subst o.
  assert (Hs : publish_ok w1 channel = true).
  { apply (all_ok_oracles w0 w1) in Hok0; [apply Hok0 | exact Hor]. }
  unfold nc_SecureChannelPublish, ret. rewrite Hs. cbn [fst snd].
  cbn [records published reads set_published].
  repeat split; try assumption.
  rewrite Hpub. reflexivity.
Qed.

Lemma bind_eq {A B : Type} (m : M A) (k : A -> M B) w :
  bind m k w = k (fst (m w)) (snd (m w)).
Proof. unfold bind. destruct (m w). reflexivity. Qed.

(** X21.  On a server that accepts every call, an urgent trigger on a
    reversible task, or a non-urgent performance or unresponsive trigger,
    re-delegates: the stored task ends with status bidding and no delegatee
    and is published once on channel bid_the task id, while the caller's
    task is left with status re-allocating; when the task had a delegatee, a
    failure record with scores 0 stamped with the clock reading is stored
    for that agent under the task id_the timestamp. *)
Theorem redelegation_republishes_the_task e f task trigger w :
  all_ok w ->
  redelegates task trigger ->
  let now := clock w (reads w) in
  let reallocating :=
    types.set_Status types.TaskReAllocating (types.set_DelegateeID "" task) in
  let bidding := types.set_Status types.TaskBidding reallocating in
  let r := evaluateAndRespond e f task trigger w in
  fst r = (reallocating, None) /\
  records (snd r) !! task_key (types.TaskID task) = Some (PTask bidding) /\
  published (snd r)
  = published w ++ [("bid_" +:+ types.TaskID task, PTask bidding)] /\
  (types.DelegateeID task <> "" ->
   reads (snd r) = S (reads w) /\
   records (snd r) !! reputation_key f (failure_record e task now)
   = Some (PReputation (failure_record e task now))) /\
  (types.DelegateeID task = "" ->
   reads (snd r) = reads w /\
   forall k, k <> task_key (types.TaskID task) ->
             records (snd r) !! k = records w !! k).
Proof.
  intros Hok Hre now reallocating bidding r.
  unfold r. rewrite (evaluateAndRespond_redelegates e f task trigger w Hre).
  unfold reDelegate. fold reallocating.
  rewrite bind_eq.
  match goal with |- context [snd (?m w)] => set (w1 := snd (m w)) end.
  assert (Hfirst :
    all_ok w1 /\ published w1 = published w /\
    (types.DelegateeID task <> "" ->
     reads w1 = S (reads w) /\
     records w1 !! reputation_key f (failure_record e task now)
     = Some (PReputation (failure_record e task now))) /\
    (types.DelegateeID task = "" ->
     reads w1 = reads w /\ records w1 = records w)).
  { unfold w1.
    destruct (String.eqb_spec (types.DelegateeID task) "") as [Heq|Hne];
      cbn [negb].
    - unfold ret. cbn [fst snd].
      split; [assumption|]. split; [reflexivity|].
      split; [intros Hne; contradiction | intros _; split; reflexivity].
    - match goal with |- context [RecordReputation f ?rec w] =>
        destruct (RecordReputation_effect f rec w)
          as (Hreads & Hpub & Hor & _ & Hkey & Hnone)
      end.
      split; [apply (all_ok_oracles w); assumption|].
      split; [assumption|]. split; [|contradiction].
      intros _. split; [assumption|]. apply Hkey, Hnone, Hok. }
  clearbody w1.
  destruct Hfirst as (Hok1 & Hpub1 & Hsome & Hempty).
  rewrite bind_eq. unfold UpdateTask.
  pose proof (storeData_all_ok DomainTasks (types.TaskID reallocating) "spec"
                (PTask reallocating) w1 Hok1) as Hnone.
  pose proof (storeData_success DomainTasks (types.TaskID reallocating) "spec"
                (PTask reallocating) w1 Hnone)
    as (Hrec2 & _ & _ & _ & Hpub2 & Hreads2 & _).
  pose proof (storeData_oracles DomainTasks (types.TaskID reallocating) "spec"
                (PTask reallocating) w1) as Hor2.
  rewrite Hnone.
  set (w2 := snd (storeData DomainTasks (types.TaskID reallocating) "spec"
                    (PTask reallocating) w1)) in *.
  clearbody w2.
  assert (Hok2 : all_ok w2) by (apply (all_ok_oracles w1); assumption).
  rewrite bind_eq.
  destruct (PublishTaskForBidding_all_ok reallocating w2 Hok2)
    as (Hch & Hrec3 & Hpub3 & Hreads3 & _).
  rewrite Hch. unfold ret. cbn [fst snd].
  set (w3 := snd (PublishTaskForBidding reallocating w2)) in *.
  clearbody w3.
  change (types.TaskID reallocating) with (types.TaskID task) in *.
  fold bidding in Hrec3, Hpub3.
  split; [reflexivity|].
  split; [rewrite Hrec3; apply lookup_insert_eq|].
  split; [rewrite Hpub3, Hpub2, Hpub1; reflexivity|].
  split.
  - intros Hne. destruct (Hsome Hne) as [Hr1 Hk1].
    split; [congruence|].
    rewrite Hrec3, Hrec2.
    rewrite !lookup_insert_ne by (unfold task_key, reputation_key; discriminate).
    exact Hk1.
  - intros Heq. destruct (Hempty Heq) as [Hr1 Hk1].
    split; [congruence|].
    intros k Hk. rewrite Hrec3, Hrec2, Hk1.
    rewrite !lookup_insert_ne by (intros Hk'; apply Hk; symmetry; exact Hk').
    reflexivity.
Qed.

Lemma redelegation_republishes_the_task_witness :
  let r :=
    evaluateAndRespond engine time.UnixNano_string reversible_task
      urgent_trigger empty_world in
  types.Status (fst (fst r)) = types.TaskReAllocating /\
  types.DelegateeID (fst (fst r)) = "" /\
  records (snd r) !! task_key "task-report-export"
  = Some (PTask (types.set_Status types.TaskBidding
                   (types.set_DelegateeID "" reversible_task))).
Proof.
  intros r.
  destruct (redelegation_republishes_the_task engine time.UnixNano_string
              reversible_task urgent_trigger empty_world)
    as (Hr & Hrec & _).
  - repeat split; intros; reflexivity.
  - left. split; reflexivity.
  - fold r in Hr, Hrec. rewrite Hr.
    split; [reflexivity|]. split; [reflexivity | exact Hrec].
Defined.

Lemma storeData_error domain entity aspect data w err :
  fst (storeData domain entity aspect data w) = Some err ->
  err = ErrCannotEstablishRDID domain entity \/
  err = ErrStoreFailed domain entity aspect.
Proof.
  unfold_nc.
  destruct (bool_decide _); cbn [fst snd negb].
  - destruct (post_ok w domain entity aspect); cbn [fst];
      [discriminate | intros [= <-]; right; reflexivity].
  - destruct (relation_register_ok w entity); cbn [fst snd negb].
    + destruct (post_ok _ domain entity aspect); cbn [fst];
        [discriminate | intros [= <-]; right; reflexivity].
    + intros [= <-]. left. reflexivity.
Qed.

(** X22.  PublishTaskForBidding changes no record but the task's spec. If
    the channel cannot be opened it returns the error and changes nothing;
    if it succeeds it returns the channel name bid_the task id, the stored
    task has status bidding and exactly one message, that task, is appended
    to the channel; if only the publication fails, the error is returned
    with the task already stored as bidding and nothing published. *)
Theorem PublishTaskForBidding_effects task w :
  let bidding := types.set_Status types.TaskBidding task in
  let channel := "bid_" +:+ types.TaskID task in
  let r := PublishTaskForBidding task w in
  (init_channel_ok w channel = false ->
   r = (Err (ErrWrap "init bidding channel" (ErrInitChannel channel)), w)) /\
  (forall name, fst r = Ok name ->
     name = channel /\
     records (snd r) !! task_key (types.TaskID task) = Some (PTask bidding) /\
     published (snd r) = published w ++ [(channel, PTask bidding)]) /\
  (forall err, fst r = Err err ->
     published (snd r) = published w /\
     (err = ErrWrap "publish to bidding channel" (ErrPublish channel) ->
      records (snd r) !! task_key (types.TaskID task)
      = Some (PTask bidding))) /\
  (forall k, k <> task_key (types.TaskID task) ->
     records (snd r) !! k = records w !! k).
Proof.
  intros bidding channel r.
  unfold r, PublishTaskForBidding, bind, nc_InitChannel.
  fold channel bidding.
  destruct (init_channel_ok w channel) eqn:Hi; cbn [negb]; cbv beta iota;
    [|unfold ret; cbn [fst snd];
      split; [reflexivity|]; split; [discriminate|];
      split; [|reflexivity];
      intros err [= <-]; split; [reflexivity | discriminate]].
  set (w0 := set_relations ({[channel]} ∪ relations w) w).
  unfold UpdateTask.
  destruct (storeData_effect DomainTasks (types.TaskID bidding) "spec"
              (PTask bidding) w0) as (Hpub & _ & Hother & Hkey & _).
  pose proof (storeData_error DomainTasks (types.TaskID bidding) "spec"
                (PTask bidding) w0) as Herr.
  destruct (storeData DomainTasks (types.TaskID bidding) "spec"
              (PTask bidding) w0) as [[err|] w1]; cbn [fst snd] in *.
  - unfold ret. cbn [fst snd].
    split; [discriminate|]. split; [discriminate|].
    split; [|exact Hother].
    intros err' [= <-]. split; [exact Hpub|].
    intros ->. destruct (Herr _ eq_refl); discriminate.
  - unfold nc_SecureChannelPublish, ret.
    destruct (publish_ok w1 channel); cbn [fst snd published records set_published].
    + split; [discriminate|].
      split; [|split; [discriminate | exact Hother]].
      intros name [= <-]. repeat split; [apply Hkey; reflexivity|].
      rewrite Hpub. reflexivity.
    + split; [discriminate|]. split; [discriminate|].
      split; [|exact Hother].
      intros err [= <-]. split; [exact Hpub|]. intros _. apply Hkey. reflexivity.
Qed.

Lemma PublishTaskForBidding_frame task w :
  let r := PublishTaskForBidding task w in
  (forall k, k <> task_key (types.TaskID task) ->
             records (snd r) !! k = records w !! k) /\
  (published (snd r) = published w \/
   published (snd r) = published w ++ [bid_message task]).
Proof.
  intros r. unfold r, PublishTaskForBidding.
  rewrite bind_eq. unfold nc_InitChannel.
  destruct (init_channel_ok w _); cbn [fst snd negb];
    [|unfold ret; cbn [snd]; split; [reflexivity | left; reflexivity]].
  set (w0 := set_relations _ w).
  rewrite bind_eq. unfold UpdateTask.
  set (bidding := types.set_Status types.TaskBidding task).
  destruct (storeData_effect DomainTasks (types.TaskID bidding) "spec"
              (PTask bidding) w0) as (Hpub & _ & Hother & _).
  destruct (storeData DomainTasks (types.TaskID bidding) "spec"
              (PTask bidding) w0) as [[err|] w1]; cbn [fst snd] in *.
  - unfold ret. cbn [snd]. split; [exact Hother | left; exact Hpub].
  - rewrite bind_eq. unfold nc_SecureChannelPublish, ret.
    destruct (publish_ok w1 _); cbn [fst snd records published set_published].
    + split; [exact Hother | right; rewrite Hpub; reflexivity].
    + split; [exact Hother | left; exact Hpub].
Qed.

Lemma reDelegate_frame e f task w :
  let reallocating :=
    types.set_Status types.TaskReAllocating (types.set_DelegateeID "" task) in
  let r := reDelegate e f task w in
  (forall k,
     k <> task_key (types.TaskID task) ->
     k <> reputation_key f (failure_record e task (clock w (reads w))) ->
     records (snd r) !! k = records w !! k) /\
  (published (snd r) = published w \/
   published (snd r) = published w ++ [bid_message reallocating]).
Proof.
  intros reallocating r. unfold r, reDelegate. fold reallocating.
  rewrite bind_eq.
  match goal with |- context [snd (?m w)] => set (w1 := snd (m w)) end.
  assert (H1 : published w1 = published w /\
               forall k,
                 k <> reputation_key f
                        (failure_record e task (clock w (reads w))) ->
                 records w1 !! k = records w !! k).
  { unfold w1. destruct (negb _).
    - match goal with |- context [RecordReputation f ?rec w] =>
        destruct (RecordReputation_effect f rec w)
          as (_ & Hpub & _ & Hother & _)
      end.
      split; [exact Hpub | exact Hother].
    - split; reflexivity. }
  clearbody w1. destruct H1 as [Hpub1 Hrec1].
  rewrite bind_eq. unfold UpdateTask.
  destruct (storeData_effect DomainTasks (types.TaskID reallocating) "spec"
              (PTask reallocating) w1) as (Hpub2 & _ & Hother2 & _).
  destruct (storeData DomainTasks (types.TaskID reallocating) "spec"
              (PTask reallocating) w1) as [[err|] w2]; cbn [fst snd] in *.
  - unfold ret. cbn [snd]. split; [|left; congruence].
    intros k Hk Hk'. rewrite Hother2 by exact Hk. apply Hrec1, Hk'.
  - rewrite bind_eq.
    destruct (PublishTaskForBidding_frame reallocating w2) as [Hrec3 Hpub3].
    destruct (fst (PublishTaskForBidding reallocating w2));
      unfold ret; cbn [snd]; (split; [|]).
    all: try (intros k Hk Hk'; rewrite Hrec3 by exact Hk;
              rewrite Hother2 by exact Hk; apply Hrec1, Hk').
    all: destruct Hpub3 as [-> | ->]; [left | right]; congruence.
Qed.

Lemma evaluateAndRespond_writes e f task trigger w :
  let reallocating :=
    types.set_Status types.TaskReAllocating (types.set_DelegateeID "" task) in
  let r := evaluateAndRespond e f task trigger w in
  (forall k,
     k <> task_key (types.TaskID task) ->
     k <> reputation_key f (failure_record e task (clock w (reads w))) ->
     records (snd r) !! k = records w !! k) /\
  (published (snd r) = published w \/
   published (snd r) = published w ++ [bid_message reallocating]).
Proof.
  intros reallocating r.
  assert (Hupd : forall task',
            types.TaskID task' = types.TaskID task ->
            let r' := (do err <- UpdateTask task'; ret (task', err)) w in
            (forall k,
               k <> task_key (types.TaskID task) ->
               k <> reputation_key f
                      (failure_record e task (clock w (reads w))) ->
               records (snd r') !! k = records w !! k) /\
            (published (snd r') = published w \/
             published (snd r') = published w ++ [bid_message reallocating])).
  { intros task' Hid r'. unfold r'. rewrite bind_eq. unfold ret, UpdateTask.
    cbn [fst snd].
    destruct (storeData_effect DomainTasks (types.TaskID task') "spec"
                (PTask task') w) as (Hpub & _ & Hother & _).
    split; [|left; exact Hpub].
    intros k Hk _. apply Hother. rewrite Hid. exact Hk. }
  pose proof (reDelegate_frame e f task w) as Hre.
  unfold r, evaluateAndRespond.
  destruct (negb (types.Reversible task) && types.Urgent trigger);
    [apply Hupd; reflexivity|].
  destruct (types.Urgent trigger); [exact Hre|].
  destruct (String.eqb _ types.TriggerIntBudgetOverrun);
    [apply Hupd; reflexivity|].
  destruct (_ || _); [exact Hre|].
  destruct (String.eqb _ types.TriggerIntVerifyFail);
    [apply Hupd; reflexivity|].
  unfold ret. cbn [fst snd].
  split; [reflexivity | left; reflexivity].
Qed.

(** X23.  Whatever the trigger, evaluateAndRespond keeps the task's id,
    writes at most two records (the task's spec and the failure record of
    its delegatee at this clock reading) and publishes either nothing or
    exactly one message: the task without delegatee, with status bidding, on
    its bidding channel. *)
Theorem evaluateAndRespond_frame e f task trigger w :
  let reallocating :=
    types.set_Status types.TaskReAllocating (types.set_DelegateeID "" task) in
  let r := evaluateAndRespond e f task trigger w in
  types.TaskID (fst (fst r)) = types.TaskID task /\
  (forall k,
     k <> task_key (types.TaskID task) ->
     k <> reputation_key f (failure_record e task (clock w (reads w))) ->
     records (snd r) !! k = records w !! k) /\
  (published (snd r) = published w \/
   published (snd r) = published w ++ [bid_message reallocating]).
Proof.
  intros reallocating r. split; [|apply evaluateAndRespond_writes].
  assert (Hre : types.TaskID (fst (fst (reDelegate e f task w)))
                = types.TaskID task).
  { unfold reDelegate. rewrite !bind_eq.
    destruct (fst (UpdateTask _ _)); [reflexivity|].
    rewrite bind_eq. destruct (fst (PublishTaskForBidding _ _)); reflexivity. }
  unfold r, evaluateAndRespond.
  destruct (negb (types.Reversible task) && types.Urgent trigger);
    [rewrite bind_eq; reflexivity|].
  destruct (types.Urgent trigger); [exact Hre|].
  destruct (String.eqb _ types.TriggerIntBudgetOverrun);
    [rewrite bind_eq; reflexivity|].
  destruct (_ || _); [exact Hre|].
  destruct (String.eqb _ types.TriggerIntVerifyFail);
    [rewrite bind_eq; reflexivity|].
  reflexivity.
Qed.

Lemma storeData_storable domain entity aspect data w :
  storable w domain entity aspect ->
  fst (storeData domain entity aspect data w) = None.
Proof.
  intros [Hrel Hp]. unfold_nc.
  destruct (bool_decide (entity ∈ relations w)) eqn:Hb; cbn [fst snd negb].
  - rewrite Hp. reflexivity.
  - destruct Hrel as [Hin|Hreg].
    + apply bool_decide_eq_false in Hb. contradiction.
    + rewrite Hreg. cbn [fst snd negb post_ok set_relations]. rewrite Hp.
      reflexivity.
Qed.

Lemma storeData_post_refused domain entity aspect data w :
  post_ok w domain entity aspect = false ->
  fst (storeData domain entity aspect data w) <> None.
Proof.
  intros Hp. unfold_nc.
  destruct (bool_decide _); cbn [fst snd negb].
  - rewrite Hp. discriminate.
  - destruct (relation_register_ok w entity);
      cbn [fst snd negb post_ok set_relations]; [rewrite Hp|]; discriminate.
Qed.

(** X24.  RaiseTrigger stamps and stores the trigger before it looks at the
    task. If the store refuses the trigger, an error is returned and neither
    records nor publications change; if the trigger is stored and the task
    has no spec, the call fails with the retrieve error and the stored
    trigger is the only change; whenever the call returns nil the stamped
    trigger is in the store. *)
Theorem RaiseTrigger_persists_then_responds e f trigger w :
  let stamped := types.set_Timestamp (clock w (reads w)) trigger in
  let taskID := types.TrigTaskID trigger in
  let r := RaiseTrigger e f trigger w in
  (post_ok w DomainTriggers taskID (types.TriggerID trigger) = false ->
   fst r <> None /\ records (snd r) = records w /\
   published (snd r) = published w) /\
  (storable w DomainTriggers taskID (types.TriggerID trigger) ->
   records w !! task_key taskID = None ->
   fst r = Some (ErrRetrieveFailed DomainTasks taskID "spec") /\
   records (snd r) = <[trigger_key trigger := PTrigger stamped]> (records w) /\
   published (snd r) = published w) /\
  (fst r = None ->
   records (snd r) !! trigger_key trigger = Some (PTrigger stamped)).
Proof.
  intros stamped taskID r.
  unfold r, RaiseTrigger. rewrite bind_eq. unfold time_Now. cbn [fst snd].
  fold stamped. change (types.TrigTaskID stamped) with taskID.
  change (types.TriggerID stamped) with (types.TriggerID trigger).
  set (w0 := set_reads (S (reads w)) w).
  rewrite bind_eq.
  pose proof (storeData_effect DomainTriggers taskID (types.TriggerID trigger)
                (PTrigger stamped) w0) as (Hpub & _ & Hother & Hkey & Hfail).
  pose proof (storeData_success DomainTriggers taskID
                (types.TriggerID trigger) (PTrigger stamped) w0) as Hsucc.
  pose proof (storeData_post_refused DomainTriggers taskID
                (types.TriggerID trigger) (PTrigger stamped) w0) as Hrefused.
  pose proof (storeData_storable DomainTriggers taskID
                (types.TriggerID trigger) (PTrigger stamped) w0) as Hstorable.
  destruct (storeData DomainTriggers taskID (types.TriggerID trigger)
              (PTrigger stamped) w0) as [[err|] w1]; cbn [fst snd] in *.
  - unfold ret. cbn [fst snd].
    split; [intros _; split; [discriminate|]; split;
            [apply Hfail; discriminate | exact Hpub]|].
    split; [|discriminate].
    intros Hst _. specialize (Hstorable Hst). discriminate.
  - destruct (Hsucc eq_refl) as (Hrec & Hin & _ & _ & _).
    split; [intros Hp; exfalso; apply (Hrefused Hp); reflexivity|].
    rewrite bind_eq.
    pose proof (GetTask_world taskID w1) as Hw.
    pose proof (GetTask_fst taskID w1) as Hg.
    rewrite retrieveData_fst in Hg.
    rewrite bool_decide_eq_true_2 in Hg by exact Hin.
    rewrite Hw. split.
    + intros _ Hnone.
      rewrite Hrec, lookup_insert_ne in Hg by discriminate.
      change (records w0) with (records w) in Hg.
      unfold task_key in Hnone. rewrite Hnone in Hg. rewrite Hg.
      unfold ret. cbn [fst snd]. repeat split; assumption.
    + destruct (fst (GetTask taskID w1)) as [task|err];
        [|unfold ret; cbn [fst]; discriminate].
      rewrite bind_eq. intros _.
      destruct (evaluateAndRespond_writes e f task stamped w1) as [Hframe _].
      destruct (fst (evaluateAndRespond e f task stamped w1)) as [t' o'].
      unfold ret. cbn [fst snd].
      rewrite Hframe by (unfold trigger_key, task_key, reputation_key;
                         discriminate).
      apply Hkey. reflexivity.
Qed.

(** X25.  SubmitForVerification of an unreadable task returns the read error
    and changes nothing. For a readable task it never publishes, reads no
    clock and writes only the task's spec and the result artifact; when it
    returns nil the artifact is stored, the spec is stored with status
    verifying, and GetTask returns that spec provided the stored task's id
    is the id it is stored under; on a server that accepts every call it
    returns nil. *)
Theorem SubmitForVerification_effects taskID artifact w :
  let r := SubmitForVerification taskID artifact w in
  (forall err, fst (GetTask taskID w) = Err err -> r = (Some err, w)) /\
  (forall task,
     fst (GetTask taskID w) = Ok task ->
     let verifying := types.set_Status types.TaskVerifying task in
     published (snd r) = published w /\
     reads (snd r) = reads w /\
     (forall k, k <> task_key (types.TaskID task) -> k <> artifact_key taskID ->
                records (snd r) !! k = records w !! k) /\
     (fst r = None ->
      records (snd r) !! artifact_key taskID = Some (PBytes artifact) /\
      records (snd r) !! task_key (types.TaskID task) = Some (PTask verifying) /\
      (types.TaskID task = taskID ->
       fst (GetTask taskID (snd r)) = Ok verifying)) /\
     (all_ok w -> fst r = None)).
Proof.
  intros r. unfold r, SubmitForVerification. rewrite bind_eq.
  rewrite (GetTask_world taskID w).
  split.
  - intros err ->. reflexivity.
  - intros task ->.
    set (verifying := types.set_Status types.TaskVerifying task).
    rewrite bind_eq. unfold UpdateTask.
    change (types.TaskID verifying) with (types.TaskID task).
    pose proof (storeData_effect DomainTasks (types.TaskID task) "spec"
                  (PTask verifying) w) as (Hpub1 & Hreads1 & Hother1 & Hkey1 & _).
    pose proof (storeData_success DomainTasks (types.TaskID task) "spec"
                  (PTask verifying) w) as Hsucc1.
    pose proof (storeData_all_ok DomainTasks (types.TaskID task) "spec"
                  (PTask verifying) w) as Hok1.
    pose proof (storeData_oracles DomainTasks (types.TaskID task) "spec"
                  (PTask verifying) w) as Hor1.
    destruct (storeData DomainTasks (types.TaskID task) "spec"
                (PTask verifying) w) as [[err|] w1]; cbn [fst snd] in *.
    + unfold ret. cbn [fst snd].
      split; [exact Hpub1|]. split; [exact Hreads1|].
      split; [intros k Hk _; apply Hother1, Hk|].
      split; [discriminate|]. intros Hok. specialize (Hok1 Hok). discriminate.
    + pose proof (storeData_effect DomainTasks taskID "result_artifact"
                    (PBytes artifact) w1)
        as (Hpub2 & Hreads2 & Hother2 & Hkey2 & _).
      pose proof (storeData_success DomainTasks taskID "result_artifact"
                    (PBytes artifact) w1) as Hsucc2.
      pose proof (storeData_all_ok DomainTasks taskID "result_artifact"
                    (PBytes artifact) w1) as Hok2.
      split; [congruence|]. split; [congruence|].
      split; [intros k Hk Hk'; rewrite Hother2 by exact Hk'; apply Hother1, Hk|].
      split.
      * intros Hnone. split; [apply Hkey2, Hnone|].
        assert (Hspec : records (snd (storeData DomainTasks taskID
                                        "result_artifact" (PBytes artifact) w1))
                        !! task_key (types.TaskID task)
                        = Some (PTask verifying)).
        { rewrite Hother2 by (unfold task_key; discriminate).
          apply Hkey1. reflexivity. }
        split; [exact Hspec|].
        intros Hid. rewrite Hid in Hspec.
        rewrite GetTask_fst, retrieveData_fst.
        destruct (Hsucc2 Hnone) as (_ & Hin & _).
        rewrite bool_decide_eq_true_2 by exact Hin.
        unfold task_key in Hspec. rewrite Hspec. reflexivity.
      * intros Hok. apply Hok2. apply (all_ok_oracles w); assumption.
Qed.

Lemma underscore_in_key x y s :
  x +:+ "_" +:+ y = s -> In "_"%char (list_ascii_of_string s).
Proof.
  intros <-. induction x as [|a x IH]; [left; reflexivity|].
  right. exact IH.
Qed.

Lemma reputation_key_not_history x y : x +:+ "_" +:+ y <> "history".
Proof.
  intros H. apply underscore_in_key in H. cbn in H.
  repeat (destruct H as [H|H]; [discriminate H|]). exact H.
Qed.

Lemma RecordReputation_relations f rec w x :
  x ∈ relations w -> x ∈ relations (snd (RecordReputation f rec w)).
Proof.
  unfold RecordReputation, bind, time_Now.
  set (w0 := set_reads _ w). intros Hin. unfold_nc.
  destruct (bool_decide _); cbn [fst snd negb].
  - destruct (post_ok _ _ _ _); exact Hin.
  - destruct (relation_register_ok _ _); cbn [fst snd negb]; [|exact Hin].
    destruct (post_ok _ _ _ _); cbn [snd relations set_records set_relations];
      set_solver.
Qed.

(** X26.  RecordReputation stores each record under the aspect the task
    id_the timestamp, never under the aspect history that
    GetReputationHistory reads: after any sequence of RecordReputation calls
    the history of every agent is what it was, and for an agent that holds
    an access relation GetReputationHistory returns just what it returned
    before. *)
Theorem RecordReputation_never_feeds_the_history f recs agentID w :
  let w' := record_all f recs w in
  records w' !! (DomainReputation, agentID, "history")
  = records w !! (DomainReputation, agentID, "history") /\
  (forall history,
     fst (GetReputationHistory agentID w) = Ok history ->
     fst (GetReputationHistory agentID w') = Ok history) /\
  (agentID ∈ relations w ->
   fst (GetReputationHistory agentID w') = fst (GetReputationHistory agentID w)).
Proof.
  revert w. induction recs as [|rec rest IH]; intros w w'.
  - repeat split; auto.
  - unfold w'. cbn [record_all].
    set (w1 := snd (RecordReputation f rec w)).
    destruct (IH w1) as (Ik & Iok & Irel). cbv zeta in Ik, Iok, Irel.
    assert (Hk : records w1 !! (DomainReputation, agentID, "history")
                 = records w !! (DomainReputation, agentID, "history")).
    { destruct (RecordReputation_effect f rec w) as (_ & _ & _ & Hother & _).
      apply Hother. unfold reputation_key. intros [= _ H].
      symmetry in H. revert H. apply reputation_key_not_history. }
    assert (Hsame : agentID ∈ relations w ->
                    fst (GetReputationHistory agentID w1)
                    = fst (GetReputationHistory agentID w)).
    { intros Hin.
      pose proof (RecordReputation_relations f rec w agentID Hin) as Hin1.
      fold w1 in Hin1.
      unfold GetReputationHistory. rewrite !bind_eq, !retrieveData_fst.
      rewrite !bool_decide_eq_true_2 by assumption. rewrite Hk.
      destruct (records w !! _) as [[]|]; reflexivity. }
    assert (Hin_of_ok : forall history,
              fst (GetReputationHistory agentID w) = Ok history ->
              agentID ∈ relations w).
    { intros history. unfold GetReputationHistory.
      rewrite bind_eq, retrieveData_fst.
      destruct (bool_decide (agentID ∈ relations w)) eqn:Hb;
        [intros _; apply bool_decide_eq_true in Hb; exact Hb | discriminate]. }
    split; [congruence|]. split.
    + intros history Hh. apply Iok. rewrite Hsame; [exact Hh|].
      apply (Hin_of_ok history Hh).
    + intros Hin. rewrite Irel; [apply Hsame, Hin|].
      apply RecordReputation_relations, Hin.
Qed.




End DelegationBehaviour.
